(** * Knowledge-Island: the analytics chart engine of [CreatorStudio.tsx]

    A shallow embedding of the pure computations inside [AnalyticsView]
    (src/components/CreatorStudio.tsx): the cumulative series generator
    [buildTargetCumulativeTimeline], the vertical axis planner
    ([getNiceStep], [niceMax], [yScaleMax]), the index/pixel mapping
    ([step], [chartPoints], the [onMouseMove] handler) and the date tick
    labels ([tickOffsets], [xAxisTicks]); then the statistics that call the
    generator ([stats] and their targets), the labels of the vertical axis
    ([yAxisValues]), the tooltip ([tooltipLeft], [tooltipTop]), and, outside
    the dashboard, the helpers of the editor ([findFile], the two
    [updateNodes] of [handleSaveContent] and [handlePublish], [escapeHtml])
    and of the project settings ([createProjectSettings],
    [handleSaveProjectSettings]).

    Numbers.  The numbers of the program are read in two ways.

    In exact arithmetic a JavaScript [number] is a value of [JS.num]: a
    finite value is an exact rational ([Fin q]), and the three special values
    that the operations themselves can produce (division by zero, arithmetic
    on [undefined]) are kept as [PInf], [NInf] and [NaN].  No result is
    rounded, nothing overflows or underflows and a zero has no sign.  The
    inputs of the functions (targets, shape parameters, pointer coordinates)
    are finite numbers and have type [Q].  A statement over [JS.num] says
    what the arithmetic of the code computes when it is carried out
    exactly; each such statement says so.

    In binary64 a [number] is a value of [F64.num], the IEEE 754 format that
    the program runs on, with its rounding, its infinities, its signed zeros
    and [NaN].  The series generator and the axis planner are embedded a
    second time over it ([Binary64]), and the targets of the dashboard are
    computed in it.  The runs in which binary64 departs from exact
    arithmetic, and what holds of every binary64 run, are stated over this
    second embedding.

    Quantities that are integers by construction (array lengths, loop
    indices, the chart geometry constants) live in [Z].  [Math.sin],
    [Math.log10] and [Math.pow] are not computed; they are section
    variables, so every theorem holds whatever values they return, within
    the conditions it states. *)

From Stdlib Require Import ZArith QArith Qround Qabs Qpower List Bool Lia Lqa.
From Stdlib Require Import SpecFloat.
From Stdlib Require Import String Ascii DecimalString.
Import ListNotations.

Local Open Scope Z_scope.

(** ** JavaScript numbers *)

Module JS.

Inductive num : Type :=
| Fin (q : Q)
| PInf
| NInf
| NaN.

Definition ofZ (z : Z) : num := Fin (inject_Z z).

Definition isNaN (x : num) : bool :=
  match x with NaN => true | _ => false end.

(** [x + y] *)
Definition add (x y : num) : num :=
  match x, y with
  | NaN, _ | _, NaN => NaN
  | Fin a, Fin b => Fin (a + b)
  | PInf, NInf | NInf, PInf => NaN
  | PInf, _ | _, PInf => PInf
  | NInf, _ | _, NInf => NInf
  end.

(** [-x] *)
Definition neg (x : num) : num :=
  match x with
  | Fin a => Fin (- a)
  | PInf => NInf
  | NInf => PInf
  | NaN => NaN
  end.

(** [x - y] *)
Definition sub (x y : num) : num := add x (neg y).

(** An infinity of the sign given by a comparison with zero; [0 * Infinity]
    and [0 / 0] are [NaN]. *)
Definition signedInf (c : comparison) : num :=
  match c with Gt => PInf | Lt => NInf | Eq => NaN end.

(** [x * y] *)
Definition mul (x y : num) : num :=
  match x, y with
  | NaN, _ | _, NaN => NaN
  | Fin a, Fin b => Fin (a * b)
  | Fin a, PInf | PInf, Fin a => signedInf (a ?= 0)%Q
  | Fin a, NInf | NInf, Fin a => signedInf (0 ?= a)%Q
  | PInf, PInf | NInf, NInf => PInf
  | PInf, NInf | NInf, PInf => NInf
  end.

(** [x / y]; a zero divisor is taken as [+0]. *)
Definition div (x y : num) : num :=
  match x, y with
  | NaN, _ | _, NaN => NaN
  | Fin a, Fin b =>
      if Qeq_bool b 0 then signedInf (a ?= 0)%Q else Fin (a / b)
  | Fin _, (PInf | NInf) => Fin 0
  | PInf, Fin b => if Qle_bool 0 b then PInf else NInf
  | NInf, Fin b => if Qle_bool 0 b then NInf else PInf
  | (PInf | NInf), (PInf | NInf) => NaN
  end.

(** [x <= y]; false as soon as one side is [NaN]. *)
Definition le (x y : num) : bool :=
  match x, y with
  | NaN, _ | _, NaN => false
  | Fin a, Fin b => Qle_bool a b
  | NInf, _ | _, PInf => true
  | _, NInf | PInf, _ => false
  end.

(** [x < y] *)
Definition lt (x y : num) : bool :=
  match x, y with
  | NaN, _ | _, NaN => false
  | Fin a, Fin b => negb (Qle_bool b a)
  | PInf, _ | _, NInf => false
  | NInf, _ | _, PInf => true
  end.

(** [x > y] *)
Definition gt (x y : num) : bool := lt y x.

(** [x >= y] *)
Definition ge (x y : num) : bool := le y x.

(** Truthiness of a number in a condition: [0] and [NaN] are falsy. *)
Definition truthy (x : num) : bool :=
  match x with
  | Fin a => negb (Qeq_bool a 0)
  | NaN => false
  | _ => true
  end.

(** [Math.max(x, y)] *)
Definition Math_max (x y : num) : num :=
  match x, y with
  | NaN, _ | _, NaN => NaN
  | _, _ => if le x y then y else x
  end.

(** [Math.min(x, y)] *)
Definition Math_min (x y : num) : num :=
  match x, y with
  | NaN, _ | _, NaN => NaN
  | _, _ => if le x y then x else y
  end.

(** [Math.floor(x)] *)
Definition Math_floor (x : num) : num :=
  match x with Fin a => ofZ (Qfloor a) | _ => x end.

(** [Math.ceil(x)] *)
Definition Math_ceil (x : num) : num :=
  match x with Fin a => ofZ (Qceiling a) | _ => x end.

(** [Math.round(x)]: to the nearest integer, a half going up. *)
Definition Math_round (x : num) : num :=
  match x with Fin a => ofZ (Qfloor (a + (1 # 2))) | _ => x end.

(** [Math.abs(x)] *)
Definition Math_abs (x : num) : num :=
  match x with
  | Fin a => Fin (Qabs a)
  | NInf => PInf
  | _ => x
  end.

(** [Math.max(...xs)]: [-Infinity] for no argument. *)
Definition Math_max_list (xs : list num) : num :=
  fold_left Math_max xs NInf.

(** An array element read in an arithmetic expression: [undefined] becomes
    [NaN]. *)
Definition toNumber (x : option num) : num :=
  match x with Some v => v | None => NaN end.

(** [arr[i]] for an integer [i]; [None] is [undefined]. *)
Definition getZ {A : Type} (arr : list A) (i : Z) : option A :=
  if i <? 0 then None else nth_error arr (Z.to_nat i).

(** [arr[x]] for a number [x]: only a non-negative integer below the length
    names an element. *)
Definition get {A : Type} (arr : list A) (x : num) : option A :=
  match x with
  | Fin a => if Qeq_bool a (inject_Z (Qfloor a)) then getZ arr (Qfloor a)
             else None
  | _ => None
  end.

(** [arr.length] *)
Definition length {A : Type} (arr : list A) : Z := Z.of_nat (List.length arr).

(** The indices [0 .. n-1] that [Array.from({ length: n }, f)] visits. *)
Definition indices (n : Z) : list Z := map Z.of_nat (seq 0 (Z.to_nat n)).

(** [Array.from({ length: n }, (_, index) => f(index))] *)
Definition Array_from {B : Type} (n : Z) (f : Z -> B) : list B :=
  map f (indices n).

(** The same when the callback also updates a variable of the enclosing
    scope, threaded here as the state [s]. *)
Fixpoint mapAccum {S B : Type} (f : S -> Z -> B * S) (s : S) (l : list Z)
  : list B * S :=
  match l with
  | [] => ([], s)
  | i :: l' =>
      let '(b, s1) := f s i in
      let '(bs, s2) := mapAccum f s1 l' in
      (b :: bs, s2)
  end.

Definition Array_from_acc {S B : Type} (n : Z) (f : S -> Z -> B * S) (s : S)
  : list B :=
  fst (mapAccum f s (indices n)).

End JS.

Import JS.

(** ** Binary64 numbers *)

(** The numbers of the program are IEEE 754 binary64 values.  Where a result
    depends on their rounding, on overflow or on the sign of a zero, the
    computation is embedded over [spec_float], the executable specification
    of binary floating point of the standard library, at the parameters of
    binary64: a precision of 53 bits, exponents up to 1024, rounding to the
    nearest value with ties to the even mantissa. *)
Module F64.

Definition prec : Z := 53.
Definition emax : Z := 1024.

Definition num : Type := spec_float.

Definition NaN : num := S754_nan.
Definition PInf : num := S754_infinity false.
Definition NInf : num := S754_infinity true.

(** The number written as the integer literal [z]: the nearest binary64
    value, which is [z] itself below 2^53. *)
Definition ofZ (z : Z) : num := binary_normalize prec emax z 0 false.

(** [x + y], [x - y], [x * y], [x / y] *)
Definition add (x y : num) : num := SFadd prec emax x y.
Definition sub (x y : num) : num := SFsub prec emax x y.
Definition mul (x y : num) : num := SFmul prec emax x y.
Definition div (x y : num) : num := SFdiv prec emax x y.

(** The number written as the decimal literal [m * 10^-k], for [m] below
    2^53 and [k] up to 22: both integers are binary64 values, so their
    rounded quotient is the value nearest to the literal. *)
Definition dec (m k : Z) : num := div (ofZ m) (ofZ (10 ^ k)).

(** [Number.MIN_VALUE], written [5e-324]: the least positive number. *)
Definition minValue : num := S754_finite false 1 (-1074).

(** The number after [x] in the order of binary64. *)
Definition succ (x : num) : num := SFsucc prec emax x.

Definition isNaN (x : num) : bool :=
  match x with S754_nan => true | _ => false end.

(** Neither [NaN] nor an infinity. *)
Definition isFinite (x : num) : bool :=
  match x with
  | S754_zero _ | S754_finite _ _ _ => true
  | _ => false
  end.

(** [x < y], [x <= y], [x > y], [x >= y]; false as soon as one side is
    [NaN]. *)
Definition lt (x y : num) : bool := SFltb x y.
Definition le (x y : num) : bool := SFleb x y.
Definition gt (x y : num) : bool := SFltb y x.
Definition ge (x y : num) : bool := SFleb y x.

(** Truthiness of a number in a condition: both zeros and [NaN] are falsy. *)
Definition truthy (x : num) : bool :=
  match x with
  | S754_zero _ | S754_nan => false
  | _ => true
  end.

(** [Math.max(x, y)]: [NaN] when one argument is; [+0] is above [-0]. *)
Definition Math_max (x y : num) : num :=
  match SFcompare x y with
  | None => NaN
  | Some Lt => y
  | Some Gt => x
  | Some Eq => match x with S754_zero true => y | _ => x end
  end.

(** [Math.min(x, y)]: [NaN] when one argument is; [-0] is below [+0]. *)
Definition Math_min (x y : num) : num :=
  match SFcompare x y with
  | None => NaN
  | Some Lt => x
  | Some Gt => y
  | Some Eq => match x with S754_zero false => y | _ => x end
  end.

(** [Math.abs(x)] *)
Definition Math_abs (x : num) : num := SFabs x.

(** The largest integer that is not above the finite value [m * 2^e] of
    sign [s]. *)
Definition floorZ (s : bool) (m : positive) (e : Z) : Z :=
  Z.shiftl (cond_Zopp s (Z.pos m)) e.

(** [Math.floor(x)]; a value whose exponent is not negative is an integer
    already, and a zero result keeps the sign of [x]. *)
Definition Math_floor (x : num) : num :=
  match x with
  | S754_finite s m e =>
      if 0 <=? e then x else binary_normalize prec emax (floorZ s m e) 0 s
  | _ => x
  end.

(** [Math.ceil(x)] *)
Definition Math_ceil (x : num) : num :=
  match x with
  | S754_finite s m e =>
      if 0 <=? e then x
      else binary_normalize prec emax (- floorZ (negb s) m e) 0 s
  | _ => x
  end.

(** [Math.round(x)]: the nearest integer, a half going up, computed on the
    exact value [m / 2^-e] as the floor of [(2 * m + 2^-e) / 2^(1-e)]. *)
Definition Math_round (x : num) : num :=
  match x with
  | S754_finite s m e =>
      if 0 <=? e then x
      else binary_normalize prec emax
             (Z.shiftl (2 * cond_Zopp s (Z.pos m) + 2 ^ (- e)) (e - 1)) 0 s
  | _ => x
  end.

(** The integer that a finite number is, for a number that is one. *)
Definition toZ (x : num) : Z :=
  match x with
  | S754_finite s m e => floorZ s m e
  | _ => 0
  end.

(** The array index that a number names as a property key: a zero of either
    sign names 0, a positive integer names itself, anything else names no
    element. *)
Definition toIndex (x : num) : option Z :=
  match x with
  | S754_zero _ => Some 0
  | S754_finite false m e =>
      let z := floorZ false m e in
      if Z.shiftl z (- e) =? Z.pos m then Some z else None
  | _ => None
  end.

(** An array element read in an arithmetic expression: [undefined] becomes
    [NaN]. *)
Definition toNumber (x : option num) : num :=
  match x with Some v => v | None => NaN end.

(** [arr[x]] for a number [x] *)
Definition get {A : Type} (arr : list A) (x : num) : option A :=
  match toIndex x with
  | Some i => JS.getZ arr i
  | None => None
  end.

End F64.

(** ** The series generator *)

(** The [config] argument of [buildTargetCumulativeTimeline]; the two
    optional fields are [None] when absent. *)
Record Config : Type := mkConfig {
  dailyBase : Q;
  dailyWave : Q;
  weeklyBonus : Q;
  dailyDrift : option Q;
  segmentMultipliers : option (list Q)
}.

(** One entry of the timeline. *)
Record Point : Type := mkPoint {
  day : Z;
  value : num;
  isWeek : bool
}.

Section Timeline.

(** [Math.sin] on finite arguments. *)
Variable sin : Q -> Q.

Definition Math_sin (x : num) : num :=
  match x with Fin a => Fin (sin a) | _ => NaN end.

(** [Math.round(Math.abs(Math.sin(index / 4.5)) * config.dailyWave)] *)
Definition waveOf (config : Config) (index : Z) : num :=
  Math_round (mul (Math_abs (Math_sin (div (ofZ index) (Fin (45 # 10)))))
                  (Fin (dailyWave config))).

(** The callback that fills [increments], in exact arithmetic: the fields of
    the shape are finite and no product overflows.  [Binary64.increment] is
    the same callback over binary64. *)
Definition increment (config : Config) (segmentMultipliers : list Q)
    (segmentSize : num) (index : Z) : num :=
  let day := index + 2 in
  let wave := waveOf config index in
  let drift :=
    match dailyDrift config with
    | Some d => if truthy (Fin d) then mul (Fin d) (ofZ index) else ofZ 0
    | None => ofZ 0
    end in
  let dailyStep := add (add (Fin (dailyBase config)) wave) drift in
  let weeklyBoost :=
    if Z.rem day 7 =? 0 then Fin (weeklyBonus config) else ofZ 0 in
  let segmentIndex :=
    Math_min (Math_floor (div (ofZ index) segmentSize))
             (ofZ (JS.length segmentMultipliers - 1)) in
  let segmentMultiplier :=
    toNumber (option_map Fin (get segmentMultipliers segmentIndex)) in
  let jitter :=
    add (ofZ 1) (mul (sub (ofZ (Z.rem index 5)) (ofZ 2)) (Fin (4 # 100))) in
  Math_max (ofZ 1) (mul (mul (add dailyStep weeklyBoost) segmentMultiplier)
                        jitter).

Definition resolveMultipliers (config : Config) : list Q :=
  match segmentMultipliers config with
  | Some l => l
  | None => [1%Q]
  end.

Definition segmentSizeOf (length : Z) (segmentMultipliers : list Q) : num :=
  Math_ceil (div (ofZ (length - 1)) (ofZ (JS.length segmentMultipliers))).

Definition incrementsOf (length : Z) (config : Config) : list num :=
  let segmentMultipliers := resolveMultipliers config in
  let segmentSize := segmentSizeOf length segmentMultipliers in
  Array_from (length - 1) (increment config segmentMultipliers segmentSize).

(** [increments.reduce((acc, value) => acc + value, 0)] *)
Definition sumOf (increments : list num) : num :=
  fold_left add increments (ofZ 0).

(** [sum > 0 ? target / sum : 0] *)
Definition scaleOf (target : Q) (sum : num) : num :=
  if gt sum (ofZ 0) then div (Fin target) sum else ofZ 0.

(** The callback that fills [timeline]; [total] is the running sum it
    updates, kept here without rounding.  [Binary64.timelineStep] is the same
    callback over binary64. *)
Definition timelineStep (length : Z) (target : Q) (increments : list num)
    (scale : num) (total : num) (index : Z) : Point * num :=
  let day := index + 1 in
  if index =? 0 then
    (mkPoint day (ofZ 0) (Z.rem day 7 =? 0), total)
  else
    let total := add total (mul (toNumber (getZ increments (index - 1))) scale) in
    let value :=
      if index =? length - 1 then Fin target
      else Math_max (ofZ 0) (Math_round total) in
    (mkPoint day value (Z.rem day 7 =? 0), total).

Definition buildTargetCumulativeTimeline (length : Z) (target : Q)
    (config : Config) : list Point :=
  if length <=? 1 then
    [mkPoint 1 (ofZ 0) true]
  else
    let increments := incrementsOf length config in
    let sum := sumOf increments in
    let scale := scaleOf target sum in
    Array_from_acc length (timelineStep length target increments scale)
                   (ofZ 0).

Definition valuesOf (timeline : list Point) : list num := map value timeline.

End Timeline.

(** ** The vertical axis *)

Section Axis.

(** [Math.log10] on finite positive arguments. *)
Variable log10 : Q -> Q.

Definition Math_log10 (x : num) : num :=
  match x with
  | Fin a =>
      match (a ?= 0)%Q with
      | Gt => Fin (log10 a)
      | Eq => NInf
      | Lt => NaN
      end
  | PInf => PInf
  | _ => NaN
  end.

(** [Math.pow(10, Math.floor(x))]: the exponent is an integer, so a finite
    power is a rational. *)
Definition pow10_floor (x : num) : num :=
  match x with
  | Fin a => Fin (10 ^ Qfloor a)
  | PInf => PInf
  | NInf => Fin 0
  | NaN => NaN
  end.

Definition getNiceStep (range : num) (ticks : Z) : num :=
  if le range (ofZ 0) then ofZ 1
  else
    let roughStep := div range (ofZ (ticks - 1)) in
    let magnitude := pow10_floor (Math_log10 roughStep) in
    let residual := div roughStep magnitude in
    if le residual (ofZ 1) then mul (ofZ 1) magnitude
    else if le residual (ofZ 2) then mul (ofZ 2) magnitude
    else if le residual (ofZ 5) then mul (ofZ 5) magnitude
    else mul (ofZ 10) magnitude.

(** [Math.ceil(maxTimelineValue / niceStep) * niceStep], the quotient and
    the product taken exactly.  [Binary64.niceMaxOf] is the same expression
    over binary64. *)
Definition niceMaxOf (maxTimelineValue : num) (ticks : Z) : num :=
  let niceStep := getNiceStep maxTimelineValue ticks in
  mul (Math_ceil (div maxTimelineValue niceStep)) niceStep.

(** [axisMax ? Math.max(axisMax, maxTimelineValue) : niceMax]; [axisMax] is
    [None] when the statistic has none. *)
Definition yScaleMaxOf (axisMax : option Q) (maxTimelineValue : num)
    (ticks : Z) : num :=
  let niceMax := niceMaxOf maxTimelineValue ticks in
  match axisMax with
  | Some a =>
      if truthy (Fin a) then Math_max (Fin a) maxTimelineValue else niceMax
  | None => niceMax
  end.

Definition yTicks : Z := 5.

(** [Math.max(...activeStat.timeline.map(item => item.value))] *)
Definition maxTimelineValueOf (timeline : list Point) : num :=
  Math_max_list (map value timeline).

Definition yScaleMax (axisMax : option Q) (maxTimelineValue : num) : num :=
  yScaleMaxOf axisMax maxTimelineValue yTicks.

End Axis.

(** ** Projection to pixels and back *)

Definition chartWidth : Z := 720.
Definition chartHeight : Z := 230.
Definition chartPaddingLeft : Z := 70.
Definition chartPaddingRight : Z := 24.
Definition chartPaddingTop : Z := 18.
Definition chartPaddingBottom : Z := 40.
Definition minStep : Z := 18.

Definition chartSvgWidth (timelineLength : Z) : Z :=
  Z.max chartWidth
        (chartPaddingLeft + chartPaddingRight
         + Z.max 0 (timelineLength - 1) * minStep).

Definition chartPlotWidth (timelineLength : Z) : Z :=
  chartSvgWidth timelineLength - chartPaddingLeft - chartPaddingRight.

Definition chartPlotHeight : Z :=
  chartHeight - chartPaddingTop - chartPaddingBottom.

Definition step (timelineLength : Z) : num :=
  if timelineLength >? 1
  then div (ofZ (chartPlotWidth timelineLength)) (ofZ (timelineLength - 1))
  else ofZ (chartPlotWidth timelineLength).

(** A timeline point with its pixel coordinates. *)
Record ChartPoint : Type := mkChartPoint {
  point : Point;
  x : num;
  y : num
}.

(** The callback of [activeStat.timeline.map((point, index) => ...)]. *)
Definition chartPointOf (timelineLength : Z) (yScaleMax : num)
    (point : Point) (index : Z) : ChartPoint :=
  let x := add (ofZ chartPaddingLeft) (mul (ofZ index) (step timelineLength)) in
  let y :=
    add (ofZ chartPaddingTop)
        (mul (sub (ofZ 1) (div (value point) yScaleMax))
             (ofZ chartPlotHeight)) in
  mkChartPoint point x y.

(** [arr.map((element, index) => f(element, index))] from position [i]. *)
Fixpoint mapi_from {A B : Type} (f : A -> Z -> B) (i : Z) (arr : list A)
  : list B :=
  match arr with
  | [] => []
  | a :: arr' => f a i :: mapi_from f (i + 1) arr'
  end.

Definition chartPoints (timeline : list Point) (yScaleMax : num)
  : list ChartPoint :=
  mapi_from (chartPointOf (JS.length timeline) yScaleMax) 0 timeline.

(** The part of the [onMouseMove] handler after [relativeX] is known. *)
Definition safeIndexAt (timelineLength : Z) (relativeX : num) : num :=
  let clampedX :=
    Math_max (ofZ chartPaddingLeft)
             (Math_min (ofZ (chartSvgWidth timelineLength - chartPaddingRight))
                       relativeX) in
  let index :=
    Math_round (div (sub clampedX (ofZ chartPaddingLeft))
                    (step timelineLength)) in
  Math_max (ofZ 0) (Math_min (ofZ (timelineLength - 1)) index).

(** The handler, as a function of the event ([clientX]), of the rectangle of
    the element ([boundsLeft], [boundsWidth]) and of the hover state, which is
    [None] for [null]; it returns the new hover state. *)
Definition onMouseMove (timelineLength : Z) (clientX boundsLeft boundsWidth : Q)
    (hoveredIndex : option num) : option num :=
  if timelineLength =? 0 then hoveredIndex
  else
    let scaleX := div (ofZ (chartSvgWidth timelineLength)) (Fin boundsWidth) in
    let relativeX := mul (sub (Fin clientX) (Fin boundsLeft)) scaleX in
    Some (safeIndexAt timelineLength relativeX).

(** ** Dates *)

(** A [Date] at local midnight, kept as the number of its day counted from
    1970-01-01; the calendar fields are those of the proleptic Gregorian
    calendar. *)
Module Date.

Definition t : Type := Z.

(** The day number of year [y], month [m] in 1..12 and day of month [d]. *)
Definition ofCivil (y m d : Z) : t :=
  let y := if m <=? 2 then y - 1 else y in
  let era := y / 400 in
  let yoe := y - era * 400 in
  let mp := if m >? 2 then m - 3 else m + 9 in
  let doy := (153 * mp + 2) / 5 + d - 1 in
  let doe := yoe * 365 + yoe / 4 - yoe / 100 + doy in
  era * 146097 + doe - 719468.

(** Year, month in 1..12 and day of month of a day number. *)
Definition toCivil (z : t) : Z * Z * Z :=
  let z := z + 719468 in
  let era := z / 146097 in
  let doe := z - era * 146097 in
  let yoe := (doe - doe / 1460 + doe / 36524 - doe / 146096) / 365 in
  let doy := doe - (365 * yoe + yoe / 4 - yoe / 100) in
  let mp := (5 * doy + 2) / 153 in
  let d := doy - (153 * mp + 2) / 5 + 1 in
  let m := if mp <? 10 then mp + 3 else mp - 9 in
  ((if m <=? 2 then yoe + era * 400 + 1 else yoe + era * 400), m, d).

Definition getFullYear (z : t) : Z := fst (fst (toCivil z)).

(** Months count from 0. *)
Definition getMonth (z : t) : Z := snd (fst (toCivil z)) - 1.

Definition getDate (z : t) : Z := snd (toCivil z).

(** [date.setDate(n)]: day [n] of the month of [date], running over into the
    neighbouring months when [n] is not a day of that month. *)
Definition setDate (z : t) (n : Z) : t :=
  ofCivil (getFullYear z) (getMonth z + 1) 1 + n - 1.

End Date.

(** [String(n)] for an integer. *)
Definition String_ofZ (n : Z) : string := NilZero.string_of_int (Z.to_int n).

Fixpoint repeatChar (c : ascii) (n : nat) : string :=
  match n with
  | O => EmptyString
  | S n' => String c (repeatChar c n')
  end.

(** [s.padStart(targetLength, c)] for a one-character pad. *)
Definition padStart (s : string) (targetLength : nat) (c : ascii) : string :=
  (repeatChar c (targetLength - String.length s) ++ s)%string.

(** [new Date('2025-11-01T00:00:00')] *)
Definition timelineStart : Date.t := Date.ofCivil 2025 11 1.

Definition formatFullDate (date : Date.t) : string :=
  (String_ofZ (Date.getFullYear date) ++ "-"
   ++ padStart (String_ofZ (Date.getMonth date + 1)) 2 "0" ++ "-"
   ++ padStart (String_ofZ (Date.getDate date)) 2 "0")%string.

Definition formatDateLabel (date : Date.t) : string := formatFullDate date.

Definition tickInterval : Z := 7.

(** The loop [for (let i = 0; i < timelineLength; i += tickInterval)
    tickOffsets.push(i)], from the state [(i, tickOffsets)].  The interval is
    an argument; [fuel] bounds the number of tests of the loop condition, and
    [None] means that the bound was reached. *)
Fixpoint tickLoop (fuel : nat) (tickInterval timelineLength i : Z)
    (tickOffsets : list Z) : option (list Z) :=
  match fuel with
  | O => None
  | S fuel' =>
      if i <? timelineLength
      then tickLoop fuel' tickInterval timelineLength (i + tickInterval)
                    (tickOffsets ++ [i])
      else Some tickOffsets
  end.

(** [a !== b] where [a] may be [undefined]. *)
Definition strictNe (a : option Z) (b : Z) : bool :=
  match a with
  | Some v => negb (v =? b)
  | None => true
  end.

(** The loop followed by the push of the last index. *)
Definition tickOffsetsOf (fuel : nat) (tickInterval timelineLength : Z)
  : option (list Z) :=
  match tickLoop fuel tickInterval timelineLength 0 [] with
  | None => None
  | Some tickOffsets =>
      if (timelineLength >? 0)
         && strictNe (getZ tickOffsets (JS.length tickOffsets - 1))
                     (timelineLength - 1)
      then Some (tickOffsets ++ [timelineLength - 1])
      else Some tickOffsets
  end.

(** One label of the horizontal axis. *)
Record Tick : Type := mkTick {
  index : Z;
  label : string
}.

(** The callback of [tickOffsets.map((offset) => ...)]. *)
Definition tickOf (offset : Z) : Tick :=
  let date := timelineStart in
  let date := Date.setDate date (Date.getDate timelineStart + offset) in
  mkTick offset (formatDateLabel date).

Definition xAxisTicks (fuel : nat) (timelineLength : Z) : option (list Tick) :=
  option_map (map tickOf) (tickOffsetsOf fuel tickInterval timelineLength).

(** ** The statistics of the dashboard *)

(** The choices of the revenue selector: '总和', '课程收入', 'AI订阅收入'. *)
Inductive RevenueType : Type :=
| AllRevenue
| CourseRevenue
| AiSubscriptionRevenue.

(** The choices of the project selector: '总和', '数字文艺复兴',
    '极简生活主义'. *)
Inductive ProjectCategory : Type :=
| AllProjects
| DigitalRenaissance
| MinimalistLiving.

Definition historyLength : Z := 68.
Definition baseRevenueTarget : F64.num := F64.ofZ 22450.
Definition baseTotalSubscriptionTarget : F64.num := F64.ofZ 3200.
Definition baseActiveSubscriptionTarget : F64.num := F64.ofZ 850.

Definition revenueTypeMultiplier (selectedRevenueType : RevenueType)
  : F64.num :=
  match selectedRevenueType with
  | AllRevenue => F64.ofZ 1
  | CourseRevenue => F64.dec 65 2
  | AiSubscriptionRevenue => F64.dec 35 2
  end.

Definition projectMultiplier (selectedProjectCategory : ProjectCategory)
  : F64.num :=
  match selectedProjectCategory with
  | AllProjects => F64.ofZ 1
  | DigitalRenaissance => F64.dec 6 1
  | MinimalistLiving => F64.dec 4 1
  end.

(** [Math.round(a)] for a finite [a], as the integer it is. *)
Definition roundQ (a : Q) : Z := Qfloor (a + (1 # 2)).

(** The three targets are [Math.round] of a product of binary64 numbers,
    taken from the left; the rounding of the product decides the result
    where the exact product ends in one half ([22450 * 0.35] is
    7857.499999999999 in binary64).  The result is an integer and is kept as
    such. *)
Definition revenueTarget (selectedRevenueType : RevenueType)
    (selectedProjectCategory : ProjectCategory) : Z :=
  F64.toZ
    (F64.Math_round
       (F64.mul (F64.mul baseRevenueTarget
                         (revenueTypeMultiplier selectedRevenueType))
                (projectMultiplier selectedProjectCategory))).

Definition totalSubscriptionTarget (selectedProjectCategory : ProjectCategory)
  : Z :=
  F64.toZ
    (F64.Math_round
       (F64.mul baseTotalSubscriptionTarget
                (projectMultiplier selectedProjectCategory))).

Definition activeSubscriptionTarget (selectedProjectCategory : ProjectCategory)
  : Z :=
  F64.toZ
    (F64.Math_round
       (F64.mul baseActiveSubscriptionTarget
                (projectMultiplier selectedProjectCategory))).

(** One entry of [stats]; the fields that only hold texts and colours are
    left out. *)
Record Stat : Type := mkStat {
  axisMax : Q;
  timeline : list Point
}.

Section Stats.

Variable sin : Q -> Q.

Definition stats (selectedRevenueType : RevenueType)
    (selectedProjectCategory : ProjectCategory) : list Stat :=
  [ mkStat 25000
      (buildTargetCumulativeTimeline sin historyLength
         (inject_Z (revenueTarget selectedRevenueType selectedProjectCategory))
         (mkConfig 280 160 2300 (Some 2%Q)
            (Some [6 # 10; 135 # 100; 85 # 100; 15 # 10; 105 # 100])));
    mkStat 4000
      (buildTargetCumulativeTimeline sin historyLength
         (inject_Z (totalSubscriptionTarget selectedProjectCategory))
         (mkConfig 36 18 260 (Some (7 # 10))
            (Some [7 # 10; 125 # 100; 9 # 10; 12 # 10; 95 # 100])));
    mkStat 1000
      (buildTargetCumulativeTimeline sin historyLength
         (inject_Z (activeSubscriptionTarget selectedProjectCategory))
         (mkConfig 8 5 60 (Some (1 # 10))
            (Some [8 # 10; 12 # 10; 9 # 10; 115 # 100; 85 # 100]))) ].

(** [activeStatIndex !== null ? stats[activeStatIndex] : null] *)
Definition activeStatOf (stats : list Stat) (activeStatIndex : option Z)
  : option Stat :=
  match activeStatIndex with
  | Some i => getZ stats i
  | None => None
  end.

End Stats.

(** [activeStat ? activeStat.timeline.length : 0] *)
Definition timelineLengthOf (activeStat : option Stat) : Z :=
  match activeStat with
  | Some stat => JS.length (timeline stat)
  | None => 0
  end.

(** [activeStat ? Math.max(...) : 1] *)
Definition maxTimelineValue (activeStat : option Stat) : num :=
  match activeStat with
  | Some stat => maxTimelineValueOf (timeline stat)
  | None => ofZ 1
  end.

(** ** The labels of the vertical axis, the tooltip *)

(** [yScaleMax / (yTicks - 1)] *)
Definition yAxisStepOf (yScaleMax : num) (ticks : Z) : num :=
  div yScaleMax (ofZ (ticks - 1)).

(** [Array.from({ length: yTicks }, (_, index) =>
    Math.round(index * yAxisStep))] *)
Definition yAxisValuesOf (yScaleMax : num) (ticks : Z) : list num :=
  Array_from ticks
    (fun index => Math_round (mul (ofZ index) (yAxisStepOf yScaleMax ticks))).

Definition yAxisValues (yScaleMax : num) : list num :=
  yAxisValuesOf yScaleMax yTicks.

Definition chartBottom : Z := chartPaddingTop + chartPlotHeight.

(** [hoveredIndex !== null ? chartPoints[hoveredIndex] : null]; an index
    that names no element gives [undefined], which is [None] as well. *)
Definition hoveredPointOf (chartPoints : list ChartPoint)
    (hoveredIndex : option num) : option ChartPoint :=
  match hoveredIndex with
  | Some i => get chartPoints i
  | None => None
  end.

Definition tooltipWidth : Z := 180.

Definition tooltipLeftOf (timelineLength : Z) (hoveredPoint : option ChartPoint)
  : num :=
  match hoveredPoint with
  | Some p =>
      Math_min
        (Math_max (sub (x p) (div (ofZ tooltipWidth) (ofZ 2))) (ofZ 12))
        (ofZ (chartSvgWidth timelineLength - tooltipWidth - 12))
  | None => ofZ 0
  end.

Definition tooltipTopOf (hoveredPoint : option ChartPoint) : num :=
  match hoveredPoint with
  | Some p => Math_max (sub (y p) (ofZ 80)) (ofZ 12)
  | None => ofZ 0
  end.

(** ** The file tree of the editor *)

(** The declarations of [FileNode] and [PublishConfig] are in [../types],
    which is not among the sources: the fields below are those that
    [CreatorStudio.tsx] writes in [getDefaultPublishConfig],
    [handleCreateFolder], [handleCreateDoc] and [handleUpload].  A field that
    may be absent is an [option]. *)
Module FileTree.

Inductive NodeType : Type :=
| folder
| text
| image.

Record Permissions : Type := mkPermissions {
  allowCopy : bool;
  allowDownload : bool;
  watermark : bool
}.

Record PublishConfig : Type := mkPublishConfig {
  isPublished : bool;
  textCost : num;
  audioCost : num;
  permissions : Permissions
}.

#[local] Unset Elimination Schemes.

Inductive FileNode : Type := mkFileNode {
  id : string;
  name : string;
  type : NodeType;
  isOpen : option bool;
  content : option string;
  publishConfig : option PublishConfig;
  children : option (list FileNode)
}.

#[local] Set Elimination Schemes.

(** Induction over a tree: a node without [children], and a node whose
    children all have the property. *)
Section Induction.

Variable P : FileNode -> Prop.
Hypothesis leaf_case :
  forall i n t o c p, P (mkFileNode i n t o c p None).
Hypothesis folder_case :
  forall i n t o c p l, Forall P l -> P (mkFileNode i n t o c p (Some l)).

Fixpoint FileNode_tree_ind (node : FileNode) : P node :=
  match node with
  | mkFileNode i n t o c p None => leaf_case i n t o c p
  | mkFileNode i n t o c p (Some l) =>
      folder_case i n t o c p l
        ((fix all (l : list FileNode) : Forall P l :=
            match l with
            | [] => Forall_nil P
            | a :: r => Forall_cons a (FileNode_tree_ind a) (all r)
            end) l)
  end.

End Induction.

(** [getDefaultPublishConfig()] *)
Definition getDefaultPublishConfig : PublishConfig :=
  mkPublishConfig false (ofZ 5) (ofZ 10) (mkPermissions false false true).

(** One turn of the loop of [findFile]: the node itself, then its children
    in order. *)
Fixpoint findIn (node : FileNode) (sel : string) : option FileNode :=
  match node with
  | mkFileNode i _ _ _ _ _ ch =>
      if String.eqb i sel then Some node
      else
        match ch with
        | Some l =>
            (fix loop (nodes : list FileNode) : option FileNode :=
               match nodes with
               | [] => None
               | n :: rest =>
                   match findIn n sel with
                   | Some found => Some found
                   | None => loop rest
                   end
               end) l
        | None => None
        end
  end.

(** [findFile(nodes, id)]: the first node for which a turn of the loop
    returns; [None] is [null]. *)
Fixpoint findFile (nodes : list FileNode) (sel : string) : option FileNode :=
  match nodes with
  | [] => None
  | n :: rest =>
      match findIn n sel with
      | Some found => Some found
      | None => findFile rest sel
      end
  end.

(** [{ ...node, content: serializedContent }] *)
Definition withContent (serializedContent : string) (node : FileNode)
  : FileNode :=
  mkFileNode (id node) (name node) (type node) (isOpen node)
             (Some serializedContent) (publishConfig node) (children node).

(** [{ ...node, publishConfig: configToSave }] *)
Definition withPublishConfig (configToSave : PublishConfig) (node : FileNode)
  : FileNode :=
  mkFileNode (id node) (name node) (type node) (isOpen node)
             (content node) (Some configToSave) (children node).

(** The callback of the two [updateNodes], which differ in the copy they
    make of the selected node ([change]). *)
Fixpoint updateNode (change : FileNode -> FileNode) (selectedFileId : string)
    (node : FileNode) : FileNode :=
  match node with
  | mkFileNode i n t o c p ch =>
      if String.eqb i selectedFileId then change node
      else
        match ch with
        | Some l =>
            mkFileNode i n t o c p
              (Some (map (updateNode change selectedFileId) l))
        | None => node
        end
  end.

Definition updateNodes (change : FileNode -> FileNode)
    (selectedFileId : string) (nodes : list FileNode) : list FileNode :=
  map (updateNode change selectedFileId) nodes.

(** A string in a condition: the empty string is falsy. *)
Definition truthyString (s : string) : bool :=
  negb (String.eqb s EmptyString).

(** [selectedFileId ? findFile(files, selectedFileId) : null] *)
Definition selectedFileOf (files : list FileNode)
    (selectedFileId : option string) : option FileNode :=
  match selectedFileId with
  | Some sel => if truthyString sel then findFile files sel else None
  | None => None
  end.

Definition isText (t : NodeType) : bool :=
  match t with text => true | _ => false end.

(** [handleSaveContent], as the new value of [files]; [editor] holds what
    [editor.getHTML()] returns and is [None] when there is no editor. *)
Definition handleSaveContent (files : list FileNode)
    (selectedFileId : option string) (editor : option string)
  : list FileNode :=
  match selectedFileId, editor with
  | Some sel, Some serializedContent =>
      if truthyString sel then
        match selectedFileOf files selectedFileId with
        | Some selectedFile =>
            if isText (type selectedFile)
            then updateNodes (withContent serializedContent) sel files
            else files
        | None => files
        end
      else files
  | _, _ => files
  end.

(** [handlePublish], as the new value of [files]. *)
Definition handlePublish (files : list FileNode)
    (selectedFileId : option string) (tempPublishConfig : PublishConfig)
  : list FileNode :=
  match selectedFileId with
  | Some sel =>
      if truthyString sel then
        let configToSave :=
          mkPublishConfig true (textCost tempPublishConfig)
                          (audioCost tempPublishConfig)
                          (permissions tempPublishConfig) in
        updateNodes (withPublishConfig configToSave) sel files
      else files
  | None => files
  end.

(** The nodes of a tree in the order of the document: a node, then its
    children. *)
Fixpoint flattenNode (node : FileNode) : list FileNode :=
  match node with
  | mkFileNode _ _ _ _ _ _ ch =>
      node :: match ch with
              | Some l => flat_map flattenNode l
              | None => []
              end
  end.

Definition flatten (nodes : list FileNode) : list FileNode :=
  flat_map flattenNode nodes.

(** The fields of a node other than its children. *)
Definition ownFields (node : FileNode)
  : string * string * NodeType * option bool * option string
    * option PublishConfig :=
  (id node, name node, type node, isOpen node, content node,
   publishConfig node).

End FileTree.

(** ** Escaping of HTML *)

(** A string is kept as the bytes of its UTF-8 form.  The five characters
    that [escapeHtml] replaces are ASCII, and an ASCII byte is never part of
    the encoding of another character, so that replacing them in the bytes
    is replacing them in the string. *)

(** [value.replace(/c/g, replacement)] for a pattern of one character [c]
    and a replacement without [$]. *)
Fixpoint replaceAllChar (c : ascii) (replacement : string) (value : string)
  : string :=
  match value with
  | EmptyString => EmptyString
  | String a rest =>
      if Ascii.eqb a c
      then (replacement ++ replaceAllChar c replacement rest)%string
      else String a (replaceAllChar c replacement rest)
  end.

(** The double quote. *)
Definition doubleQuote : ascii := "034"%char.

Definition escapeHtml (value : string) : string :=
  replaceAllChar "'" "&#039;"
    (replaceAllChar doubleQuote "&quot;"
       (replaceAllChar ">" "&gt;"
          (replaceAllChar "<" "&lt;"
             (replaceAllChar "&" "&amp;" value)))).

(** ** The projects and their settings *)

(** [ProjectSettings] is declared in [CreatorStudio.tsx]; the declaration of
    [Project] is in [../types], which is not among the sources: its fields
    are those that [handleCreateProject] writes, with the optional
    [coverImage] that [createProjectSettings] reads. *)
Module Projects.

Inductive Status : Type :=
| published
| draft.

Record ProjectStats : Type := mkProjectStats {
  views : num;
  sales : num
}.

Record Project : Type := mkProject {
  id : string;
  title : string;
  description : string;
  coverImage : option string;
  lastModified : string;
  status : Status;
  stats : ProjectStats
}.

Module Settings.

Record ProjectSettings : Type := mkProjectSettings {
  title : string;
  description : string;
  coverUrl : string;
  tags : string;
  status : Status;
  textCost : num;
  audioCost : num;
  permissions : FileTree.Permissions
}.

End Settings.

(** [a || b] for strings: [a] unless it is empty. *)
Definition orString (a b : string) : string :=
  if String.eqb a EmptyString then b else a.

Definition defaultTitle : string := "未命名项目".
Definition defaultDescription : string := "请填写项目简介。".
Definition justNow : string := "刚刚".

Definition createProjectSettings (project : option Project)
  : Settings.ProjectSettings :=
  Settings.mkProjectSettings
    (match project with
     | Some p => orString (title p) defaultTitle
     | None => defaultTitle
     end)
    (match project with
     | Some p => orString (description p) defaultDescription
     | None => defaultDescription
     end)
    (match project with
     | Some p =>
         match coverImage p with
         | Some url => orString url EmptyString
         | None => EmptyString
         end
     | None => EmptyString
     end)
    EmptyString
    (match project with
     | Some p => status p
     | None => draft
     end)
    (ofZ 5) (ofZ 10)
    (FileTree.mkPermissions false false true).

(** [selectedProjectId ? projectSettingsById[selectedProjectId] : null];
    the record of the settings is the function that reads it. *)
Definition activeProjectSettingsOf
    (projectSettingsById : string -> option Settings.ProjectSettings)
    (selectedProjectId : option string) : option Settings.ProjectSettings :=
  match selectedProjectId with
  | Some sel =>
      if FileTree.truthyString sel then projectSettingsById sel else None
  | None => None
  end.

(** The callback of [prev.map] in [handleSaveProjectSettings]. *)
Definition saveProject (selectedProjectId : string)
    (activeProjectSettings : Settings.ProjectSettings) (project : Project)
  : Project :=
  if negb (String.eqb (id project) selectedProjectId) then project
  else
    mkProject (id project)
      (Settings.title activeProjectSettings)
      (Settings.description activeProjectSettings)
      (if FileTree.truthyString (Settings.coverUrl activeProjectSettings)
       then Some (Settings.coverUrl activeProjectSettings)
       else coverImage project)
      justNow
      (Settings.status activeProjectSettings)
      (stats project).

(** [handleSaveProjectSettings], as the new value of [projects]. *)
Definition handleSaveProjectSettings (projects : list Project)
    (selectedProjectId : option string)
    (projectSettingsById : string -> option Settings.ProjectSettings)
  : list Project :=
  match selectedProjectId,
        activeProjectSettingsOf projectSettingsById selectedProjectId with
  | Some sel, Some activeProjectSettings =>
      if FileTree.truthyString sel
      then map (saveProject sel activeProjectSettings) projects
      else projects
  | _, _ => projects
  end.

End Projects.

(** ** New files *)

Module NewFiles.

Import FileTree.

(** The three handlers put a new node after the nodes of the top level;
    [now] is what [Date.now()] returns.  Each is given as the new value of
    [files]. *)
Definition newFolder (now : Z) : FileNode :=
  mkFileNode ("folder_" ++ String_ofZ now) "新建文件夹" folder (Some true)
             None None (Some []).

Definition handleCreateFolder (files : list FileNode) (now : Z)
  : list FileNode :=
  files ++ [newFolder now].

Definition newDoc (now : Z) : FileNode :=
  mkFileNode ("doc_" ++ String_ofZ now) "未命名文档.md" text None
             (Some "<h1>新文档</h1><p>在此开始写作...</p>"%string) None None.

Definition handleCreateDoc (files : list FileNode) (now : Z)
  : list FileNode :=
  files ++ [newDoc now].

(** The second component of the result of [handleCreateDoc]: the new value
    of [selectedFileId]. *)
Definition selectedAfterCreateDoc (now : Z) : option string :=
  Some (id (newDoc now)).

(** The literal reads the clock twice, [now] for the id and [later] for the
    name. *)
Definition newImage (now later : Z) : FileNode :=
  mkFileNode ("img_" ++ String_ofZ now)
             ("图片_" ++ String_ofZ later ++ ".png") image None
             (Some "https://picsum.photos/600/400"%string) None None.

Definition handleUpload (files : list FileNode) (now later : Z)
  : list FileNode :=
  files ++ [newImage now later].

End NewFiles.

(** ** The series generator and the axis planner in binary64 *)

(** The same two functions, read over binary64 numbers: the text of each
    definition is that of its exact counterpart above, with the arithmetic
    of [F64].  The lengths and indices stay in [Z], as the loops of the
    source give them. *)
Module Binary64.

Import F64.

Record Config : Type := mkConfig {
  dailyBase : num;
  dailyWave : num;
  weeklyBonus : num;
  dailyDrift : option num;
  segmentMultipliers : option (list num)
}.

Record Point : Type := mkPoint {
  day : Z;
  value : num;
  isWeek : bool
}.

Section Timeline.

(** [Math.sin] on finite arguments other than zero; [Math.sin] gives a zero
    back and has no value at an infinity. *)
Variable sin : num -> num.

Definition Math_sin (x : num) : num :=
  match x with
  | S754_finite _ _ _ => sin x
  | S754_zero _ => x
  | _ => NaN
  end.

(** [Math.round(Math.abs(Math.sin(index / 4.5)) * config.dailyWave)] *)
Definition waveOf (config : Config) (index : Z) : num :=
  Math_round (mul (Math_abs (Math_sin (div (ofZ index) (dec 45 1))))
                  (dailyWave config)).

(** The callback that fills [increments]. *)
Definition increment (config : Config) (segmentMultipliers : list num)
    (segmentSize : num) (index : Z) : num :=
  let day := index + 2 in
  let wave := waveOf config index in
  let drift :=
    match dailyDrift config with
    | Some d => if truthy d then mul d (ofZ index) else ofZ 0
    | None => ofZ 0
    end in
  let dailyStep := add (add (dailyBase config) wave) drift in
  let weeklyBoost :=
    if Z.rem day 7 =? 0 then weeklyBonus config else ofZ 0 in
  let segmentIndex :=
    Math_min (Math_floor (div (ofZ index) segmentSize))
             (ofZ (JS.length segmentMultipliers - 1)) in
  let segmentMultiplier := toNumber (get segmentMultipliers segmentIndex) in
  let jitter :=
    add (ofZ 1) (mul (sub (ofZ (Z.rem index 5)) (ofZ 2)) (dec 4 2)) in
  Math_max (ofZ 1) (mul (mul (add dailyStep weeklyBoost) segmentMultiplier)
                        jitter).

Definition resolveMultipliers (config : Config) : list num :=
  match segmentMultipliers config with
  | Some l => l
  | None => [ofZ 1]
  end.

Definition segmentSizeOf (length : Z) (segmentMultipliers : list num) : num :=
  Math_ceil (div (ofZ (length - 1)) (ofZ (JS.length segmentMultipliers))).

Definition incrementsOf (length : Z) (config : Config) : list num :=
  let segmentMultipliers := resolveMultipliers config in
  let segmentSize := segmentSizeOf length segmentMultipliers in
  Array_from (length - 1) (increment config segmentMultipliers segmentSize).

(** [increments.reduce((acc, value) => acc + value, 0)] *)
Definition sumOf (increments : list num) : num :=
  fold_left add increments (ofZ 0).

(** [sum > 0 ? target / sum : 0] *)
Definition scaleOf (target : num) (sum : num) : num :=
  if gt sum (ofZ 0) then div target sum else ofZ 0.

(** The callback that fills [timeline]; [total] is the running sum it
    updates. *)
Definition timelineStep (length : Z) (target : num) (increments : list num)
    (scale : num) (total : num) (index : Z) : Point * num :=
  let day := index + 1 in
  if index =? 0 then
    (mkPoint day (ofZ 0) (Z.rem day 7 =? 0), total)
  else
    let total := add total (mul (toNumber (getZ increments (index - 1))) scale) in
    let value :=
      if index =? length - 1 then target
      else Math_max (ofZ 0) (Math_round total) in
    (mkPoint day value (Z.rem day 7 =? 0), total).

Definition buildTargetCumulativeTimeline (length : Z) (target : num)
    (config : Config) : list Point :=
  if length <=? 1 then
    [mkPoint 1 (ofZ 0) true]
  else
    let increments := incrementsOf length config in
    let sum := sumOf increments in
    let scale := scaleOf target sum in
    Array_from_acc length (timelineStep length target increments scale)
                   (ofZ 0).

Definition valuesOf (timeline : list Point) : list num := map value timeline.

End Timeline.

Section Axis.

(** [Math.log10] on finite positive arguments, and [Math.pow(10, y)] on
    finite exponents other than zero; the other cases are fixed by the
    language. *)
Variable log10 : num -> num.
Variable pow10 : num -> num.

Definition Math_log10 (x : num) : num :=
  match x with
  | S754_finite false _ _ => log10 x
  | S754_zero _ => NInf
  | S754_infinity false => PInf
  | _ => NaN
  end.

Definition Math_pow10 (y : num) : num :=
  match y with
  | S754_finite _ _ _ => pow10 y
  | S754_zero _ => ofZ 1
  | S754_infinity false => PInf
  | S754_infinity true => ofZ 0
  | S754_nan => NaN
  end.

Definition getNiceStep (range : num) (ticks : Z) : num :=
  if le range (ofZ 0) then ofZ 1
  else
    let roughStep := div range (ofZ (ticks - 1)) in
    let magnitude := Math_pow10 (Math_floor (Math_log10 roughStep)) in
    let residual := div roughStep magnitude in
    if le residual (ofZ 1) then mul (ofZ 1) magnitude
    else if le residual (ofZ 2) then mul (ofZ 2) magnitude
    else if le residual (ofZ 5) then mul (ofZ 5) magnitude
    else mul (ofZ 10) magnitude.

(** [Math.ceil(maxTimelineValue / niceStep) * niceStep] *)
Definition niceMaxOf (maxTimelineValue : num) (ticks : Z) : num :=
  let niceStep := getNiceStep maxTimelineValue ticks in
  mul (Math_ceil (div maxTimelineValue niceStep)) niceStep.

(** [axisMax ? Math.max(axisMax, maxTimelineValue) : niceMax] *)
Definition yScaleMaxOf (axisMax : option num) (maxTimelineValue : num)
    (ticks : Z) : num :=
  let niceMax := niceMaxOf maxTimelineValue ticks in
  match axisMax with
  | Some a => if truthy a then Math_max a maxTimelineValue else niceMax
  | None => niceMax
  end.

Definition yScaleMax (axisMax : option num) (maxTimelineValue : num) : num :=
  yScaleMaxOf axisMax maxTimelineValue yTicks.

End Axis.

End Binary64.

(** ** Notions used in the statements *)

(** The shape used by the worked examples: a flat base of 10 a day. *)
Definition flatConfig : Config := mkConfig 10 0 0 (Some 0%Q) (Some [1%Q]).


(** A shape whose list of multipliers is empty. *)
Definition emptyConfig : Config := mkConfig 10 0 0 None (Some []).

(** [value[i+1] >= value[i]] for every adjacent pair, with the comparison of
    the program. *)
Definition nondecreasing (values : list num) : Prop :=
  forall i v w,
    nth_error values i = Some v ->
    nth_error values (S i) = Some w ->
    ge w v = true.

(** The sum of the increments, written from the right. *)
Fixpoint sumQ (qs : list Q) : Q :=
  match qs with
  | [] => 0%Q
  | q :: qs' => (q + sumQ qs')%Q
  end.

(** The value emitted for a running total [t]: [Math.max(0, Math.round(t))]. *)
Definition roundedTotal (t : Q) : Z := Z.max 0 (Qfloor (t + (1 # 2))).

(** [lo <= z1 <= z2 <= ...] *)
Fixpoint chain (lo : Z) (zs : list Z) : Prop :=
  match zs with
  | [] => True
  | z :: zs' => lo <= z /\ chain z zs'
  end.

(** A stand-in for [Math.sin] when its value does not matter. *)
Definition noSin : Q -> Q := fun _ => 0%Q.

(** The multiples [0, t, 2t, ...] of the interval [t] up to
    [timelineLength - 1], in ascending order. *)
Definition multiplesBelow (tickInterval timelineLength : Z) : list Z :=
  map (fun k => Z.of_nat k * tickInterval)
      (seq 0 (Z.to_nat ((timelineLength - 1) / tickInterval + 1))).

(** The value of [total] once the walk over the days has ended. *)
Definition finalTotal (sin : Q -> Q) (length : Z) (target : Q)
    (config : Config) : num :=
  let increments := incrementsOf sin length config in
  let scale := scaleOf target (sumOf increments) in
  snd (mapAccum (timelineStep length target increments scale) (ofZ 0)
                (indices length)).

(** Every element is below the elements after it. *)
Definition strictlyAscending (l : list Z) : Prop :=
  forall i j a b,
    (i < j)%nat ->
    nth_error l i = Some a ->
    nth_error l j = Some b ->
    a < b.

(** A small tree for the instances: a folder with a document and an image,
    and a second document. *)
Definition sampleFiles : list FileTree.FileNode :=
  [ FileTree.mkFileNode "folder_1" "notes" FileTree.folder (Some true) None None
      (Some [ FileTree.mkFileNode "doc_1" "a.md" FileTree.text None
                (Some "<p>a</p>"%string) None None;
              FileTree.mkFileNode "img_1" "b.png" FileTree.image None
                (Some "https://picsum.photos/600/400"%string) None None ]);
    FileTree.mkFileNode "doc_2" "c.md" FileTree.text None
      (Some "<p>c</p>"%string) None None ].

(** What one character becomes when a text is escaped in one pass. *)
Definition escapeChar (a : ascii) : string :=
  if Ascii.eqb a "&" then "&amp;"
  else if Ascii.eqb a "<" then "&lt;"
  else if Ascii.eqb a ">" then "&gt;"
  else if Ascii.eqb a doubleQuote then "&quot;"
  else if Ascii.eqb a "'" then "&#039;"
  else String a EmptyString.

(** The texts of the characters of [value], one after the other. *)
Fixpoint escapeEach (value : string) : string :=
  match value with
  | EmptyString => EmptyString
  | String a rest => (escapeChar a ++ escapeEach rest)%string
  end.

(** [c] is a character of [s]. *)
Fixpoint occurs (c : ascii) (s : string) : bool :=
  match s with
  | EmptyString => false
  | String a rest => Ascii.eqb a c || occurs c rest
  end.

(** Two projects for the instances, and the settings made from the first. *)
Definition sampleProjects : list Projects.Project :=
  [ Projects.mkProject "proj_1" "Renaissance" "A course" None "1d"
      Projects.published (Projects.mkProjectStats (ofZ 10) (ofZ 2));
    Projects.mkProject "proj_2" "" "Notes" (Some "cover.png"%string) "2d"
      Projects.draft (Projects.mkProjectStats (ofZ 0) (ofZ 0)) ].

Definition sampleSettings (sel : string)
  : option Projects.Settings.ProjectSettings :=
  if String.eqb sel "proj_2"
  then Some (Projects.createProjectSettings
               (nth_error sampleProjects 1))
  else None.

(** A stand-in for [Math.sin] in binary64 when its value does not matter. *)
Definition noSin64 : F64.num -> F64.num := fun _ => F64.ofZ 0.



(** A shape whose drift overflows on the third day: a base of 10 a day, a
    drift of [-1e308] a day, the one multiplier [0]. *)
Definition driftingConfig : Binary64.Config :=
  Binary64.mkConfig (F64.ofZ 10) (F64.ofZ 0) (F64.ofZ 0)
    (Some (F64.ofZ (- 10 ^ 308))) (Some [F64.ofZ 0]).

(** A binary64 number above 0: the positive infinity, or a positive finite
    number whose exponent is not below the least exponent of the format. *)
Definition positive_number (x : F64.num) : Prop :=
  x = F64.PInf
  \/ exists m e, x = S754_finite false m e /\ emin F64.prec F64.emax <= e.

(** The number after 0.03, written [0.030000000000000002]. *)
Definition justAbove3Hundredths : F64.num := F64.succ (F64.dec 3 2).

(** The coordinate that the [onMouseMove] handler computes from the event
    and from the rectangle of its element:
    [(event.clientX - bounds.left) * (chartSvgWidth / bounds.width)]. *)
Definition relativeXOf (timelineLength : Z)
    (clientX boundsLeft boundsWidth : Q) : Q :=
  ((clientX - boundsLeft)
   * (inject_Z (chartSvgWidth timelineLength) / boundsWidth))%Q.

(** * Properties *)

(** ** Facts about the number operations *)

Lemma Math_max_ofZ (a b : Z) : Math_max (ofZ a) (ofZ b) = ofZ (Z.max a b).
Proof.
  unfold Math_max, ofZ, le.
  destruct (Qle_bool (inject_Z a) (inject_Z b)) eqn:E.
  - apply Qle_bool_iff in E. rewrite <- Zle_Qle in E.
    now rewrite Z.max_r.
  - assert (H : ~ (a <= b)).
    { intro H. rewrite Zle_Qle in H. apply Qle_bool_iff in H. congruence. }
    rewrite Z.max_l by lia. reflexivity.
Qed.

Lemma Math_min_ofZ (a b : Z) : Math_min (ofZ a) (ofZ b) = ofZ (Z.min a b).
Proof.
  unfold Math_min, ofZ, le.
  destruct (Qle_bool (inject_Z a) (inject_Z b)) eqn:E.
  - apply Qle_bool_iff in E. rewrite <- Zle_Qle in E.
    now rewrite Z.min_l.
  - assert (H : ~ (a <= b)).
    { intro H. rewrite Zle_Qle in H. apply Qle_bool_iff in H. congruence. }
    rewrite Z.min_r by lia. reflexivity.
Qed.

Lemma Qeq_bool_false (a b : Q) : ~ (a == b)%Q -> Qeq_bool a b = false.
Proof.
  intro H. destruct (Qeq_bool a b) eqn:E; [|reflexivity].
  apply Qeq_bool_iff in E. contradiction.
Qed.

Lemma Qle_bool_false (a b : Q) : (b < a)%Q -> Qle_bool a b = false.
Proof.
  intro H. destruct (Qle_bool a b) eqn:E; [|reflexivity].
  apply Qle_bool_iff in E. lra.
Qed.

Lemma Qle_bool_true (a b : Q) : (a <= b)%Q -> Qle_bool a b = true.
Proof. intro H. now apply Qle_bool_iff. Qed.

Lemma div_Fin (a b : Q) : ~ (b == 0)%Q -> div (Fin a) (Fin b) = Fin (a / b).
Proof. intro H. unfold div. now rewrite Qeq_bool_false. Qed.

Lemma div_ofZ (a b : Z) :
  b <> 0 -> div (ofZ a) (ofZ b) = Fin (inject_Z a / inject_Z b).
Proof.
  intro H. apply div_Fin. intro E. unfold Qeq in E. simpl in E. lia.
Qed.

Lemma inject_Z_nonzero (z : Z) : z <> 0 -> ~ (inject_Z z == 0)%Q.
Proof.
  intros H E. unfold Qeq in E. simpl in E. lia.
Qed.

(** ** Facts about [Array.from] *)

Lemma indices_length (n : Z) : List.length (indices n) = Z.to_nat n.
Proof. unfold indices. now rewrite length_map, length_seq. Qed.

Lemma indices_nth (n : Z) (k : nat) :
  (k < Z.to_nat n)%nat -> nth_error (indices n) k = Some (Z.of_nat k).
Proof.
  intro H. unfold indices. rewrite nth_error_map.
  rewrite (nth_error_nth' _ 0%nat) by (now rewrite length_seq).
  now rewrite seq_nth.
Qed.

Lemma indices_In (n i : Z) : In i (indices n) <-> 0 <= i < n.
Proof.
  unfold indices. rewrite in_map_iff. split.
  - intros [k [<- H]]. apply in_seq in H. lia.
  - intro H. exists (Z.to_nat i). split; [lia|]. apply in_seq. lia.
Qed.

Lemma indices_succ (n : Z) :
  1 <= n -> indices n = 0 :: map Z.of_nat (seq 1 (Z.to_nat (n - 1))).
Proof.
  intro H. unfold indices.
  replace (Z.to_nat n) with (S (Z.to_nat (n - 1))) by lia.
  reflexivity.
Qed.

Section MapAccum.

Context {S B : Type} (f : S -> Z -> B * S).

Lemma mapAccum_cons (s : S) (i : Z) (l : list Z) :
  fst (mapAccum f s (i :: l))
  = fst (f s i) :: fst (mapAccum f (snd (f s i)) l).
Proof.
  simpl. destruct (f s i) as [b s1]. simpl.
  now destruct (mapAccum f s1 l).
Qed.

Lemma mapAccum_length (l : list Z) (s : S) :
  List.length (fst (mapAccum f s l)) = List.length l.
Proof.
  revert s. induction l as [|i l IH]; intro s; [reflexivity|].
  rewrite mapAccum_cons. simpl. now rewrite IH.
Qed.

(** A property of the element produced at an index that does not depend on
    the state holds at every position. *)
Lemma mapAccum_nth (R : Z -> B -> Prop) :
  (forall s i, R i (fst (f s i))) ->
  forall l s n i, nth_error l n = Some i ->
    exists b, nth_error (fst (mapAccum f s l)) n = Some b /\ R i b.
Proof.
  intros HR. induction l as [|j l IH]; intros s n i Hn.
  - destruct n; discriminate.
  - rewrite mapAccum_cons. destruct n as [|n]; simpl in *.
    + injection Hn as <-. eexists. split; [reflexivity|apply HR].
    + now apply IH.
Qed.

Lemma mapAccum_In (l : list Z) (s : S) (b : B) :
  In b (fst (mapAccum f s l)) -> exists s' i, In i l /\ b = fst (f s' i).
Proof.
  revert s. induction l as [|j l IH]; intros s H.
  - destruct H.
  - rewrite mapAccum_cons in H. destruct H as [H|H].
    + exists s, j. split; [now left|now symmetry].
    + destruct (IH _ H) as [s' [i [Hi E]]]. exists s', i. split; [now right|assumption].
Qed.

End MapAccum.

(** ** The series generator *)

Section TimelineFacts.

Variable sin : Q -> Q.

Lemma timeline_length (length : Z) (target : Q) (config : Config) :
  2 <= length ->
  JS.length (buildTargetCumulativeTimeline sin length target config) = length.
Proof.
  intro H. unfold buildTargetCumulativeTimeline.
  replace (length <=? 1) with false by (symmetry; apply Z.leb_gt; lia).
  unfold Array_from_acc, JS.length.
  rewrite mapAccum_length, indices_length. lia.
Qed.

(** C1: for a length of at least 2 and a target of at least 0, whatever the
    shape, the timeline has [length] points and the value of the last one,
    at index [length - 1], is the target itself. *)
Theorem last_value_is_target (length : Z) (target : Q) (config : Config) :
  2 <= length ->
  (0 <= target)%Q ->
  let timeline := buildTargetCumulativeTimeline sin length target config in
  JS.length timeline = length /\
  exists p, nth_error timeline (Z.to_nat (length - 1)) = Some p
            /\ value p = Fin target.
Proof.
  intros H _ timeline. split; [now apply timeline_length|].
  subst timeline. unfold buildTargetCumulativeTimeline.
  replace (length <=? 1) with false by (symmetry; apply Z.leb_gt; lia).
  unfold Array_from_acc.
  set (f := timelineStep length target _ _).
  assert (HR : forall s i,
             i = length - 1 -> value (fst (f s i)) = Fin target).
  { intros s i Hi. unfold f, timelineStep.
    destruct (i =? 0) eqn:E0; simpl; [lia|].
    now rewrite (proj2 (Z.eqb_eq _ _) Hi). }
  destruct (mapAccum_nth f (fun i p => i = length - 1 -> value p = Fin target)
              HR (indices length) (ofZ 0) (Z.to_nat (length - 1)) (length - 1))
    as [p [Hp Hv]].
  { rewrite indices_nth by lia. f_equal. lia. }
  exists p. split; [assumption|]. now apply Hv.
Qed.

(** C4, as amended: for a length of at least 2 every point of the timeline
    is flagged as a week boundary exactly when its day is divisible by 7. *)
Theorem week_flag_iff_divisible (length : Z) (target : Q) (config : Config) :
  2 <= length ->
  forall p, In p (buildTargetCumulativeTimeline sin length target config) ->
    (isWeek p = true <-> (7 | day p)).
Proof.
  intros H p Hp. unfold buildTargetCumulativeTimeline in Hp.
  replace (length <=? 1) with false in Hp by (symmetry; apply Z.leb_gt; lia).
  unfold Array_from_acc in Hp. apply mapAccum_In in Hp.
  destruct Hp as [s [i [_ ->]]].
  assert (E : forall q : Point, isWeek q = (Z.rem (day q) 7 =? 0) ->
                isWeek q = true <-> (7 | day q)).
  { intros q ->. rewrite Z.eqb_eq. apply Z.rem_divide. discriminate. }
  apply E. unfold timelineStep. now destruct (i =? 0).
Qed.

(** C6: for a length of at most 1 the result is the single point of day 1,
    value 0 and a set week flag, whatever the target and the shape: the test
    on the length comes first, so that neither the increments nor any
    quotient is evaluated (the result is the same for a shape with no
    multiplier, whose segment size would be a division by zero). *)
Theorem degenerate_single_point (length : Z) (target : Q) (config : Config) :
  length <= 1 ->
  buildTargetCumulativeTimeline sin length target config
  = [mkPoint 1 (ofZ 0) true].
Proof.
  intro H. unfold buildTargetCumulativeTimeline.
  now rewrite (proj2 (Z.leb_le _ _) H).
Qed.

End TimelineFacts.

(** ** The increments *)

Lemma Math_max_one (e : Q) :
  exists q, Math_max (ofZ 1) (Fin e) = Fin q /\ (1 <= q)%Q.
Proof.
  unfold Math_max, ofZ, le.
  destruct (Qle_bool (inject_Z 1) e) eqn:E.
  - exists e. split; [reflexivity|]. now apply Qle_bool_iff in E.
  - exists (inject_Z 1). split; [reflexivity|]. apply Qle_refl.
Qed.

Lemma get_ofZ {A : Type} (arr : list A) (j : Z) :
  0 <= j -> get arr (ofZ j) = nth_error arr (Z.to_nat j).
Proof.
  intro H. unfold get, ofZ. rewrite Qfloor_Z.
  rewrite (proj2 (Qeq_bool_iff _ _) (Qeq_refl _)).
  unfold getZ. now rewrite (proj2 (Z.ltb_ge _ _) H).
Qed.

Lemma Qceiling_pos (a : Q) : (0 < a)%Q -> 1 <= Qceiling a.
Proof.
  intro H. pose proof (Qle_ceiling a) as C.
  assert (L : (inject_Z 0 < inject_Z (Qceiling a))%Q).
  { eapply Qlt_le_trans; [exact H|exact C]. }
  rewrite <- Zlt_Qlt in L. lia.
Qed.

Lemma Qfloor_nonneg (a : Q) : (0 <= a)%Q -> 0 <= Qfloor a.
Proof.
  intro H. change 0 with (Qfloor (inject_Z 0)) at 1.
  now apply Qfloor_resp_le.
Qed.

Section IncrementFacts.

Variable sin : Q -> Q.

Lemma waveOf_finite (config : Config) (index : Z) :
  exists w, waveOf sin config index = Fin w.
Proof.
  unfold waveOf. unfold ofZ at 1. rewrite div_Fin by discriminate.
  cbn [Math_sin Math_abs mul Math_round]. unfold ofZ. eauto.
Qed.

(** With no wave amplitude the wave term is 0 whatever [Math.sin] returns. *)
Lemma waveOf_zero (config : Config) (index : Z) :
  (dailyWave config == 0)%Q -> waveOf sin config index = ofZ 0.
Proof.
  intro H. unfold waveOf. unfold ofZ at 1. rewrite div_Fin by discriminate.
  cbn [Math_sin Math_abs mul Math_round]. f_equal.
  match goal with |- Qfloor ?e = _ =>
    assert (E : (e == 1 # 2)%Q) by (rewrite H; ring)
  end.
  now rewrite E.
Qed.

Lemma segmentSize_finite (length : Z) (segments : list Q) :
  2 <= length -> segments <> [] ->
  exists c, segmentSizeOf length segments = ofZ c /\ 1 <= c.
Proof.
  intros Hl Hs. unfold segmentSizeOf.
  assert (Hn : 1 <= JS.length segments).
  { unfold JS.length. destruct segments; [congruence|simpl; lia]. }
  rewrite div_ofZ by lia.
  simpl. eexists. split; [reflexivity|].
  apply Qceiling_pos. apply Qlt_shift_div_l.
  - change 0%Q with (inject_Z 0). rewrite <- Zlt_Qlt. lia.
  - rewrite Qmult_0_l. change 0%Q with (inject_Z 0). rewrite <- Zlt_Qlt. lia.
Qed.

(** With at least one multiplier every increment is a finite number that is
    at least 1. *)
Lemma increment_finite (config : Config) (segments : list Q) (length index : Z) :
  2 <= length -> segments <> [] -> 0 <= index ->
  exists q,
    increment sin config segments (segmentSizeOf length segments) index = Fin q
    /\ (1 <= q)%Q.
Proof.
  intros Hl Hs Hi.
  destruct (segmentSize_finite length segments Hl Hs) as [c [-> Hc]].
  assert (Hn : 1 <= JS.length segments).
  { unfold JS.length. destruct segments; [congruence|simpl; lia]. }
  unfold increment.
  destruct (waveOf_finite config index) as [w ->].
  rewrite div_ofZ by lia.
  cbn [Math_floor]. rewrite Math_min_ofZ.
  set (k := Qfloor (inject_Z index / inject_Z c)).
  assert (Hk : 0 <= k).
  { apply Qfloor_nonneg. apply Qle_shift_div_l.
    - change 0%Q with (inject_Z 0). rewrite <- Zlt_Qlt. lia.
    - rewrite Qmult_0_l. change 0%Q with (inject_Z 0). rewrite <- Zle_Qle. lia. }
  rewrite get_ofZ by lia.
  destruct (nth_error segments (Z.to_nat (Z.min k (JS.length segments - 1))))
    as [m|] eqn:Em.
  2:{ apply nth_error_None in Em. unfold JS.length in *. lia. }
  assert (D : exists d,
             match dailyDrift config with
             | Some d => if truthy (Fin d) then mul (Fin d) (ofZ index) else ofZ 0
             | None => ofZ 0
             end = Fin d).
  { destruct (dailyDrift config) as [d|]; [|unfold ofZ; eauto].
    destruct (truthy (Fin d)); unfold ofZ; simpl; eauto. }
  destruct D as [d ->].
  assert (W : exists b,
             (if Z.rem (index + 2) 7 =? 0 then Fin (weeklyBonus config) else ofZ 0)
             = Fin b).
  { destruct (Z.rem (index + 2) 7 =? 0); unfold ofZ; eauto. }
  destruct W as [b ->].
  cbn [option_map toNumber add mul sub neg ofZ].
  apply Math_max_one.
Qed.

Lemma increments_finite (length : Z) (config : Config) :
  2 <= length -> segmentMultipliers config <> Some [] ->
  Forall (fun v => exists q, v = Fin q /\ (1 <= q)%Q)
         (incrementsOf sin length config).
Proof.
  intros Hl Hs. unfold incrementsOf, Array_from.
  apply Forall_map, Forall_forall. intros i Hi.
  apply indices_In in Hi. apply increment_finite; try lia.
  unfold resolveMultipliers.
  destruct (segmentMultipliers config) as [l|]; congruence.
Qed.

Lemma increments_length (length : Z) (config : Config) :
  List.length (incrementsOf sin length config) = Z.to_nat (length - 1).
Proof.
  unfold incrementsOf, Array_from. now rewrite length_map, indices_length.
Qed.

End IncrementFacts.

Lemma Forall_Fin (l : list num) :
  Forall (fun v => exists q, v = Fin q /\ (1 <= q)%Q) l ->
  exists qs, l = map Fin qs /\ Forall (fun q => (1 <= q)%Q) qs.
Proof.
  induction 1 as [|v l [q [-> Hq]] _ [qs [-> Hqs]]].
  - exists []. split; [reflexivity|constructor].
  - exists (q :: qs). split; [reflexivity|now constructor].
Qed.

Lemma sumOf_from (qs : list Q) (a : Q) :
  fold_left add (map Fin qs) (Fin a) = Fin (fold_left Qplus qs a).
Proof.
  revert a. induction qs as [|q qs IH]; intro a; [reflexivity|].
  simpl. apply IH.
Qed.

Lemma sumOf_Fin (qs : list Q) :
  sumOf (map Fin qs) = Fin (fold_left Qplus qs (inject_Z 0)).
Proof. apply sumOf_from. Qed.

Lemma fold_left_sumQ (qs : list Q) (a : Q) :
  (fold_left Qplus qs a == a + sumQ qs)%Q.
Proof.
  revert a. induction qs as [|q qs IH]; intro a; simpl.
  - ring.
  - rewrite IH. ring.
Qed.

Lemma sumQ_lower (qs : list Q) :
  Forall (fun q => (1 <= q)%Q) qs ->
  (inject_Z (Z.of_nat (List.length qs)) <= sumQ qs)%Q.
Proof.
  induction 1 as [|q qs Hq _ IH]; [apply Qle_refl|].
  cbn [List.length sumQ]. rewrite Nat2Z.inj_succ. unfold Z.succ.
  rewrite inject_Z_plus. change (inject_Z 1) with 1%Q.
  revert IH. generalize (inject_Z (Z.of_nat (List.length qs))) (sumQ qs).
  intros a b IH. lra.
Qed.

(** In exact arithmetic, for a length of at least 2 and a shape whose list
    of multipliers is not empty, every raw increment is at least 1, their
    sum is at least [length - 1] and positive, and the scale is the quotient
    [target / sum]: the branch that sets it to 0 is not taken. *)
Lemma exact_increments_at_least_one (sin : Q -> Q) (length : Z)
    (config : Config) :
  2 <= length ->
  segmentMultipliers config <> Some [] ->
  let increments := incrementsOf sin length config in
  Forall (fun v => ge v (ofZ 1) = true) increments
  /\ ge (sumOf increments) (ofZ (length - 1)) = true
  /\ gt (sumOf increments) (ofZ 0) = true
  /\ forall target,
       scaleOf target (sumOf increments) = div (Fin target) (sumOf increments).
Proof.
  intros Hl Hs increments.
  pose proof (increments_finite sin length config Hl Hs) as F.
  pose proof (increments_length sin length config) as L.
  fold increments in F, L.
  assert (G : Forall (fun v => ge v (ofZ 1) = true) increments).
  { eapply Forall_impl; [|exact F]. intros v [q [-> Hq]].
    unfold ge, le, ofZ. now apply Qle_bool_true. }
  destruct (Forall_Fin _ F) as [qs [E Hqs]].
  rewrite E in *. rewrite length_map in L.
  rewrite sumOf_Fin.
  pose proof (fold_left_sumQ qs (inject_Z 0)) as S1.
  pose proof (sumQ_lower qs Hqs) as S2.
  assert (P : (inject_Z (length - 1) <= fold_left Qplus qs (inject_Z 0))%Q).
  { rewrite S1. replace (length - 1) with (Z.of_nat (List.length qs)) by lia.
    change (inject_Z 0) with 0%Q. rewrite Qplus_0_l. exact S2. }
  assert (P0 : (0 < fold_left Qplus qs (inject_Z 0))%Q).
  { eapply Qlt_le_trans; [|exact P].
    change 0%Q with (inject_Z 0). rewrite <- Zlt_Qlt. lia. }
  assert (G0 : gt (Fin (fold_left Qplus qs (inject_Z 0))) (ofZ 0) = true).
  { unfold gt, lt, ofZ. rewrite Qle_bool_false; [reflexivity|exact P0]. }
  repeat split.
  - exact G.
  - unfold ge, le, ofZ. now apply Qle_bool_true.
  - exact G0.
  - intro target. unfold scaleOf. now rewrite G0.
Qed.

(** ** The walk over the days *)

Lemma chain_nondecreasing (zs : list Z) :
  forall lo, chain lo zs -> nondecreasing (map ofZ (lo :: zs)).
Proof.
  induction zs as [|z zs IH]; intros lo H i v w Hv Hw.
  - destruct i as [|i]; simpl in Hw; [discriminate|destruct i; discriminate].
  - destruct H as [H1 H2]. destruct i as [|i].
    + simpl in Hv, Hw. injection Hv as <-. injection Hw as <-.
      unfold ge, le, ofZ. apply Qle_bool_true. now rewrite <- Zle_Qle.
    + exact (IH z H2 i v w Hv Hw).
Qed.

Lemma roundedTotal_mono (t u : Q) :
  (t <= u)%Q -> roundedTotal t <= roundedTotal u.
Proof.
  intro H. unfold roundedTotal. apply Z.max_le_compat_l.
  apply Qfloor_resp_le. lra.
Qed.

Lemma roundedTotal_below (t : Q) (z : Z) :
  0 <= z -> (t <= inject_Z z)%Q -> roundedTotal t <= z.
Proof.
  intros Hz H. unfold roundedTotal. apply Z.max_lub; [assumption|].
  pose proof (Qfloor_le (t + (1 # 2))) as F.
  assert (L : (inject_Z (Qfloor (t + (1 # 2))) < inject_Z (z + 1))%Q).
  { rewrite inject_Z_plus. change (inject_Z 1) with 1%Q.
    revert F H. generalize (inject_Z (Qfloor (t + (1 # 2)))) (inject_Z z).
    intros a b F H. lra. }
  rewrite <- Zlt_Qlt in L. lia.
Qed.

Lemma skipn_cons_nth {A : Type} (l : list A) :
  forall n a r, skipn n l = a :: r ->
    nth_error l n = Some a /\ skipn (S n) l = r.
Proof.
  induction l as [|b l IH]; intros n a r H.
  - destruct n; discriminate.
  - destruct n as [|n].
    + simpl in H. injection H as -> ->. split; reflexivity.
    + simpl in H. apply IH in H. exact H.
Qed.

Section Walk.

Variables (length tz : Z) (qs : list Q) (sc : Q).
Hypothesis Hsc : (0 <= sc)%Q.
Hypothesis Htz : 0 <= tz.

(** From index [k >= 1] and running total [t], when the increments still to
    be added bring the total to the target, the values emitted are integers
    that ascend from the rounded [t]. *)
Lemma walk_chain (rem : list Q) :
  forall k t,
    1 <= k ->
    skipn (Z.to_nat (k - 1)) qs = rem ->
    k + Z.of_nat (List.length rem) = length ->
    Forall (fun q => (1 <= q)%Q) rem ->
    (t + sc * sumQ rem == inject_Z tz)%Q ->
    exists zs,
      map value
          (fst (mapAccum
                  (timelineStep length (inject_Z tz) (map Fin qs) (Fin sc))
                  (Fin t)
                  (map Z.of_nat (seq (Z.to_nat k) (List.length rem)))))
      = map ofZ zs
      /\ chain (roundedTotal t) zs.
Proof.
  induction rem as [|q rem IH]; intros k t Hk Hskip Hlen Hrem Hinv.
  - exists []. split; [reflexivity|exact I].
  - cbn [List.length seq map]. rewrite mapAccum_cons.
    rewrite Z2Nat.id by lia.
    apply skipn_cons_nth in Hskip. destruct Hskip as [Hnth Hskip].
    pose proof (Forall_inv Hrem) as Hq. cbv beta in Hq.
    pose proof (Forall_inv_tail Hrem) as Hrem'.
    assert (Hqsc : (0 <= q * sc)%Q).
    { apply Qmult_le_0_compat; [lra|assumption]. }
    assert (Estep :
      timelineStep length (inject_Z tz) (map Fin qs) (Fin sc) (Fin t) k
      = (mkPoint (k + 1)
           (if k =? length - 1 then Fin (inject_Z tz)
            else ofZ (roundedTotal (t + q * sc)))
           (Z.rem (k + 1) 7 =? 0),
         Fin (t + q * sc))).
    { unfold timelineStep.
      replace (k =? 0) with false by (symmetry; apply Z.eqb_neq; lia).
      unfold getZ.
      replace (k - 1 <? 0) with false by (symmetry; apply Z.ltb_ge; lia).
      rewrite nth_error_map, Hnth.
      cbn [option_map toNumber mul add Math_round].
      rewrite Math_max_ofZ. reflexivity. }
    rewrite Estep. cbn [fst snd map value].
    destruct (IH (k + 1) (t + q * sc)%Q) as [zs [Ezs Hzs]].
    + lia.
    + replace (Z.to_nat (k + 1 - 1)) with (S (Z.to_nat (k - 1))) by lia.
      exact Hskip.
    + cbn [List.length] in Hlen. lia.
    + exact Hrem'.
    + rewrite <- Hinv. cbn [sumQ]. ring.
    + replace (S (Z.to_nat k)) with (Z.to_nat (k + 1)) by lia.
      rewrite Ezs.
      destruct (k =? length - 1) eqn:Elast.
      * apply Z.eqb_eq in Elast.
        destruct rem as [|q' rem']; [|cbn [List.length] in Hlen; lia].
        destruct zs as [|z zs]; [|discriminate].
        exists [tz]. split; [reflexivity|]. split; [|exact I].
        apply roundedTotal_below; [assumption|].
        rewrite <- Hinv. cbn [sumQ]. rewrite Qplus_0_r.
        rewrite (Qmult_comm sc q). lra.
      * exists (roundedTotal (t + q * sc) :: zs). split; [reflexivity|].
        split; [|exact Hzs]. apply roundedTotal_mono. lra.
Qed.

End Walk.


(** ** Shapes without a wave *)

Lemma increment_flat (sin sin' : Q -> Q) (config : Config) (segments : list Q)
    (segmentSize : num) (index : Z) :
  (dailyWave config == 0)%Q ->
  increment sin config segments segmentSize index
  = increment sin' config segments segmentSize index.
Proof.
  intro H. unfold increment. now rewrite !waveOf_zero.
Qed.

Lemma incrementsOf_flat (sin sin' : Q -> Q) (length : Z) (config : Config) :
  (dailyWave config == 0)%Q ->
  incrementsOf sin length config = incrementsOf sin' length config.
Proof.
  intro H. unfold incrementsOf, Array_from. apply map_ext.
  intro i. now apply increment_flat.
Qed.

(** When the wave amplitude is 0 the timeline is the same whatever
    [Math.sin] returns, so it can be evaluated. *)
Lemma timeline_flat (sin sin' : Q -> Q) (length : Z) (target : Q)
    (config : Config) :
  (dailyWave config == 0)%Q ->
  buildTargetCumulativeTimeline sin length target config
  = buildTargetCumulativeTimeline sin' length target config.
Proof.
  intro H. unfold buildTargetCumulativeTimeline.
  now rewrite (incrementsOf_flat sin sin' length config H).
Qed.

(** C8: with length 5, target 100 and the flat shape (base 10, no wave, no
    bonus, no drift, one multiplier 1) the days are 1 to 5 and the values
    0, 23, 48, 73 and 100. *)
Theorem flat_example (sin : Q -> Q) :
  map (fun p => (day p, value p))
      (buildTargetCumulativeTimeline sin 5 100 flatConfig)
  = [(1, ofZ 0); (2, ofZ 23); (3, ofZ 48); (4, ofZ 73); (5, ofZ 100)].
Proof.
  rewrite (timeline_flat sin noSin) by reflexivity.
  vm_compute. reflexivity.
Qed.



Lemma empty_multipliers_increments (sin : Q -> Q) :
  incrementsOf sin 3 emptyConfig = [NaN; NaN].
Proof.
  rewrite (incrementsOf_flat sin noSin) by reflexivity.
  vm_compute. reflexivity.
Qed.

(** ** The same runs in binary64 *)

Module Binary64Facts.

Import F64 Binary64.

(** A finite sine leaves nothing of a wave of amplitude [+0]. *)
Lemma wave_vanishes (s : num) :
  isFinite s = true -> Math_round (mul (Math_abs s) (ofZ 0)) = ofZ 0.
Proof.
  destruct s as [b|b| |b m e]; intro H; try discriminate H; reflexivity.
Qed.

Section Flat.

Variables sin sin' : num -> num.
Hypothesis sin_finite : forall x, isFinite (sin x) = true.
Hypothesis sin'_finite : forall x, isFinite (sin' x) = true.

Variable config : Config.
Hypothesis no_wave : dailyWave config = ofZ 0.

Lemma waveOf_without_wave (index : Z) :
  waveOf sin config index = waveOf sin' config index.
Proof.
  unfold waveOf. rewrite no_wave.
  generalize (div (ofZ index) (dec 45 1)).
  intros [b|b| |b m e]; try reflexivity.
  cbn [Math_sin]. now rewrite !wave_vanishes.
Qed.

Lemma increment_without_wave (segments : list num) (segmentSize : num) (index : Z) :
  increment sin config segments segmentSize index
  = increment sin' config segments segmentSize index.
Proof. unfold increment. now rewrite waveOf_without_wave. Qed.

Lemma increments_without_wave (length : Z) :
  incrementsOf sin length config = incrementsOf sin' length config.
Proof.
  unfold incrementsOf, Array_from. apply map_ext.
  intro i. apply increment_without_wave.
Qed.

(** Without a wave the timeline is the same for every [Math.sin] that
    returns finite values, so it can be evaluated. *)
Lemma timeline_without_wave (length : Z) (target : num) :
  buildTargetCumulativeTimeline sin length target config
  = buildTargetCumulativeTimeline sin' length target config.
Proof.
  unfold buildTargetCumulativeTimeline. now rewrite increments_without_wave.
Qed.

End Flat.

Lemma noSin64_finite (x : num) : isFinite (noSin64 x) = true.
Proof. reflexivity. Qed.


(** The drifting shape over four days: on the third day the drift is
    [-Infinity], its product with the multiplier 0 is [NaN], and
    [Math.max(1, NaN)] is [NaN]. *)
Lemma drifting_increments (sin : num -> num) :
  (forall x, isFinite (sin x) = true) ->
  incrementsOf sin 4 driftingConfig = [ofZ 1; ofZ 1; NaN].
Proof.
  intro H.
  rewrite (increments_without_wave sin noSin64 H noSin64_finite driftingConfig
             eq_refl).
  vm_compute. reflexivity.
Qed.

Lemma drifting_values (sin : num -> num) :
  (forall x, isFinite (sin x) = true) ->
  valuesOf (buildTargetCumulativeTimeline sin 4 (ofZ 100) driftingConfig)
  = [ofZ 0; ofZ 0; ofZ 0; ofZ 100].
Proof.
  intro H.
  rewrite (timeline_without_wave sin noSin64 H noSin64_finite driftingConfig eq_refl).
  vm_compute. reflexivity.
Qed.

(** For the least positive maximum the rough step underflows to 0: the
    magnitude is [Math.pow(10, -Infinity)], which is 0, the step is 0 and
    the ceiling is [Infinity * 0]. *)
Lemma least_maximum (log10 pow10 : num -> num) :
  yScaleMaxOf log10 pow10 None minValue 5 = NaN.
Proof. reflexivity. Qed.

(** For the maximum after 0.03 and a step of 0.01 the quotient rounds to 3,
    so the ceiling is 0.03. *)
Lemma short_ceiling (log10 pow10 : num -> num) :
  Math_floor (log10 (div justAbove3Hundredths (ofZ 4))) = ofZ (-3) ->
  pow10 (ofZ (-3)) = dec 1 3 ->
  yScaleMaxOf log10 pow10 None justAbove3Hundredths 5 = dec 3 2.
Proof.
  intros H1 H2. unfold yScaleMaxOf, niceMaxOf, getNiceStep. cbv zeta.
  assert (E1 : Math_log10 log10 (div justAbove3Hundredths (ofZ (5 - 1)))
               = log10 (div justAbove3Hundredths (ofZ 4))) by reflexivity.
  rewrite E1, H1.
  assert (E2 : Math_pow10 pow10 (ofZ (-3)) = pow10 (ofZ (-3)))
    by reflexivity.
  rewrite E2, H2.
  vm_compute. reflexivity.
Qed.

(** *** What holds of every run in binary64 *)

(** The comparison of two numbers, read from the other side. *)
Lemma SFcompare_swap (x y : num) (c : comparison) :
  SFcompare x y = Some c -> SFcompare y x = Some (CompOpp c).
Proof.
  destruct x as [sx|sx| |sx mx ex], y as [sy|sy| |sy my ey];
    cbn [SFcompare]; intro H; try discriminate H; injection H as <-;
    try (destruct sx; reflexivity); try (destruct sy; reflexivity);
    try (destruct sx, sy; reflexivity).
  destruct sx, sy; try reflexivity;
    rewrite (Z.compare_antisym ex ey);
    destruct (ex ?= ey); cbn [CompOpp]; try reflexivity;
    f_equal; rewrite Pos.compare_cont_antisym; cbn [CompOpp];
    rewrite ?CompOpp_involutive; reflexivity.
Qed.

(** [Math.max(1, x)] is [NaN] or at least 1. *)
Lemma max_with_one (x : num) :
  isNaN (Math_max (ofZ 1) x) = true \/ le (ofZ 1) (Math_max (ofZ 1) x) = true.
Proof.
  unfold Math_max. destruct (SFcompare (ofZ 1) x) as [[| |]|] eqn:E.
  - right. reflexivity.
  - right. unfold le, SFleb. now rewrite E.
  - right. reflexivity.
  - left. reflexivity.
Qed.

(** Every raw increment is [NaN] or at least 1, whatever the shape holds. *)
Lemma increment_NaN_or_at_least_one (sin : num -> num) (config : Config)
    (segments : list num) (segmentSize : num) (index : Z) :
  let v := increment sin config segments segmentSize index in
  isNaN v = true \/ le (ofZ 1) v = true.
Proof. unfold increment. cbv zeta. apply max_with_one. Qed.

Lemma add_NaN_right (x : num) : add x NaN = NaN.
Proof. now destruct x as [s|s| |s m e]. Qed.

Lemma sum_from_NaN (increments : list num) :
  fold_left add increments NaN = NaN.
Proof. induction increments as [|v l IH]; [reflexivity|exact IH]. Qed.

(** One increment that is [NaN] makes the sum [NaN], so that the scale is
    set to 0. *)
Lemma NaN_increment_sets_scale_to_zero (increments : list num)
    (target : num) :
  In NaN increments ->
  sumOf increments = NaN /\ scaleOf target (sumOf increments) = ofZ 0.
Proof.
  intro H.
  assert (E : forall acc, fold_left add increments acc = NaN).
  { induction increments as [|v l IH]; [destruct H|].
    intro acc. cbn [fold_left]. destruct H as [->|H].
    - rewrite add_NaN_right. apply sum_from_NaN.
    - now apply IH. }
  unfold sumOf. rewrite E. split; reflexivity.
Qed.

(** *** Sums of positive numbers *)

Lemma digits2_pos_lower (p : positive) :
  2 ^ (Z.pos (digits2_pos p) - 1) <= Z.pos p.
Proof.
  induction p as [p IH|p IH|]; cbn [digits2_pos].
  - rewrite Pos2Z.inj_succ. replace (Z.succ (Z.pos (digits2_pos p)) - 1)
      with (Z.succ (Z.pos (digits2_pos p) - 1)) by lia.
    rewrite Z.pow_succ_r by lia. lia.
  - rewrite Pos2Z.inj_succ. replace (Z.succ (Z.pos (digits2_pos p)) - 1)
      with (Z.succ (Z.pos (digits2_pos p) - 1)) by lia.
    rewrite Z.pow_succ_r by lia. lia.
  - reflexivity.
Qed.

Lemma shr_1_mantissa (mrs : shr_record) :
  0 <= shr_m mrs -> shr_m (shr_1 mrs) = Z.shiftr (shr_m mrs) 1.
Proof.
  destruct mrs as [m r s]. cbn [shr_m]. intro H.
  rewrite <- Z.div2_spec.
  destruct m as [|[p|p|]|p]; try reflexivity. lia.
Qed.

Lemma iter_shr_1_mantissa (n : positive) :
  forall mrs, 0 <= shr_m mrs ->
    shr_m (iter_pos shr_1 n mrs) = Z.shiftr (shr_m mrs) (Z.pos n).
Proof.
  induction n as [n IH|n IH|]; intros mrs H; cbn [iter_pos].
  - assert (H1 : 0 <= shr_m (shr_1 mrs))
      by (rewrite shr_1_mantissa by exact H; now apply Z.shiftr_nonneg).
    assert (H2 : 0 <= shr_m (iter_pos shr_1 n (shr_1 mrs)))
      by (rewrite IH by exact H1; now apply Z.shiftr_nonneg).
    rewrite IH by exact H2. rewrite IH by exact H1.
    rewrite shr_1_mantissa by exact H.
    rewrite !Z.shiftr_shiftr by lia. f_equal. lia.
  - assert (H2 : 0 <= shr_m (iter_pos shr_1 n mrs))
      by (rewrite IH by exact H; now apply Z.shiftr_nonneg).
    rewrite IH by exact H2. rewrite IH by exact H.
    rewrite Z.shiftr_shiftr by lia. f_equal. lia.
  - now apply shr_1_mantissa.
Qed.

Lemma shr_record_of_loc_mantissa (m : Z) (l : location) :
  shr_m (shr_record_of_loc m l) = m.
Proof. destruct l as [|[| |]]; reflexivity. Qed.

(** Shifting a positive mantissa to the exponent of its format leaves a
    positive mantissa, when the exponent is not below the least one. *)
Lemma shr_fexp_positive (m e : Z) (l : location) :
  0 < m -> emin prec emax <= e ->
  0 < shr_m (fst (shr_fexp prec emax m e l))
  /\ emin prec emax <= snd (shr_fexp prec emax m e l).
Proof.
  intros Hm He. unfold shr_fexp, shr.
  destruct m as [|p|p]; try lia. cbn [Zdigits2].
  pose proof (digits2_pos_lower p) as D.
  set (d := Z.pos (digits2_pos p)) in *.
  destruct (fexp prec emax (d + e) - e) as [|n|n] eqn:En;
    cbn [fst snd]; rewrite ?shr_record_of_loc_mantissa; try (split; lia).
  assert (Hn : Z.pos n = d - prec).
  { revert En. unfold fexp. lia. }
  rewrite iter_shr_1_mantissa
    by (rewrite shr_record_of_loc_mantissa; lia).
  rewrite shr_record_of_loc_mantissa. split; [|lia].
  rewrite Z.shiftr_div_pow2 by lia.
  apply Z.div_str_pos. split; [apply Z.pow_pos_nonneg; lia|].
  eapply Z.le_trans; [|exact D].
  apply Z.pow_le_mono_r; [lia|]. unfold prec in Hn. lia.
Qed.

Lemma round_nearest_even_positive (m : Z) (l : location) :
  0 < m -> 0 < round_nearest_even m l.
Proof.
  intro H. destruct l as [|[| |]]; cbn [round_nearest_even]; try lia.
  destruct (Z.even m); lia.
Qed.

Lemma binary_round_aux_positive (p : positive) (e : Z) (l : location) :
  emin prec emax <= e ->
  positive_number (binary_round_aux prec emax false (Z.pos p) e l).
Proof.
  intro He. unfold binary_round_aux.
  destruct (shr_fexp_positive (Z.pos p) e l ltac:(lia) He) as [H1 H2].
  destruct (shr_fexp prec emax (Z.pos p) e l) as [mrs' e'].
  cbn [fst snd] in H1, H2.
  pose proof (round_nearest_even_positive (shr_m mrs')
                (loc_of_shr_record mrs') H1) as H3.
  destruct (shr_fexp_positive _ e' loc_Exact H3 H2) as [H4 H5].
  destruct (shr_fexp prec emax _ e' loc_Exact) as [mrs'' e''].
  cbn [fst snd] in H4, H5.
  destruct (shr_m mrs'') as [|m|m]; try lia.
  destruct (e'' <=? emax - prec).
  - right. exists m, e''. split; [reflexivity|exact H5].
  - left. reflexivity.
Qed.

Lemma binary_round_positive (p : positive) (e : Z) :
  emin prec emax <= e ->
  positive_number (binary_round prec emax false p e).
Proof.
  intro He. unfold binary_round, shl_align.
  set (e' := fexp prec emax (Z.pos (digits2_pos p) + e)).
  assert (He' : emin prec emax <= e') by (unfold e', fexp; lia).
  destruct (e' - e); now apply binary_round_aux_positive.
Qed.

(** The sum of two positive numbers is positive. *)
Lemma add_positive (x y : num) :
  positive_number x -> positive_number y -> positive_number (add x y).
Proof.
  intros [->|[mx [ex [-> Hx]]]] [->|[my [ey [-> Hy]]]];
    try (left; reflexivity).
  unfold add, SFadd. cbv zeta. cbn [cond_Zopp].
  rewrite <- Pos2Z.inj_add. cbn [binary_normalize].
  apply binary_round_positive. lia.
Qed.

Lemma at_least_one_positive (v : num) :
  le (ofZ 1) v = true -> positive_number v.
Proof.
  change (ofZ 1) with (S754_finite false 4503599627370496 (-52)).
  unfold le, SFleb.
  destruct v as [s|s| |s m e]; cbn [SFcompare].
  - destruct s; discriminate.
  - destruct s; [discriminate|]. intros _. left. reflexivity.
  - discriminate.
  - destruct s; [discriminate|].
    destruct (-52 ?= e) eqn:C; try discriminate; intros _; right;
      exists m, e; (split; [reflexivity|]); unfold emin, prec, emax.
    + apply Z.compare_eq_iff in C. lia.
    + change (-52 < e) in C. lia.
Qed.

Lemma positive_number_above_zero (x : num) :
  positive_number x -> gt x (ofZ 0) = true.
Proof. intros [->|[m [e [-> _]]]]; reflexivity. Qed.

(** The sum of increments that are all at least 1, and of which there is
    one at least, is above 0. *)
Lemma sum_above_zero (increments : list num) :
  increments <> [] ->
  Forall (fun v => le (ofZ 1) v = true) increments ->
  gt (sumOf increments) (ofZ 0) = true.
Proof.
  intros Hne H. apply positive_number_above_zero.
  destruct increments as [|v l]; [congruence|].
  unfold sumOf. cbn [fold_left].
  assert (P : positive_number (add (ofZ 0) v)).
  { pose proof (at_least_one_positive v (Forall_inv H)) as Pv.
    destruct Pv as [->|[m [e [-> He]]]]; [left; reflexivity|].
    right. exists m, e. split; [reflexivity|exact He]. }
  apply Forall_inv_tail in H. clear Hne. revert P.
  generalize (add (ofZ 0) v).
  induction l as [|w l IH]; intros acc P; [exact P|].
  cbn [fold_left]. apply IH.
  - now apply Forall_inv_tail in H.
  - apply add_positive; [exact P|].
    apply at_least_one_positive. now apply Forall_inv in H.
Qed.

(** A supplied ceiling above a maximum of at least 0 is the ceiling of the
    scale. *)
Lemma supplied_ceiling_wins (log10 pow10 : num -> num) (a m : num)
    (ticks : Z) :
  le (ofZ 0) m = true ->
  lt m a = true ->
  yScaleMaxOf log10 pow10 (Some a) m ticks = a /\ Math_max a m = a.
Proof.
  intros H0 H. unfold lt, SFltb in H.
  destruct (SFcompare m a) as [[| |]|] eqn:E; try discriminate H.
  apply SFcompare_swap in E. cbn [CompOpp] in E.
  assert (M : Math_max a m = a) by (unfold Math_max; now rewrite E).
  split; [|exact M].
  unfold yScaleMaxOf. cbv zeta. rewrite M.
  destruct a as [sa|sa| |sa ma ea]; try reflexivity.
  - destruct m as [sm|sm| |sm mm em]; try discriminate E;
      destruct sm; discriminate E || discriminate H0.
  - discriminate E.
Qed.

Lemma SFcompare_refl (x : num) : isNaN x = false -> SFcompare x x = Some Eq.
Proof.
  destruct x as [s|s| |s m e]; cbn [SFcompare isNaN]; intro H;
    try discriminate H; try (destruct s; reflexivity).
  rewrite Z.compare_refl. destruct s; now rewrite Pos.compare_cont_refl.
Qed.

(** [Math.max(a, m)] is at least [m] when neither is [NaN]. *)
Lemma Math_max_covers (a m : num) :
  isNaN a = false -> isNaN m = false -> ge (Math_max a m) m = true.
Proof.
  intros Ha Hm. unfold ge, le, SFleb, Math_max.
  destruct (SFcompare a m) as [[| |]|] eqn:E.
  - apply SFcompare_swap in E. cbn [CompOpp] in E.
    destruct a as [[|]|sa| |sa ma ea]; rewrite ?E;
      rewrite ?(SFcompare_refl m Hm); reflexivity.
  - now rewrite (SFcompare_refl m Hm).
  - apply SFcompare_swap in E. now rewrite E.
  - destruct a as [sa|sa| |sa ma ea], m as [sm|sm| |sm mm em];
      discriminate.
Qed.

(** With a supplied ceiling that is not 0 the ceiling of the scale is the
    larger of it and the maximum: it is at least the maximum, and it is the
    supplied ceiling when this one is above the maximum. *)
Lemma supplied_ceiling_covers (log10 pow10 : num -> num) (a m : num)
    (ticks : Z) :
  truthy a = true ->
  isNaN m = false ->
  yScaleMaxOf log10 pow10 (Some a) m ticks = Math_max a m
  /\ ge (yScaleMaxOf log10 pow10 (Some a) m ticks) m = true
  /\ (lt m a = true -> yScaleMaxOf log10 pow10 (Some a) m ticks = a).
Proof.
  intros Ta Hm.
  assert (E : yScaleMaxOf log10 pow10 (Some a) m ticks = Math_max a m).
  { unfold yScaleMaxOf. cbv zeta. now rewrite Ta. }
  rewrite E. split; [reflexivity|]. split.
  - apply Math_max_covers; [|exact Hm]. now destruct a.
  - intro H. unfold lt, SFltb in H.
    destruct (SFcompare m a) as [[| |]|] eqn:C; try discriminate H.
    apply SFcompare_swap in C. cbn [CompOpp] in C.
    unfold Math_max. now rewrite C.
Qed.

Lemma Array_from_nonempty {B : Type} (n : Z) (f : Z -> B) :
  0 < n -> Array_from n f <> [].
Proof.
  intro H. unfold Array_from, indices.
  destruct (Z.to_nat n) as [|k] eqn:E; [lia|]. discriminate.
Qed.

(** The branch taken for the scale, for every shape and every [Math.sin]:
    each raw increment is [NaN] or at least 1; when one is [NaN] the scale
    is set to 0, and otherwise the sum is above 0 and the scale is the
    quotient of the target by the sum. *)
Lemma scale_branch (sin : num -> num) (length : Z) (config : Config) :
  2 <= length ->
  let increments := incrementsOf sin length config in
  Forall (fun v => v = NaN \/ ge v (ofZ 1) = true) increments
  /\ (In NaN increments ->
      forall target, scaleOf target (sumOf increments) = ofZ 0)
  /\ (~ In NaN increments ->
      gt (sumOf increments) (ofZ 0) = true
      /\ forall target,
           scaleOf target (sumOf increments)
           = div target (sumOf increments)).
Proof.
  intros Hl increments.
  assert (F : Forall (fun v => v = NaN \/ ge v (ofZ 1) = true) increments).
  { unfold increments, incrementsOf, Array_from. apply Forall_map.
    apply Forall_forall. intros i _.
    destruct (increment_NaN_or_at_least_one sin config
                (resolveMultipliers config)
                (segmentSizeOf length (resolveMultipliers config)) i)
      as [H|H]; [left|right; exact H].
    revert H. cbv zeta.
    now destruct (increment _ _ _ _ _). }
  split; [exact F|]. split.
  - intros H target.
    now destruct (NaN_increment_sets_scale_to_zero increments target H).
  - intro H.
    assert (G : gt (sumOf increments) (ofZ 0) = true).
    { apply sum_above_zero.
      - apply Array_from_nonempty. lia.
      - rewrite Forall_forall in F |- *. intros v Hv.
        destruct (F v Hv) as [->|E]; [contradiction|exact E]. }
    split; [exact G|]. intro target. unfold scaleOf. now rewrite G.
Qed.

End Binary64Facts.

(** C10, as amended.  In binary64, for a length of at least 2 and every
    shape, each raw increment is [NaN] or at least 1; when one of them is
    [NaN] the scale is set to 0, and when none is, their sum is above 0 and
    the scale is the quotient [target / sum].  In exact arithmetic, where no
    product overflows, a shape whose list of multipliers is not empty has no
    such increment: every raw increment is at least 1, their sum is at least
    [length - 1] and the branch that sets the scale to 0 is not taken. *)
Theorem increments_at_least_one (sin : Q -> Q) (length : Z) (config : Config)
    (sin64 : F64.num -> F64.num) (config64 : Binary64.Config) :
  2 <= length ->
  segmentMultipliers config <> Some [] ->
  (let increments := Binary64.incrementsOf sin64 length config64 in
   Forall (fun v => v = F64.NaN \/ F64.ge v (F64.ofZ 1) = true) increments
   /\ (In F64.NaN increments ->
       forall target,
         Binary64.scaleOf target (Binary64.sumOf increments) = F64.ofZ 0)
   /\ (~ In F64.NaN increments ->
       F64.gt (Binary64.sumOf increments) (F64.ofZ 0) = true
       /\ forall target,
            Binary64.scaleOf target (Binary64.sumOf increments)
            = F64.div target (Binary64.sumOf increments)))
  /\ (let increments := incrementsOf sin length config in
      Forall (fun v => ge v (ofZ 1) = true) increments
      /\ ge (sumOf increments) (ofZ (length - 1)) = true
      /\ gt (sumOf increments) (ofZ 0) = true
      /\ forall target,
           scaleOf target (sumOf increments)
           = div (Fin target) (sumOf increments)).
Proof.
  intros Hl Hs. split.
  - exact (Binary64Facts.scale_branch sin64 length config64 Hl).
  - exact (exact_increments_at_least_one sin length config Hl Hs).
Qed.


(** C4 as stated fails: for the length 1 the only point has day 1 and a set
    week flag. *)
Lemma week_flag_fails_on_single_point :
  exists p,
    (forall sin, In p (buildTargetCumulativeTimeline sin 1 100 flatConfig))
    /\ isWeek p = true
    /\ ~ (7 | day p).
Proof.
  exists (mkPoint 1 (ofZ 0) true). split; [|split].
  - intro sin. left. reflexivity.
  - reflexivity.
  - intros [z Hz]. simpl in Hz. lia.
Qed.

(** C10 as stated fails: with no multiplier and length 3 both increments are
    [NaN], their sum is not above 0 and the scale is set to 0.  In binary64
    the same happens with a list of multipliers that is not empty: with the
    one multiplier 0 and a drift of [-1e308] a day the third increment is
    [NaN], the scale is set to 0, and the series of four days is 0, 0, 0
    and the target. *)
Lemma increments_fail_without_multiplier :
  (forall sin,
     ~ Forall (fun v => ge v (ofZ 1) = true) (incrementsOf sin 3 emptyConfig))
  /\ (forall sin, gt (sumOf (incrementsOf sin 3 emptyConfig)) (ofZ 0) = false)
  /\ (forall sin,
        scaleOf 1 (sumOf (incrementsOf sin 3 emptyConfig)) = ofZ 0)
  /\ (forall sin,
        (forall x, F64.isFinite (sin x) = true) ->
        let increments := Binary64.incrementsOf sin 4 driftingConfig in
        ~ Forall (fun v => F64.ge v (F64.ofZ 1) = true) increments
        /\ F64.gt (Binary64.sumOf increments) (F64.ofZ 0) = false
        /\ Binary64.scaleOf (F64.ofZ 100) (Binary64.sumOf increments)
           = F64.ofZ 0
        /\ Binary64.valuesOf
             (Binary64.buildTargetCumulativeTimeline sin 4 (F64.ofZ 100)
                                                     driftingConfig)
           = [F64.ofZ 0; F64.ofZ 0; F64.ofZ 0; F64.ofZ 100]).
Proof.
  split; [|split; [|split]].
  - intros sin H. rewrite empty_multipliers_increments in H.
    apply Forall_inv in H. discriminate H.
  - intro sin. now rewrite empty_multipliers_increments.
  - intro sin. now rewrite empty_multipliers_increments.
  - intros sin Hsin increments. subst increments.
    rewrite (Binary64Facts.drifting_increments sin Hsin).
    rewrite (Binary64Facts.drifting_values sin Hsin).
    split; [|split; [|split]]; try reflexivity.
    intro H. apply Forall_inv_tail, Forall_inv_tail, Forall_inv in H.
    discriminate H.
Qed.

(** C5 as stated fails in binary64.  For the least positive maximum,
    [5e-324], the rough step underflows to 0 and the ceiling is [NaN], which
    is not at or above anything.  For the maximum after 0.03, where
    [Math.log10] of the rough step lies between -3 and -2 and
    [Math.pow(10, -3)] is 0.001, the step is 0.01, the quotient of the
    maximum by the step rounds down to 3 and the ceiling, 0.03, is below the
    maximum. *)
Lemma scale_falls_short_of_maximum :
  F64.ge F64.minValue (F64.ofZ 0) = true
  /\ F64.ge justAbove3Hundredths (F64.ofZ 0) = true
  /\ (forall log10 pow10,
        F64.ge (Binary64.yScaleMaxOf log10 pow10 None F64.minValue 5)
               F64.minValue = false)
  /\ (forall log10 pow10,
        F64.Math_floor (log10 (F64.div justAbove3Hundredths (F64.ofZ 4)))
        = F64.ofZ (-3) ->
        pow10 (F64.ofZ (-3)) = F64.dec 1 3 ->
        F64.ge (Binary64.yScaleMaxOf log10 pow10 None justAbove3Hundredths 5)
               justAbove3Hundredths = false).
Proof.
  split; [reflexivity|]. split; [reflexivity|]. split.
  - intros log10 pow10. now rewrite Binary64Facts.least_maximum.
  - intros log10 pow10 H1 H2.
    now rewrite (Binary64Facts.short_ceiling log10 pow10 H1 H2).
Qed.

(** Instances. *)

Lemma last_value_is_target_witness :
  2 <= 5 /\ (0 <= 100)%Q
  /\ (let timeline := buildTargetCumulativeTimeline noSin 5 100 flatConfig in
      JS.length timeline = 5 /\
      exists p, nth_error timeline (Z.to_nat (5 - 1)) = Some p
                /\ value p = Fin 100).
Proof.
  assert (H1 : 2 <= 5) by lia.
  assert (H2 : (0 <= 100)%Q) by discriminate.
  exact (conj H1 (conj H2 (last_value_is_target noSin 5 100 flatConfig H1 H2))).
Defined.

Lemma week_flag_iff_divisible_witness :
  2 <= 8
  /\ forall p, In p (buildTargetCumulativeTimeline noSin 8 100 flatConfig) ->
       (isWeek p = true <-> (7 | day p)).
Proof.
  assert (H1 : 2 <= 8) by lia.
  exact (conj H1 (week_flag_iff_divisible noSin 8 100 flatConfig H1)).
Defined.

Lemma degenerate_single_point_witness :
  1 <= 1
  /\ buildTargetCumulativeTimeline noSin 1 100 emptyConfig
     = [mkPoint 1 (ofZ 0) true].
Proof.
  assert (H1 : 1 <= 1) by lia.
  exact (conj H1 (degenerate_single_point noSin 1 100 emptyConfig H1)).
Defined.

Lemma increments_at_least_one_witness :
  2 <= 5 /\ segmentMultipliers flatConfig <> Some []
  /\ (let increments := Binary64.incrementsOf noSin64 5 driftingConfig in
      Forall (fun v => v = F64.NaN \/ F64.ge v (F64.ofZ 1) = true) increments
      /\ (In F64.NaN increments ->
          forall target,
            Binary64.scaleOf target (Binary64.sumOf increments) = F64.ofZ 0)
      /\ (~ In F64.NaN increments ->
          F64.gt (Binary64.sumOf increments) (F64.ofZ 0) = true
          /\ forall target,
               Binary64.scaleOf target (Binary64.sumOf increments)
               = F64.div target (Binary64.sumOf increments)))
  /\ (let increments := incrementsOf noSin 5 flatConfig in
      Forall (fun v => ge v (ofZ 1) = true) increments
      /\ ge (sumOf increments) (ofZ (5 - 1)) = true
      /\ gt (sumOf increments) (ofZ 0) = true
      /\ forall target,
           scaleOf target (sumOf increments)
           = div (Fin target) (sumOf increments)).
Proof.
  assert (H1 : 2 <= 5) by lia.
  assert (H2 : segmentMultipliers flatConfig <> Some []) by discriminate.
  exact (conj H1 (conj H2
    (increments_at_least_one noSin 5 flatConfig noSin64 driftingConfig
       H1 H2))).
Defined.


(** ** The vertical axis *)

Section AxisFacts.

Variable log10 : Q -> Q.

(** For a non-negative maximum and at least two ticks the step is a positive
    finite number. *)
Lemma getNiceStep_positive (maxValue : Q) (ticks : Z) :
  (0 <= maxValue)%Q -> 2 <= ticks ->
  exists st, getNiceStep log10 (Fin maxValue) ticks = Fin st /\ (0 < st)%Q.
Proof.
  intros Hm Ht. unfold getNiceStep.
  unfold le at 1. unfold ofZ at 1.
  destruct (Qle_bool maxValue (inject_Z 0)) eqn:E0.
  { exists 1%Q. split; [reflexivity|reflexivity]. }
  assert (Pm : (0 < maxValue)%Q).
  { apply Qnot_le_lt. intro H. apply Qle_bool_iff in H.
    change (inject_Z 0) with 0%Q in E0. congruence. }
  assert (Pt : (0 < inject_Z (ticks - 1))%Q).
  { change 0%Q with (inject_Z 0). rewrite <- Zlt_Qlt. lia. }
  set (roughStep := (maxValue / inject_Z (ticks - 1))%Q).
  assert (Pr : (0 < roughStep)%Q).
  { unfold roughStep. apply Qlt_shift_div_l; [exact Pt|]. lra. }
  assert (Er : div (Fin maxValue) (ofZ (ticks - 1)) = Fin roughStep).
  { unfold ofZ. apply div_Fin. lra. }
  rewrite !Er.
  set (magnitude := (10 ^ Qfloor (log10 roughStep))%Q).
  assert (Pg : (0 < magnitude)%Q) by (apply Qpower_0_lt; reflexivity).
  assert (Eg : pow10_floor (Math_log10 log10 (Fin roughStep)) = Fin magnitude).
  { unfold Math_log10. now rewrite (proj1 (Qgt_alt _ _) Pr). }
  rewrite !Eg.
  assert (P : forall c : Z, 0 < c ->
            exists st, mul (ofZ c) (Fin magnitude) = Fin st /\ (0 < st)%Q).
  { intros c Hc. eexists. split; [reflexivity|].
    apply Qmult_lt_0_compat; [|exact Pg].
    change 0%Q with (inject_Z 0). now rewrite <- Zlt_Qlt. }
  repeat match goal with |- context [if ?b then _ else _] => destruct b end;
    apply P; lia.
Qed.

Lemma niceMaxOf_covers (maxValue : Q) (ticks : Z) :
  (0 <= maxValue)%Q -> 2 <= ticks ->
  ge (niceMaxOf log10 (Fin maxValue) ticks) (Fin maxValue) = true.
Proof.
  intros Hm Ht. unfold niceMaxOf.
  destruct (getNiceStep_positive maxValue ticks Hm Ht) as [st [-> Pst]].
  rewrite div_Fin by lra. cbn [Math_ceil ofZ mul ge le].
  apply Qle_bool_true.
  pose proof (Qle_ceiling (maxValue / st)) as C.
  apply (Qmult_le_compat_r _ _ st) in C; [|lra].
  assert (E : (maxValue / st * st == maxValue)%Q) by (field; lra).
  rewrite E in C. exact C.
Qed.

(** In exact arithmetic, for a maximum of at least 0 and at least two ticks
    the ceiling of the scale is at least the maximum; and a supplied ceiling
    that is above the maximum is the ceiling of the scale, which is then the
    larger of the two. *)
Lemma exact_scale_covers_maximum (maxValue : Q) (ticks : Z)
    (axisMax : option Q) :
  (0 <= maxValue)%Q ->
  2 <= ticks ->
  ge (yScaleMaxOf log10 axisMax (Fin maxValue) ticks) (Fin maxValue) = true
  /\ forall a, axisMax = Some a -> (maxValue < a)%Q ->
       yScaleMaxOf log10 axisMax (Fin maxValue) ticks = Fin a
       /\ Fin a = Math_max (Fin a) (Fin maxValue).
Proof.
  intros Hm Ht. split.
  - unfold yScaleMaxOf. destruct axisMax as [a|].
    + destruct (truthy (Fin a)).
      * unfold Math_max, ge, le.
        destruct (Qle_bool a maxValue) eqn:E.
        -- apply Qle_bool_true, Qle_refl.
        -- apply Qle_bool_true. apply Qlt_le_weak, Qnot_le_lt.
           intro H. apply Qle_bool_iff in H. congruence.
      * now apply niceMaxOf_covers.
    + now apply niceMaxOf_covers.
  - intros a -> Ha. unfold yScaleMaxOf.
    assert (T : truthy (Fin a) = true).
    { unfold truthy. rewrite Qeq_bool_false; [reflexivity|lra]. }
    rewrite T. unfold Math_max, le.
    rewrite Qle_bool_false by exact Ha. split; reflexivity.
Qed.

End AxisFacts.

(** C5, as amended.  In binary64, with a supplied ceiling that is not 0,
    the ceiling of the scale is the larger of the supplied ceiling and the
    maximum: it is at least the maximum, and it is the supplied ceiling when
    this one is above the maximum.  With no supplied ceiling the ceiling of
    the scale is the nice ceiling, and in exact arithmetic, where no
    quotient is rounded and nothing underflows, it is at least the maximum
    for every maximum of at least 0 and at least two ticks. *)
Theorem scale_covers_maximum (log10 : Q -> Q) (maxValue : Q) (ticks : Z)
    (axisMax : option Q) (log10' pow10 : F64.num -> F64.num)
    (ceiling maximum : F64.num) :
  (0 <= maxValue)%Q ->
  2 <= ticks ->
  F64.truthy ceiling = true ->
  F64.isNaN maximum = false ->
  (Binary64.yScaleMaxOf log10' pow10 (Some ceiling) maximum ticks
   = F64.Math_max ceiling maximum
   /\ F64.ge (Binary64.yScaleMaxOf log10' pow10 (Some ceiling) maximum ticks)
             maximum = true
   /\ (F64.lt maximum ceiling = true ->
       Binary64.yScaleMaxOf log10' pow10 (Some ceiling) maximum ticks
       = ceiling))
  /\ (ge (yScaleMaxOf log10 axisMax (Fin maxValue) ticks) (Fin maxValue) = true
      /\ forall a, axisMax = Some a -> (maxValue < a)%Q ->
           yScaleMaxOf log10 axisMax (Fin maxValue) ticks = Fin a
           /\ Fin a = Math_max (Fin a) (Fin maxValue)).
Proof.
  intros Hm Ht Hc Hn. split.
  - exact (Binary64Facts.supplied_ceiling_covers log10' pow10 ceiling maximum
             ticks Hc Hn).
  - exact (exact_scale_covers_maximum log10 maxValue ticks axisMax Hm Ht).
Qed.

Lemma scale_covers_maximum_witness :
  (0 <= 23450)%Q /\ 2 <= 5
  /\ F64.truthy (F64.ofZ 25000) = true
  /\ F64.isNaN (F64.ofZ 23450) = false
  /\ (Binary64.yScaleMaxOf noSin64 noSin64 (Some (F64.ofZ 25000))
        (F64.ofZ 23450) 5
      = F64.Math_max (F64.ofZ 25000) (F64.ofZ 23450)
      /\ F64.ge (Binary64.yScaleMaxOf noSin64 noSin64 (Some (F64.ofZ 25000))
                  (F64.ofZ 23450) 5)
                (F64.ofZ 23450) = true
      /\ (F64.lt (F64.ofZ 23450) (F64.ofZ 25000) = true ->
          Binary64.yScaleMaxOf noSin64 noSin64 (Some (F64.ofZ 25000))
            (F64.ofZ 23450) 5
          = F64.ofZ 25000))
  /\ (ge (yScaleMaxOf (fun _ => 3768 # 1000) (Some 25000%Q) (Fin 23450) 5)
         (Fin 23450) = true
      /\ forall a, Some 25000%Q = Some a -> (23450 < a)%Q ->
           yScaleMaxOf (fun _ => 3768 # 1000) (Some 25000%Q) (Fin 23450) 5
           = Fin a
           /\ Fin a = Math_max (Fin a) (Fin 23450)).
Proof.
  assert (H1 : (0 <= 23450)%Q) by discriminate.
  assert (H2 : 2 <= 5) by lia.
  assert (H3 : F64.truthy (F64.ofZ 25000) = true) by reflexivity.
  assert (H4 : F64.isNaN (F64.ofZ 23450) = false) by reflexivity.
  exact (conj H1 (conj H2 (conj H3 (conj H4
    (scale_covers_maximum (fun _ => 3768 # 1000) 23450 5 (Some 25000%Q)
       noSin64 noSin64 (F64.ofZ 25000) (F64.ofZ 23450) H1 H2 H3 H4))))).
Defined.

(** ** Projection to pixels and back *)

Lemma chartPlotWidth_lower (timelineLength : Z) :
  626 <= chartPlotWidth timelineLength
  /\ (timelineLength - 1) * 18 <= chartPlotWidth timelineLength.
Proof.
  unfold chartPlotWidth, chartSvgWidth, chartWidth, chartPaddingLeft,
    chartPaddingRight, minStep. lia.
Qed.

(** For a series that is not empty the step is a positive finite number. *)
Lemma step_positive (timelineLength : Z) :
  1 <= timelineLength ->
  exists s, step timelineLength = Fin s /\ (0 < s)%Q
            /\ (2 <= timelineLength ->
                (inject_Z (timelineLength - 1) * s
                 == inject_Z (chartPlotWidth timelineLength))%Q).
Proof.
  intro H. unfold step.
  pose proof (chartPlotWidth_lower timelineLength) as [W _].
  assert (Pw : (0 < inject_Z (chartPlotWidth timelineLength))%Q).
  { change 0%Q with (inject_Z 0). rewrite <- Zlt_Qlt. lia. }
  destruct (timelineLength >? 1) eqn:E.
  - apply Z.gtb_lt in E.
    assert (Pl : (0 < inject_Z (timelineLength - 1))%Q).
    { change 0%Q with (inject_Z 0). rewrite <- Zlt_Qlt. lia. }
    rewrite div_ofZ by lia. eexists. split; [reflexivity|]. split.
    + apply Qlt_shift_div_l; [exact Pl|]. lra.
    + intros _. field. lra.
  - exists (inject_Z (chartPlotWidth timelineLength)).
    split; [reflexivity|]. split; [exact Pw|].
    intro H2. rewrite Z.gtb_ltb in E. apply Z.ltb_ge in E. lia.
Qed.

(** [Math.max(a, Math.min(b, x))] for [a <= b] lies between [a] and [b], and
    is [x] when [x] does. *)
Lemma clamp_finite (a b x : Q) :
  (a <= b)%Q ->
  exists c, Math_max (Fin a) (Math_min (Fin b) (Fin x)) = Fin c
            /\ (a <= c <= b)%Q
            /\ ((a <= x <= b)%Q -> (c == x)%Q).
Proof.
  intro Hab. unfold Math_min, Math_max, le.
  destruct (Qle_bool b x) eqn:E1.
  - apply Qle_bool_iff in E1. rewrite (Qle_bool_true a b Hab).
    exists b. split; [reflexivity|]. split; lra.
  - assert (H1 : (x < b)%Q).
    { apply Qnot_le_lt. intro H. apply Qle_bool_iff in H. congruence. }
    destruct (Qle_bool a x) eqn:E2.
    + apply Qle_bool_iff in E2. exists x. split; [reflexivity|]. split; lra.
    + assert (H2 : (x < a)%Q).
      { apply Qnot_le_lt. intro H. apply Qle_bool_iff in H. congruence. }
      exists a. split; [reflexivity|]. split; lra.
Qed.

Lemma Qfloor_half (z : Z) (a : Q) :
  (a == inject_Z z)%Q -> Qfloor (a + (1 # 2)) = z.
Proof.
  intro E. rewrite E.
  pose proof (Qfloor_le (inject_Z z + (1 # 2))) as L.
  pose proof (Qlt_floor (inject_Z z + (1 # 2))) as U.
  set (f := Qfloor (inject_Z z + (1 # 2))) in *.
  assert (L' : (inject_Z f < inject_Z (z + 1))%Q).
  { rewrite inject_Z_plus. change (inject_Z 1) with 1%Q.
    revert L. generalize (inject_Z f) (inject_Z z). intros u v L. lra. }
  assert (U' : (inject_Z z < inject_Z (f + 1))%Q).
  { revert U. rewrite inject_Z_plus. change (inject_Z 1) with 1%Q.
    generalize (inject_Z f) (inject_Z z). intros u v U. lra. }
  rewrite <- Zlt_Qlt in L', U'. lia.
Qed.

(** The index derived from a finite [relativeX], for a series that is not
    empty: the clamped coordinate [c], the rounded quotient [r] and the
    clamped index. *)
Lemma safeIndexAt_finite (timelineLength : Z) (relativeX : Q) :
  1 <= timelineLength ->
  exists s c,
    step timelineLength = Fin s /\ (0 < s)%Q
    /\ ((inject_Z chartPaddingLeft <= relativeX
         <= inject_Z (chartSvgWidth timelineLength - chartPaddingRight))%Q ->
        (c == relativeX)%Q)
    /\ safeIndexAt timelineLength (Fin relativeX)
       = ofZ (Z.max 0
                (Z.min (timelineLength - 1)
                   (Qfloor ((c - inject_Z chartPaddingLeft) / s + (1 # 2))))).
Proof.
  intro H. destruct (step_positive timelineLength H) as [s [Es [Ps _]]].
  pose proof (chartPlotWidth_lower timelineLength) as [W _].
  destruct (clamp_finite (inject_Z chartPaddingLeft)
              (inject_Z (chartSvgWidth timelineLength - chartPaddingRight))
              relativeX) as [c [Ec [_ Hc]]].
  { rewrite <- Zle_Qle. unfold chartPlotWidth in W. lia. }
  exists s, c. split; [exact Es|]. split; [exact Ps|]. split; [exact Hc|].
  unfold safeIndexAt. rewrite Es. fold (ofZ chartPaddingLeft) in Ec.
  fold (ofZ (chartSvgWidth timelineLength - chartPaddingRight)) in Ec.
  rewrite Ec. unfold sub, neg, add. unfold ofZ at 3.
  rewrite div_Fin by lra. cbn [Math_round].
  now rewrite Math_min_ofZ, Math_max_ofZ.
Qed.

(** C7: for a series that is not empty and a pointer anywhere, inside or
    outside the plot, the handler sets the hover state to an integer index
    between 0 and [timelineLength - 1]. *)
Theorem hover_index_in_range (timelineLength : Z)
    (clientX boundsLeft boundsWidth : Q) (hoveredIndex : option num) :
  1 <= timelineLength ->
  (0 < boundsWidth)%Q ->
  exists k,
    onMouseMove timelineLength clientX boundsLeft boundsWidth hoveredIndex
    = Some (ofZ k)
    /\ 0 <= k <= timelineLength - 1.
Proof.
  intros H Hw. unfold onMouseMove.
  replace (timelineLength =? 0) with false by (symmetry; apply Z.eqb_neq; lia).
  unfold ofZ at 1. rewrite div_Fin by lra. cbn [sub neg add mul].
  destruct (safeIndexAt_finite timelineLength
              ((clientX + - boundsLeft)
               * (inject_Z (chartSvgWidth timelineLength) / boundsWidth))%Q H)
    as [s [c [_ [_ [_ ->]]]]].
  eexists. split; [reflexivity|]. lia.
Qed.

Lemma mapi_from_nth {A B : Type} (f : A -> Z -> B) (arr : list A) :
  forall k i b, nth_error (mapi_from f k arr) i = Some b ->
    exists a, nth_error arr i = Some a /\ b = f a (k + Z.of_nat i).
Proof.
  induction arr as [|a arr IH]; intros k i b H.
  - destruct i; discriminate.
  - destruct i as [|i]; simpl in H.
    + injection H as <-. exists a. split; [reflexivity|].
      now rewrite Z.add_0_r.
    + destruct (IH _ _ _ H) as [a' [Ha ->]]. exists a'.
      split; [exact Ha|]. f_equal. lia.
Qed.

(** C3: for a series of at least two points, the x-coordinate of the chart
    point at any index [i], clamped to the plot, divided by the step,
    rounded and clamped to the indices, gives [i] back. *)
Theorem grid_round_trip (timeline : list Point) (yScaleMax : num) (i : nat)
    (p : ChartPoint) :
  2 <= JS.length timeline ->
  nth_error (chartPoints timeline yScaleMax) i = Some p ->
  safeIndexAt (JS.length timeline) (x p) = ofZ (Z.of_nat i).
Proof.
  intros Hl Hp. unfold chartPoints in Hp.
  destruct (mapi_from_nth _ _ _ _ _ Hp) as [a [Ha ->]].
  assert (Hi : Z.of_nat i < JS.length timeline).
  { unfold JS.length. apply Nat2Z.inj_lt. apply nth_error_Some. congruence. }
  set (n := JS.length timeline) in *. rewrite Z.add_0_l.
  destruct (step_positive n ltac:(lia)) as [s [Es [Ps Hs]]].
  specialize (Hs Hl).
  unfold chartPointOf. cbn [x]. rewrite Es. cbn [ofZ mul add].
  set (xi := (inject_Z chartPaddingLeft + inject_Z (Z.of_nat i) * s)%Q).
  destruct (safeIndexAt_finite n xi ltac:(lia)) as [s' [c [Es' [_ [Hc ->]]]]].
  rewrite Es in Es'. injection Es' as <-.
  assert (Hin : (inject_Z (Z.of_nat i) * s <= inject_Z (n - 1) * s)%Q).
  { apply Qmult_le_compat_r; [|lra]. rewrite <- Zle_Qle. lia. }
  assert (H0 : (0 <= inject_Z (Z.of_nat i) * s)%Q).
  { apply Qmult_le_0_compat; [|lra].
    change 0%Q with (inject_Z 0). rewrite <- Zle_Qle. lia. }
  assert (Ew : (inject_Z (chartSvgWidth n - chartPaddingRight)
                == inject_Z chartPaddingLeft + inject_Z (chartPlotWidth n))%Q).
  { rewrite <- inject_Z_plus. unfold chartPlotWidth.
    apply inject_Z_injective. lia. }
  assert (Ec : (c == xi)%Q).
  { apply Hc. rewrite Ew, <- Hs. unfold xi. split; lra. }
  rewrite (Qfloor_half (Z.of_nat i)).
  - f_equal. lia.
  - rewrite Ec. unfold xi. field. lra.
Qed.

Lemma hover_index_in_range_witness :
  1 <= 68 /\ (0 < 360)%Q
  /\ exists k,
       onMouseMove 68 3000 10 360 None = Some (ofZ k) /\ 0 <= k <= 68 - 1.
Proof.
  assert (H1 : 1 <= 68) by lia.
  assert (H2 : (0 < 360)%Q) by reflexivity.
  exact (conj H1 (conj H2 (hover_index_in_range 68 3000 10 360 None H1 H2))).
Defined.

Lemma grid_round_trip_witness :
  let timeline := buildTargetCumulativeTimeline noSin 5 100 flatConfig in
  let p := chartPointOf 5 (ofZ 100) (mkPoint 4 (ofZ 73) false) 3 in
  2 <= JS.length timeline
  /\ nth_error (chartPoints timeline (ofZ 100)) 3 = Some p
  /\ safeIndexAt (JS.length timeline) (x p) = ofZ (Z.of_nat 3).
Proof.
  intros timeline p.
  assert (H1 : 2 <= JS.length timeline) by (vm_compute; discriminate).
  assert (H2 : nth_error (chartPoints timeline (ofZ 100)) 3 = Some p)
    by (vm_compute; reflexivity).
  exact (conj H1 (conj H2 (grid_round_trip timeline (ofZ 100) 3 p H1 H2))).
Defined.

(** ** The date ticks *)

Lemma multiplesBelow_spec (tickInterval timelineLength z : Z) :
  1 <= tickInterval -> 1 <= timelineLength ->
  In z (multiplesBelow tickInterval timelineLength)
  <-> 0 <= z <= timelineLength - 1 /\ (tickInterval | z).
Proof.
  intros Ht Hl. unfold multiplesBelow. rewrite in_map_iff.
  assert (Q0 : 0 <= (timelineLength - 1) / tickInterval)
    by (apply Z.div_pos; lia).
  pose proof (Z.mul_div_le (timelineLength - 1) tickInterval ltac:(lia)) as M.
  split.
  - intros [k [<- Hk]]. apply in_seq in Hk. split.
    + nia.
    + exists (Z.of_nat k). reflexivity.
  - intros [Hz [q ->]]. exists (Z.to_nat q).
    assert (Hq : 0 <= q) by nia.
    split; [rewrite Z2Nat.id by lia; reflexivity|].
    apply in_seq.
    assert (q <= (timelineLength - 1) / tickInterval).
    { apply Z.div_le_lower_bound; lia. }
    lia.
Qed.

Lemma tickLoop_runs (tickInterval timelineLength : Z) :
  1 <= tickInterval ->
  forall (r fuel : nat) (i : Z) (tickOffsets : list Z),
    (r < fuel)%nat ->
    r = 0%nat \/ i + (Z.of_nat r - 1) * tickInterval < timelineLength ->
    timelineLength <= i + Z.of_nat r * tickInterval ->
    tickLoop fuel tickInterval timelineLength i tickOffsets
    = Some (tickOffsets
            ++ map (fun k => i + Z.of_nat k * tickInterval) (seq 0 r)).
Proof.
  intro Ht. induction r as [|r IH]; intros fuel i acc Hf Hlo Hhi.
  - destruct fuel as [|fuel]; [lia|]. simpl.
    replace (i <? timelineLength) with false
      by (symmetry; apply Z.ltb_ge; lia).
    now rewrite app_nil_r.
  - destruct fuel as [|fuel]; [lia|]. cbn [tickLoop].
    assert (Hi : i < timelineLength) by (destruct Hlo; [lia|nia]).
    rewrite (proj2 (Z.ltb_lt _ _) Hi).
    rewrite IH; [|lia| |].
    + f_equal. rewrite <- app_assoc. f_equal. cbn [app seq map].
      replace (i + Z.of_nat 0 * tickInterval) with i by lia.
      f_equal. rewrite <- seq_shift, map_map. apply map_ext. intro k. lia.
    + destruct r as [|r]; [now left|right]. lia.
    + lia.
Qed.

Lemma tickLoop_multiples (fuel : nat) (tickInterval timelineLength : Z) :
  1 <= timelineLength -> 1 <= tickInterval ->
  (Z.to_nat timelineLength < fuel)%nat ->
  tickLoop fuel tickInterval timelineLength 0 []
  = Some (multiplesBelow tickInterval timelineLength).
Proof.
  intros Hl Ht Hf.
  assert (Q0 : 0 <= (timelineLength - 1) / tickInterval)
    by (apply Z.div_pos; lia).
  pose proof (Z.mul_div_le (timelineLength - 1) tickInterval ltac:(lia)) as M.
  pose proof (Z.mod_pos_bound (timelineLength - 1) tickInterval ltac:(lia)) as B.
  pose proof (Z.div_mod (timelineLength - 1) tickInterval ltac:(lia)) as D.
  rewrite (tickLoop_runs tickInterval timelineLength Ht
             (Z.to_nat ((timelineLength - 1) / tickInterval + 1))).
  - reflexivity.
  - assert ((timelineLength - 1) / tickInterval <= timelineLength - 1).
    { apply Z.div_le_upper_bound; nia. }
    lia.
  - right. rewrite Z2Nat.id by lia. lia.
  - rewrite Z2Nat.id by lia. lia.
Qed.

Lemma multiplesBelow_last (tickInterval timelineLength : Z) :
  1 <= timelineLength -> 1 <= tickInterval ->
  let m := multiplesBelow tickInterval timelineLength in
  getZ m (JS.length m - 1) = Some (last m 0)
  /\ last m 0 = (timelineLength - 1) / tickInterval * tickInterval.
Proof.
  intros Hl Ht m. subst m. unfold multiplesBelow.
  assert (Q0 : 0 <= (timelineLength - 1) / tickInterval)
    by (apply Z.div_pos; lia).
  replace (Z.to_nat ((timelineLength - 1) / tickInterval + 1))
    with (S (Z.to_nat ((timelineLength - 1) / tickInterval))) by lia.
  rewrite seq_S, map_app. cbn [map Nat.add].
  rewrite last_last. rewrite Z2Nat.id by lia. split; [|reflexivity].
  unfold getZ, JS.length. rewrite length_app. cbn [List.length].
  match goal with |- context [?a - 1 <? 0] =>
    replace (a - 1 <? 0) with false by (symmetry; apply Z.ltb_ge; lia)
  end.
  rewrite nth_error_app2 by lia.
  match goal with |- nth_error _ ?n = _ => replace n with 0%nat by lia end.
  reflexivity.
Qed.

(** C9: for a length of at least 1 and an interval of at least 1, with fuel
    for the loop, the offsets are the multiples of the interval up to
    [timelineLength - 1], followed by [timelineLength - 1] when the last of
    them is another index; and for 68 days from 2025-11-01 with the interval
    of 7 the ticks hold index 0, labelled 2025-11-01, and index 67. *)
Theorem tick_offsets_and_labels :
  (forall (fuel : nat) (tickInterval timelineLength : Z),
     1 <= timelineLength ->
     1 <= tickInterval ->
     (Z.to_nat timelineLength < fuel)%nat ->
     let multiples := multiplesBelow tickInterval timelineLength in
     tickOffsetsOf fuel tickInterval timelineLength
     = Some (multiples
             ++ (if last multiples 0 =? timelineLength - 1 then []
                 else [timelineLength - 1])))
  /\ (forall fuel : nat,
        (68 < fuel)%nat ->
        exists ticks,
          xAxisTicks fuel 68 = Some ticks
          /\ In (mkTick 0 "2025-11-01") ticks
          /\ In 67 (map index ticks)).
Proof.
  assert (G : forall (fuel : nat) (tickInterval timelineLength : Z),
     1 <= timelineLength ->
     1 <= tickInterval ->
     (Z.to_nat timelineLength < fuel)%nat ->
     let multiples := multiplesBelow tickInterval timelineLength in
     tickOffsetsOf fuel tickInterval timelineLength
     = Some (multiples
             ++ (if last multiples 0 =? timelineLength - 1 then []
                 else [timelineLength - 1]))).
  { intros fuel t n Hl Ht Hf multiples. subst multiples.
    unfold tickOffsetsOf.
    rewrite (tickLoop_multiples fuel t n Hl Ht Hf).
    destruct (multiplesBelow_last t n Hl Ht) as [E _]. cbv zeta in E.
    rewrite E.
    replace (n >? 0) with true by (symmetry; apply Z.gtb_lt; lia).
    cbn [andb strictNe].
    destruct (last (multiplesBelow t n) 0 =? n - 1); cbn [negb];
      [|reflexivity].
    now rewrite app_nil_r. }
  split; [exact G|].
  intros fuel Hf. unfold xAxisTicks.
  rewrite (G fuel tickInterval 68) by (unfold tickInterval; lia).
  eexists. split; [reflexivity|]. vm_compute. split.
  - left. reflexivity.
  - do 10 right. left. reflexivity.
Qed.

Lemma tick_offsets_and_labels_witness :
  (1 <= 30 /\ 1 <= 7 /\ (Z.to_nat 30 < 40)%nat
   /\ tickOffsetsOf 40 7 30
      = Some (multiplesBelow 7 30
              ++ (if last (multiplesBelow 7 30) 0 =? 30 - 1 then []
                  else [30 - 1])))
  /\ ((68 < 70)%nat
      /\ exists ticks,
           xAxisTicks 70 68 = Some ticks
           /\ In (mkTick 0 "2025-11-01") ticks
           /\ In 67 (map index ticks)).
Proof.
  assert (H1 : 1 <= 30) by lia.
  assert (H2 : 1 <= 7) by lia.
  assert (H3 : (Z.to_nat 30 < 40)%nat) by (vm_compute; lia).
  assert (H4 : (68 < 70)%nat) by lia.
  exact (conj
           (conj H1 (conj H2 (conj H3
              (proj1 tick_offsets_and_labels 40%nat 7 30 H1 H2 H3))))
           (conj H4 (proj2 tick_offsets_and_labels 70%nat H4))).
Defined.

(** * Further properties *)

(** ** The series generator: shape of the result *)

Lemma mapAccum_map {S B C : Type} (f : S -> Z -> B * S) (g : B -> C)
    (h : Z -> C) :
  (forall s i, g (fst (f s i)) = h i) ->
  forall l s, map g (fst (mapAccum f s l)) = map h l.
Proof.
  intros H. induction l as [|i l IH]; intro s; [reflexivity|].
  rewrite mapAccum_cons. simpl. now rewrite H, IH.
Qed.

(** X1: whatever the arguments, the timeline has [max(1, length)] points and
    their days are 1, 2, 3, ... in this order; a length of 0 or below still
    gives the one point of day 1. *)
Theorem timeline_days (sin : Q -> Q) (length : Z) (target : Q)
    (config : Config) :
  map day (buildTargetCumulativeTimeline sin length target config)
  = map (fun i => i + 1) (indices (Z.max 1 length)).
Proof.
  unfold buildTargetCumulativeTimeline.
  destruct (length <=? 1) eqn:E.
  - apply Z.leb_le in E. rewrite Z.max_l by lia. reflexivity.
  - apply Z.leb_gt in E. rewrite Z.max_r by lia.
    unfold Array_from_acc. apply mapAccum_map.
    intros s i. unfold timelineStep. now destruct (i =? 0).
Qed.

(** X2: whatever the arguments, the first point of the timeline is day 1
    with the value 0. *)
Theorem timeline_starts_at_zero (sin : Q -> Q) (length : Z) (target : Q)
    (config : Config) :
  exists p rest,
    buildTargetCumulativeTimeline sin length target config = p :: rest
    /\ day p = 1 /\ value p = ofZ 0.
Proof.
  unfold buildTargetCumulativeTimeline.
  destruct (length <=? 1) eqn:E.
  - eexists. eexists. split; [reflexivity|]. split; reflexivity.
  - apply Z.leb_gt in E. unfold Array_from_acc.
    rewrite indices_succ by lia. rewrite mapAccum_cons.
    eexists. eexists. split; [reflexivity|]. split; reflexivity.
Qed.

(** ** The series generator: the running total *)

Lemma sumQ_nonneg (qs : list Q) :
  Forall (fun q => (1 <= q)%Q) qs -> (0 <= sumQ qs)%Q.
Proof.
  induction 1 as [|q qs Hq _ IH]; simpl; lra.
Qed.

Section WalkSummary.

Variables (length : Z) (target : Q) (qs : list Q) (sc : Q).

(** The total after the walk from index [k] and total [t] is [t] plus the
    scaled sum of the increments that were still to be added. *)
Lemma walk_total (rem : list Q) :
  forall k t,
    1 <= k ->
    skipn (Z.to_nat (k - 1)) qs = rem ->
    exists t',
      snd (mapAccum (timelineStep length target (map Fin qs) (Fin sc))
                    (Fin t)
                    (map Z.of_nat (seq (Z.to_nat k) (List.length rem))))
      = Fin t'
      /\ (t' == t + sc * sumQ rem)%Q.
Proof.
  induction rem as [|q rem IH]; intros k t Hk Hskip.
  - exists t. split; [reflexivity|]. simpl. ring.
  - cbn [List.length seq map]. cbn [mapAccum].
    rewrite Z2Nat.id by lia.
    apply skipn_cons_nth in Hskip. destruct Hskip as [Hnth Hskip].
    assert (Estep :
      snd (timelineStep length target (map Fin qs) (Fin sc) (Fin t) k)
      = Fin (t + q * sc)).
    { unfold timelineStep.
      replace (k =? 0) with false by (symmetry; apply Z.eqb_neq; lia).
      unfold getZ.
      replace (k - 1 <? 0) with false by (symmetry; apply Z.ltb_ge; lia).
      rewrite nth_error_map, Hnth. reflexivity. }
    destruct (timelineStep length target (map Fin qs) (Fin sc) (Fin t) k)
      as [b s1]. cbn [snd] in Estep. subst s1.
    destruct (IH (k + 1) (t + q * sc)%Q) as [t' [Et' Ht']].
    + lia.
    + replace (Z.to_nat (k + 1 - 1)) with (S (Z.to_nat (k - 1))) by lia.
      exact Hskip.
    + replace (S (Z.to_nat k)) with (Z.to_nat (k + 1)) by lia.
      destruct (mapAccum _ _ _) as [bs s2]. cbn [snd] in Et' |- *.
      exists t'. split; [exact Et'|]. rewrite Ht'. cbn [sumQ]. ring.
Qed.

End WalkSummary.

(** X3: for a length of at least 2 and a shape with at least one multiplier,
    the running total ends on the target (in exact arithmetic), so that for
    an integer target of at least 0 the rounding applied to the other days
    would give the target on the last day too. *)
Theorem total_reaches_target (sin : Q -> Q) (length : Z) (target : Q)
    (config : Config) :
  2 <= length ->
  segmentMultipliers config <> Some [] ->
  exists t,
    finalTotal sin length target config = Fin t
    /\ (t == target)%Q
    /\ forall z, 0 <= z -> (target == inject_Z z)%Q ->
         Math_max (ofZ 0) (Math_round (Fin t)) = ofZ z.
Proof.
  intros Hl Hs. unfold finalTotal.
  destruct (Forall_Fin _ (increments_finite sin length config Hl Hs))
    as [qs [E Hqs]].
  pose proof (increments_length sin length config) as L.
  rewrite E in *. rewrite length_map in L.
  rewrite sumOf_Fin.
  set (S := fold_left Qplus qs (inject_Z 0)).
  assert (ES : (S == sumQ qs)%Q).
  { unfold S. rewrite fold_left_sumQ. change (inject_Z 0) with 0%Q. ring. }
  assert (PS : (0 < S)%Q).
  { rewrite ES. eapply Qlt_le_trans; [|apply sumQ_lower; exact Hqs].
    change 0%Q with (inject_Z 0). rewrite <- Zlt_Qlt. lia. }
  assert (Esc : scaleOf target (Fin S) = Fin (target / S)).
  { unfold scaleOf, gt, lt, ofZ. rewrite Qle_bool_false by exact PS.
    cbn [negb]. apply div_Fin. lra. }
  rewrite Esc. rewrite indices_succ by lia. cbn [mapAccum].
  cbn [timelineStep Z.eqb].
  destruct (walk_total length target qs (target / S) qs 1 (inject_Z 0))
    as [t [Et Ht]]; [lia|reflexivity|].
  rewrite L in Et. change (Z.to_nat 1) with 1%nat in Et.
  fold (ofZ 0) in Et.
  destruct (mapAccum _ (ofZ 0) _) as [bs s2]. cbn [snd] in Et |- *.
  assert (Ht' : (t == target)%Q).
  { rewrite Ht, <- ES. change (inject_Z 0) with 0%Q. field. lra. }
  exists t. split; [exact Et|]. split; [exact Ht'|].
  intros z Hz Ez. cbn [Math_round]. rewrite Math_max_ofZ. f_equal.
  rewrite (Qfloor_half z) by (rewrite Ht'; exact Ez). lia.
Qed.

Lemma total_reaches_target_witness :
  2 <= 5 /\ segmentMultipliers flatConfig <> Some []
  /\ exists t,
       finalTotal noSin 5 100 flatConfig = Fin t
       /\ (t == 100)%Q
       /\ forall z, 0 <= z -> (100 == inject_Z z)%Q ->
            Math_max (ofZ 0) (Math_round (Fin t)) = ofZ z.
Proof.
  assert (H1 : 2 <= 5) by lia.
  assert (H2 : segmentMultipliers flatConfig <> Some []) by discriminate.
  exact (conj H1 (conj H2 (total_reaches_target noSin 5 100 flatConfig H1 H2))).
Defined.

(** ** The series generator: bounds on the values *)

Lemma last_default {A : Type} (l : list A) (a d d' : A) :
  last (a :: l) d = last (a :: l) d'.
Proof.
  revert a. induction l as [|b l IH]; intro a; [reflexivity|].
  change (last (b :: l) d = last (b :: l) d'). apply IH.
Qed.

Lemma last_cons {A : Type} (l : list A) (a d : A) :
  last (a :: l) d = last l a.
Proof.
  destruct l as [|b l]; [reflexivity|].
  change (last (b :: l) d = last (b :: l) a). apply last_default.
Qed.

Lemma chain_le_last (zs : list Z) : forall lo, chain lo zs -> lo <= last zs lo.
Proof.
  induction zs as [|z zs IH]; intros lo H; [simpl; lia|].
  destruct H as [H1 H2]. rewrite last_cons. specialize (IH z H2). lia.
Qed.

Lemma chain_bounds (zs : list Z) :
  forall lo, chain lo zs -> Forall (fun z => lo <= z <= last zs lo) zs.
Proof.
  induction zs as [|z zs IH]; intros lo H; [constructor|].
  destruct H as [H1 H2]. rewrite last_cons. constructor.
  - split; [exact H1|]. now apply chain_le_last.
  - eapply Forall_impl; [|exact (IH z H2)]. cbv beta. intros a Ha. lia.
Qed.

Lemma nth_error_last {A : Type} (l : list A) (x d : A) :
  nth_error l (List.length l - 1) = Some x -> last l d = x.
Proof.
  induction l as [|a l IH]; [discriminate|].
  destruct l as [|b l].
  - simpl. intro H. now injection H.
  - intro H. change (last (b :: l) d = x). apply IH.
    cbn [List.length] in H |- *.
    replace (S (S (List.length l)) - 1)%nat with (S (List.length l)) in H by lia.
    replace (S (List.length l) - 1)%nat with (List.length l) by lia.
    exact H.
Qed.

Lemma ofZ_injective (a b : Z) : ofZ a = ofZ b -> a = b.
Proof. unfold ofZ, inject_Z. intro H. now injection H. Qed.

(** The value at the last index, for any state of the walk. *)
Lemma timeline_last_value (sin : Q -> Q) (length : Z) (target : Q)
    (config : Config) :
  2 <= length ->
  nth_error
    (valuesOf (buildTargetCumulativeTimeline sin length target config))
    (Z.to_nat (length - 1))
  = Some (Fin target).
Proof.
  intro H. unfold valuesOf, buildTargetCumulativeTimeline.
  replace (length <=? 1) with false by (symmetry; apply Z.leb_gt; lia).
  unfold Array_from_acc.
  set (f := timelineStep length target _ _).
  assert (HR : forall s i,
             i = length - 1 -> value (fst (f s i)) = Fin target).
  { intros s i Hi. unfold f, timelineStep.
    destruct (i =? 0) eqn:E0; simpl; [lia|].
    now rewrite (proj2 (Z.eqb_eq _ _) Hi). }
  destruct (mapAccum_nth f (fun i p => i = length - 1 -> value p = Fin target)
              HR (indices length) (ofZ 0) (Z.to_nat (length - 1)) (length - 1))
    as [p [Hp Hv]].
  { rewrite indices_nth by lia. f_equal. lia. }
  rewrite nth_error_map, Hp. simpl. f_equal. now apply Hv.
Qed.

(** For an integer target and a shape with multipliers the values are the
    integers of an ascending list that starts at 0 and ends on the target. *)
Lemma timeline_values_chain (sin : Q -> Q) (length target : Z)
    (config : Config) :
  2 <= length ->
  0 <= target ->
  segmentMultipliers config <> Some [] ->
  exists zs,
    valuesOf (buildTargetCumulativeTimeline sin length (inject_Z target)
                                            config)
    = map ofZ (0 :: zs)
    /\ chain 0 zs
    /\ last zs 0 = target
    /\ Z.of_nat (List.length zs) = length - 1.
Proof.
  intros H2 Ht Hs.
  pose proof (timeline_last_value sin length (inject_Z target) config H2)
    as Hlast.
  revert Hlast. unfold buildTargetCumulativeTimeline.
  replace (length <=? 1) with false by (symmetry; apply Z.leb_gt; lia).
  destruct (Forall_Fin _ (increments_finite sin length config H2 Hs))
    as [qs [E Hqs]].
  pose proof (increments_length sin length config) as L.
  rewrite E in *. rewrite length_map in L.
  rewrite sumOf_Fin.
  set (Sm := fold_left Qplus qs (inject_Z 0)).
  assert (ES : (Sm == sumQ qs)%Q).
  { unfold Sm. rewrite fold_left_sumQ. change (inject_Z 0) with 0%Q. ring. }
  assert (PS : (0 < Sm)%Q).
  { rewrite ES. eapply Qlt_le_trans; [|apply sumQ_lower; exact Hqs].
    change 0%Q with (inject_Z 0). rewrite <- Zlt_Qlt. lia. }
  assert (Esc : scaleOf (inject_Z target) (Fin Sm) = Fin (inject_Z target / Sm)).
  { unfold scaleOf, gt, lt, ofZ. rewrite Qle_bool_false by exact PS.
    cbn [negb]. apply div_Fin. lra. }
  rewrite Esc.
  assert (Hsc : (0 <= inject_Z target / Sm)%Q).
  { apply Qle_shift_div_l; [exact PS|]. rewrite Qmult_0_l.
    change 0%Q with (inject_Z 0). now rewrite <- Zle_Qle. }
  unfold Array_from_acc. rewrite indices_succ by lia.
  rewrite mapAccum_cons. unfold valuesOf.
  cbn [timelineStep Z.eqb fst snd map value].
  destruct (walk_chain length target qs (inject_Z target / Sm) Hsc Ht qs
              1 (inject_Z 0)) as [zs [Ezs Hzs]].
  - lia.
  - reflexivity.
  - lia.
  - exact Hqs.
  - rewrite <- ES. change (inject_Z 0) with 0%Q. field. lra.
  - rewrite L in Ezs. change (Z.to_nat 1) with 1%nat in Ezs.
    fold (ofZ 0) in Ezs |- *. rewrite Ezs.
    assert (Ln : List.length zs = Z.to_nat (length - 1)).
    { apply (f_equal (@List.length num)) in Ezs.
      rewrite !length_map, mapAccum_length, length_map, length_seq in Ezs.
      now symmetry. }
    intro Hlast. exists zs. split; [reflexivity|]. split; [exact Hzs|].
    split; [|lia].
    change (ofZ 0 :: map ofZ zs) with (map ofZ (0 :: zs)) in Hlast.
    rewrite nth_error_map in Hlast.
    destruct (nth_error (0 :: zs) (Z.to_nat (length - 1))) as [z|] eqn:En;
      [|discriminate].
    simpl in Hlast. injection Hlast as Hz.
    change (Fin (inject_Z z) = Fin (inject_Z target))
      with (ofZ z = ofZ target) in Hz || idtac.
    assert (Ez : z = target).
    { apply ofZ_injective. unfold ofZ. now rewrite Hz. }
    subst z. rewrite <- (last_cons zs 0 0).
    apply nth_error_last. cbn [List.length].
    replace (S (List.length zs) - 1)%nat with (Z.to_nat (length - 1)) by lia.
    exact En.
Qed.

(** X4: in exact arithmetic, for an integer target of at least 0 and a shape
    with at least one multiplier, every value of the timeline is an integer
    between 0 and the target.  In binary64 the running total can be rounded
    to one above the target, as the run over the steep shape shows. *)
Theorem values_between_zero_and_target (sin : Q -> Q) (length target : Z)
    (config : Config) :
  0 <= target ->
  segmentMultipliers config <> Some [] ->
  Forall (fun v => exists z, v = ofZ z /\ 0 <= z <= target)
    (valuesOf (buildTargetCumulativeTimeline sin length (inject_Z target)
                                             config)).
Proof.
  intros Ht Hs. destruct (Z.le_gt_cases length 1) as [H1|H1].
  - unfold buildTargetCumulativeTimeline.
    rewrite (proj2 (Z.leb_le _ _) H1). constructor; [|constructor].
    exists 0. split; [reflexivity|lia].
  - destruct (timeline_values_chain sin length target config
                ltac:(lia) Ht Hs) as [zs [-> [Hc [Hl _]]]].
    apply Forall_map. constructor.
    + exists 0. split; [reflexivity|lia].
    + pose proof (chain_bounds zs 0 Hc) as B. rewrite Hl in B.
      eapply Forall_impl; [|exact B]. cbv beta. intros z Hz.
      exists z. split; [reflexivity|exact Hz].
Qed.

Lemma values_between_zero_and_target_witness :
  0 <= 100 /\ segmentMultipliers flatConfig <> Some []
  /\ Forall (fun v => exists z, v = ofZ z /\ 0 <= z <= 100)
       (valuesOf (buildTargetCumulativeTimeline noSin 5 (inject_Z 100)
                                                flatConfig)).
Proof.
  assert (H1 : 0 <= 100) by lia.
  assert (H2 : segmentMultipliers flatConfig <> Some []) by discriminate.
  exact (conj H1 (conj H2
    (values_between_zero_and_target noSin 5 100 flatConfig H1 H2))).
Defined.

(** ** The series generator: a shape without multipliers *)

Lemma mul_NaN_r (x : num) : mul x NaN = NaN.
Proof. now destruct x. Qed.

Lemma add_NaN_r (x : num) : add x NaN = NaN.
Proof. now destruct x. Qed.

Lemma increment_without_multiplier (sin : Q -> Q) (config : Config)
    (length index : Z) :
  2 <= length ->
  increment sin config [] (segmentSizeOf length []) index = NaN.
Proof.
  intro Hl.
  assert (Es : segmentSizeOf length [] = PInf).
  { unfold segmentSizeOf, JS.length, ofZ, div. cbn [List.length Z.of_nat].
    change (Qeq_bool (inject_Z 0) 0) with true. cbv iota.
    assert (P : (0 < inject_Z (length - 1))%Q).
    { change 0%Q with (inject_Z 0). rewrite <- Zlt_Qlt. lia. }
    now rewrite (proj1 (Qgt_alt _ _) P). }
  rewrite Es. unfold increment.
  change (div (ofZ index) PInf) with (Fin 0).
  change (Math_min (Math_floor (Fin 0)) (ofZ (JS.length (@nil Q) - 1)))
    with (ofZ (-1)).
  change (get (@nil Q) (ofZ (-1))) with (@None Q).
  cbn [option_map toNumber]. now rewrite mul_NaN_r.
Qed.

(** X5: for a length of at least 2 and a shape whose list of multipliers is
    empty, every increment is [NaN], the scale is 0, and every value between
    the first and the last point is [NaN]. *)
Theorem no_multiplier_gives_NaN (sin : Q -> Q) (length : Z) (target : Q)
    (config : Config) :
  2 <= length ->
  segmentMultipliers config = Some [] ->
  Forall (fun v => v = NaN) (incrementsOf sin length config)
  /\ scaleOf target (sumOf (incrementsOf sin length config)) = ofZ 0
  /\ forall i v,
       (0 < i < Z.to_nat (length - 1))%nat ->
       nth_error
         (valuesOf (buildTargetCumulativeTimeline sin length target config))
         i = Some v ->
       v = NaN.
Proof.
  intros Hl Hs.
  assert (Hinc : Forall (fun v => v = NaN) (incrementsOf sin length config)).
  { unfold incrementsOf, Array_from, resolveMultipliers. rewrite Hs.
    apply Forall_map, Forall_forall. intros i _.
    now apply increment_without_multiplier. }
  assert (Hlen : List.length (incrementsOf sin length config)
                 = Z.to_nat (length - 1)) by apply increments_length.
  assert (Hsum : sumOf (incrementsOf sin length config) = NaN).
  { unfold sumOf. destruct (incrementsOf sin length config) as [|v l].
    - simpl in Hlen. lia.
    - apply Forall_inv in Hinc. subst v. cbn [fold_left add ofZ].
      clear. induction l as [|w l IH]; [reflexivity|exact IH]. }
  split; [exact Hinc|]. split; [now rewrite Hsum|].
  intros i v Hi Hv. revert Hv.
  unfold valuesOf, buildTargetCumulativeTimeline.
  replace (length <=? 1) with false by (symmetry; apply Z.leb_gt; lia).
  unfold Array_from_acc.
  set (f := timelineStep length target _ _).
  assert (HR : forall s j,
             0 < j < length - 1 -> value (fst (f s j)) = NaN).
  { intros s j Hj. unfold f, timelineStep.
    replace (j =? 0) with false by (symmetry; apply Z.eqb_neq; lia).
    replace (j =? length - 1) with false by (symmetry; apply Z.eqb_neq; lia).
    cbn [fst value]. unfold getZ.
    replace (j - 1 <? 0) with false by (symmetry; apply Z.ltb_ge; lia).
    destruct (nth_error (incrementsOf sin length config) (Z.to_nat (j - 1)))
      as [w|] eqn:Ew.
    - rewrite Forall_forall in Hinc.
      rewrite (Hinc w (nth_error_In _ _ Ew)).
      cbn [toNumber]. change (mul NaN ?x) with NaN.
      now rewrite add_NaN_r.
    - cbn [toNumber]. change (mul NaN ?x) with NaN.
      now rewrite add_NaN_r. }
  destruct (mapAccum_nth f (fun j p => 0 < j < length - 1 -> value p = NaN)
              HR (indices length) (ofZ 0) i (Z.of_nat i)) as [p [Hp Hpv]].
  { apply indices_nth. lia. }
  rewrite nth_error_map, Hp. simpl. intro Hv. injection Hv as <-.
  apply Hpv. lia.
Qed.

Lemma no_multiplier_gives_NaN_witness :
  2 <= 4 /\ segmentMultipliers emptyConfig = Some []
  /\ Forall (fun v => v = NaN) (incrementsOf noSin 4 emptyConfig)
  /\ scaleOf 7 (sumOf (incrementsOf noSin 4 emptyConfig)) = ofZ 0
  /\ forall i v,
       (0 < i < Z.to_nat (4 - 1))%nat ->
       nth_error
         (valuesOf (buildTargetCumulativeTimeline noSin 4 7 emptyConfig))
         i = Some v ->
       v = NaN.
Proof.
  assert (H1 : 2 <= 4) by lia.
  assert (H2 : segmentMultipliers emptyConfig = Some []) by reflexivity.
  exact (conj H1 (conj H2 (no_multiplier_gives_NaN noSin 4 7 emptyConfig H1 H2))).
Defined.

(** ** The statistics of the dashboard *)

Lemma Math_round_Fin (a : Q) : Math_round (Fin a) = ofZ (roundQ a).
Proof. reflexivity. Qed.

Lemma chain_fold_max (zs : list Z) :
  forall lo, chain lo zs -> fold_left Z.max zs lo = last zs lo.
Proof.
  induction zs as [|z zs IH]; intros lo H; [reflexivity|].
  destruct H as [H1 H2]. cbn [fold_left]. rewrite Z.max_r by lia.
  rewrite last_cons. now apply IH.
Qed.

Lemma Math_max_list_ofZ (zs : list Z) (a : Z) :
  fold_left Math_max (map ofZ zs) (ofZ a) = ofZ (fold_left Z.max zs a).
Proof.
  revert a. induction zs as [|z zs IH]; intro a; [reflexivity|].
  cbn [map fold_left]. rewrite Math_max_ofZ. apply IH.
Qed.

(** For an integer target and a shape with multipliers, the largest value of
    the timeline is the target. *)
Lemma maxTimelineValue_is_target (sin : Q -> Q) (length target : Z)
    (config : Config) :
  2 <= length -> 0 <= target -> segmentMultipliers config <> Some [] ->
  maxTimelineValueOf
    (buildTargetCumulativeTimeline sin length (inject_Z target) config)
  = ofZ target.
Proof.
  intros Hl Ht Hs. unfold maxTimelineValueOf, Math_max_list.
  destruct (timeline_values_chain sin length target config Hl Ht Hs)
    as [zs [E [Hc [Hlast _]]]].
  unfold valuesOf in E. rewrite E. cbn [map fold_left].
  change (Math_max NInf (ofZ 0)) with (ofZ 0).
  rewrite Math_max_list_ofZ, chain_fold_max by exact Hc.
  now rewrite Hlast.
Qed.

Lemma dashboard_series (sin log10 : Q -> Q) (target : Z) (a : Q)
    (config : Config) :
  0 <= target -> (inject_Z target < a)%Q ->
  segmentMultipliers config <> Some [] ->
  let series :=
    buildTargetCumulativeTimeline sin historyLength (inject_Z target) config in
  JS.length series = historyLength
  /\ nondecreasing (valuesOf series)
  /\ Forall (fun v => le (ofZ 0) v = true /\ le v (Fin a) = true)
            (valuesOf series)
  /\ yScaleMax log10 (Some a) (maxTimelineValueOf series) = Fin a.
Proof.
  intros Ht Ha Hs series. subst series.
  assert (Hl : 2 <= historyLength) by (unfold historyLength; lia).
  split; [now apply timeline_length|].
  destruct (timeline_values_chain sin historyLength target config Hl Ht Hs)
    as [zs [E [Hc [Hlast _]]]].
  split; [|split].
  - rewrite E. apply chain_nondecreasing. exact Hc.
  - rewrite E. apply Forall_map. constructor.
    + split; [reflexivity|]. unfold le, ofZ. apply Qle_bool_true.
      apply Qlt_le_weak. eapply Qle_lt_trans; [|exact Ha].
      now rewrite <- Zle_Qle.
    + pose proof (chain_bounds zs 0 Hc) as B. rewrite Hlast in B.
      eapply Forall_impl; [|exact B]. cbv beta. intros z Hz.
      unfold le, ofZ. split; apply Qle_bool_true.
      * rewrite <- Zle_Qle. lia.
      * apply Qlt_le_weak. eapply Qle_lt_trans; [|exact Ha].
        rewrite <- Zle_Qle. lia.
  - rewrite (maxTimelineValue_is_target sin historyLength target config Hl Ht Hs).
    unfold yScaleMax, yScaleMaxOf.
    assert (Pa : (0 < a)%Q).
    { eapply Qle_lt_trans; [|exact Ha].
      change 0%Q with (inject_Z 0). now rewrite <- Zle_Qle. }
    assert (T : truthy (Fin a) = true).
    { unfold truthy. rewrite Qeq_bool_false; [reflexivity|lra]. }
    rewrite T. unfold Math_max, le, ofZ.
    now rewrite Qle_bool_false by exact Ha.
Qed.

(** The targets for the nine selections, as binary64 computes them.  For the
    revenue type 'AI订阅收入' the products [22450 * 0.35] and
    [22450 * 0.35 * 0.6] are 7857.499999999999 and 4714.499999999999 in
    binary64 and round to 7857 and 4714; the exact products, 7857.5 and
    4714.5, would round to 7858 and 4715. *)
Lemma targets_of_the_selections :
  map (fun r => map (revenueTarget r)
                    [AllProjects; DigitalRenaissance; MinimalistLiving])
      [AllRevenue; CourseRevenue; AiSubscriptionRevenue]
  = [[22450; 13470; 8980]; [14593; 8756; 5837]; [7857; 4714; 3143]]
  /\ map totalSubscriptionTarget
         [AllProjects; DigitalRenaissance; MinimalistLiving]
     = [3200; 1920; 1280]
  /\ map activeSubscriptionTarget
         [AllProjects; DigitalRenaissance; MinimalistLiving]
     = [850; 510; 340]
  /\ roundQ (22450 * (35 # 100)) = 7858
  /\ roundQ (22450 * (35 # 100) * (6 # 10)) = 4715.
Proof. repeat split; vm_compute; reflexivity. Qed.

(** X6: whatever the two selectors hold, with the three targets computed in
    binary64 as the code computes them, each of the three statistics has a
    timeline of 68 points whose values, computed from these targets in exact
    arithmetic, never decrease and lie between 0 and the [axisMax] of the
    statistic, so that the ceiling of its scale is this [axisMax] for every
    selection. *)
Theorem stats_series_fit_their_axis (sin log10 : Q -> Q)
    (selectedRevenueType : RevenueType)
    (selectedProjectCategory : ProjectCategory) (stat : Stat) :
  In stat (stats sin selectedRevenueType selectedProjectCategory) ->
  JS.length (timeline stat) = 68
  /\ nondecreasing (valuesOf (timeline stat))
  /\ Forall (fun v => le (ofZ 0) v = true /\ le v (Fin (axisMax stat)) = true)
            (valuesOf (timeline stat))
  /\ yScaleMax log10 (Some (axisMax stat))
       (maxTimelineValueOf (timeline stat))
     = Fin (axisMax stat).
Proof.
  intros [<-|[<-|[<-|[]]]]; cbn [axisMax timeline];
    apply dashboard_series; try discriminate;
    destruct selectedRevenueType, selectedProjectCategory;
    vm_compute; congruence.
Qed.

Lemma stats_series_fit_their_axis_witness :
  let stat :=
    mkStat 4000
      (buildTargetCumulativeTimeline noSin historyLength
         (inject_Z (totalSubscriptionTarget DigitalRenaissance))
         (mkConfig 36 18 260 (Some (7 # 10))
            (Some [7 # 10; 125 # 100; 9 # 10; 12 # 10; 95 # 100]))) in
  In stat (stats noSin CourseRevenue DigitalRenaissance)
  /\ JS.length (timeline stat) = 68
  /\ nondecreasing (valuesOf (timeline stat))
  /\ Forall (fun v => le (ofZ 0) v = true /\ le v (Fin (axisMax stat)) = true)
            (valuesOf (timeline stat))
  /\ yScaleMax noSin (Some (axisMax stat))
       (maxTimelineValueOf (timeline stat))
     = Fin (axisMax stat).
Proof.
  intro stat.
  assert (H1 : In stat (stats noSin CourseRevenue DigitalRenaissance))
    by (right; left; reflexivity).
  exact (conj H1 (stats_series_fit_their_axis noSin noSin CourseRevenue
                    DigitalRenaissance stat H1)).
Defined.

(** ** The vertical axis: labels and ceiling *)

Lemma Array_from_nth {B : Type} (n : Z) (f : Z -> B) (i : nat) :
  (i < Z.to_nat n)%nat ->
  nth_error (Array_from n f) i = Some (f (Z.of_nat i)).
Proof.
  intro H. unfold Array_from. rewrite nth_error_map.
  now rewrite indices_nth.
Qed.

Lemma Array_from_length {B : Type} (n : Z) (f : Z -> B) :
  List.length (Array_from n f) = Z.to_nat n.
Proof. unfold Array_from. now rewrite length_map, indices_length. Qed.

Lemma roundQ_mono (a b : Q) : (a <= b)%Q -> roundQ a <= roundQ b.
Proof. intro H. unfold roundQ. apply Qfloor_resp_le. lra. Qed.

(** X7: for a finite ceiling of at least 0 and at least two ticks, there
    are as many labels as ticks, the first is 0, the last is the rounded
    ceiling, and they never decrease. *)
Theorem y_axis_values_ascend (yScaleMax : Q) (ticks : Z) :
  (0 <= yScaleMax)%Q ->
  2 <= ticks ->
  let values := yAxisValuesOf (Fin yScaleMax) ticks in
  JS.length values = ticks
  /\ nth_error values 0 = Some (ofZ 0)
  /\ nth_error values (Z.to_nat (ticks - 1)) = Some (Math_round (Fin yScaleMax))
  /\ nondecreasing values.
Proof.
  intros Hm Ht values. subst values. unfold yAxisValuesOf, yAxisStepOf.
  assert (Pt : (0 < inject_Z (ticks - 1))%Q).
  { change 0%Q with (inject_Z 0). rewrite <- Zlt_Qlt. lia. }
  set (s := (yScaleMax / inject_Z (ticks - 1))%Q).
  assert (Ps : (0 <= s)%Q).
  { unfold s. apply Qle_shift_div_l; [exact Pt|]. lra. }
  assert (Ediv : div (Fin yScaleMax) (ofZ (ticks - 1)) = Fin s).
  { unfold ofZ. apply div_Fin. lra. }
  set (f := fun i : Z => ofZ (roundQ (inject_Z i * s))).
  assert (EA : Array_from ticks
                 (fun index : Z =>
                    Math_round (mul (ofZ index)
                                    (div (Fin yScaleMax) (ofZ (ticks - 1)))))
               = Array_from ticks f).
  { unfold Array_from. apply map_ext. intro i. now rewrite Ediv. }
  rewrite EA.
  assert (Ef : forall i, f i = ofZ (roundQ (inject_Z i * s))) by reflexivity.
  split; [|split; [|split]].
  - unfold JS.length. rewrite Array_from_length. lia.
  - rewrite Array_from_nth by lia. rewrite Ef. do 2 f_equal.
    unfold roundQ. apply Qfloor_half. simpl (Z.of_nat 0). ring.
  - rewrite Array_from_nth by lia. rewrite Ef, Z2Nat.id by lia.
    cbn [Math_round]. do 2 f_equal.
    assert (E : (inject_Z (ticks - 1) * s == yScaleMax)%Q)
      by (unfold s; field; lra).
    unfold roundQ. now rewrite E.
  - intros i v w Hv Hw.
    assert (Hi : (S i < Z.to_nat ticks)%nat).
    { rewrite <- (Array_from_length ticks f).
      apply nth_error_Some. rewrite Hw. discriminate. }
    rewrite Array_from_nth in Hv, Hw by lia.
    injection Hv as <-. injection Hw as <-. rewrite !Ef.
    unfold ge, le, ofZ. apply Qle_bool_true. rewrite <- Zle_Qle.
    apply roundQ_mono. apply Qmult_le_compat_r; [|exact Ps].
    rewrite <- Zle_Qle. lia.
Qed.

Lemma y_axis_values_ascend_witness :
  (0 <= 25000)%Q /\ 2 <= 5
  /\ (let values := yAxisValuesOf (Fin 25000) 5 in
      JS.length values = 5
      /\ nth_error values 0 = Some (ofZ 0)
      /\ nth_error values (Z.to_nat (5 - 1)) = Some (Math_round (Fin 25000))
      /\ nondecreasing values).
Proof.
  assert (H1 : (0 <= 25000)%Q) by discriminate.
  assert (H2 : 2 <= 5) by lia.
  exact (conj H1 (conj H2 (y_axis_values_ascend 25000 5 H1 H2))).
Defined.

(** X8: in exact arithmetic, for a maximum of at least 0 and at least two
    ticks, the nice ceiling is a whole number of steps, the first that
    reaches the maximum: it is below the maximum plus one step.  In binary64
    the quotient of the maximum by the step can round down to an integer,
    and the nice ceiling is then one step lower. *)
Theorem nice_max_is_tight (log10 : Q -> Q) (maxValue : Q) (ticks : Z) :
  (0 <= maxValue)%Q ->
  2 <= ticks ->
  exists (niceStep : Q) (k : Z),
    getNiceStep log10 (Fin maxValue) ticks = Fin niceStep
    /\ (0 < niceStep)%Q
    /\ niceMaxOf log10 (Fin maxValue) ticks = Fin (inject_Z k * niceStep)
    /\ (maxValue <= inject_Z k * niceStep)%Q
    /\ (inject_Z k * niceStep < maxValue + niceStep)%Q.
Proof.
  intros Hm Ht.
  destruct (getNiceStep_positive log10 maxValue ticks Hm Ht) as [st [E Pst]].
  exists st, (Qceiling (maxValue / st)).
  split; [exact E|]. split; [exact Pst|].
  unfold niceMaxOf. rewrite E. rewrite div_Fin by lra.
  split; [reflexivity|].
  assert (Eq : (maxValue / st * st == maxValue)%Q) by (field; lra).
  split.
  - pose proof (Qle_ceiling (maxValue / st)) as C.
    apply (Qmult_le_compat_r _ _ st) in C; [|lra].
    rewrite Eq in C. exact C.
  - pose proof (Qceiling_lt (maxValue / st)) as C.
    assert (E1 : (inject_Z (Qceiling (maxValue / st) - 1)
                  == inject_Z (Qceiling (maxValue / st)) - 1)%Q).
    { unfold Z.sub. rewrite inject_Z_plus. reflexivity. }
    rewrite E1 in C.
    apply (Qmult_lt_compat_r _ _ st) in C; [|exact Pst].
    rewrite Eq in C.
    revert C. generalize (inject_Z (Qceiling (maxValue / st))).
    intros c C.
    assert (E2 : ((c - 1) * st == c * st - st)%Q) by ring.
    rewrite E2 in C. lra.
Qed.

Lemma nice_max_is_tight_witness :
  (0 <= 23450)%Q /\ 2 <= 5
  /\ exists (niceStep : Q) (k : Z),
       getNiceStep (fun _ => 3768 # 1000) (Fin 23450) 5 = Fin niceStep
       /\ (0 < niceStep)%Q
       /\ niceMaxOf (fun _ => 3768 # 1000) (Fin 23450) 5
          = Fin (inject_Z k * niceStep)
       /\ (23450 <= inject_Z k * niceStep)%Q
       /\ (inject_Z k * niceStep < 23450 + niceStep)%Q.
Proof.
  assert (H1 : (0 <= 23450)%Q) by discriminate.
  assert (H2 : 2 <= 5) by lia.
  exact (conj H1 (conj H2
           (nice_max_is_tight (fun _ => 3768 # 1000) 23450 5 H1 H2))).
Defined.

Lemma Math_max_list_zero (l : list num) :
  Forall (fun v => v = ofZ 0) l ->
  fold_left Math_max l (ofZ 0) = ofZ 0.
Proof.
  induction 1 as [|v l -> _ IH]; [reflexivity|exact IH].
Qed.

(** X9: when every value of a timeline is 0 and the statistic has no
    [axisMax], the ceiling of the scale is 0 and the quotient
    [value / yScaleMax] is 0 / 0: every chart point gets [NaN] for [y]. *)
Theorem zero_scale_gives_NaN (log10 : Q -> Q) (ticks : Z)
    (timeline : list Point) :
  timeline <> [] ->
  Forall (fun p => value p = ofZ 0) timeline ->
  yScaleMaxOf log10 None (maxTimelineValueOf timeline) ticks = ofZ 0
  /\ forall p,
       In p (chartPoints timeline
               (yScaleMaxOf log10 None (maxTimelineValueOf timeline) ticks)) ->
       y p = NaN.
Proof.
  intros Hne Hz.
  assert (Em : maxTimelineValueOf timeline = ofZ 0).
  { unfold maxTimelineValueOf, Math_max_list.
    destruct timeline as [|p tl]; [congruence|].
    pose proof (Forall_inv Hz) as Hp. cbv beta in Hp.
    cbn [map fold_left]. rewrite Hp.
    change (Math_max NInf (ofZ 0)) with (ofZ 0).
    apply Math_max_list_zero. apply Forall_map.
    exact (Forall_inv_tail Hz). }
  rewrite Em.
  assert (Es : yScaleMaxOf log10 None (ofZ 0) ticks = ofZ 0) by reflexivity.
  rewrite Es. split; [reflexivity|].
  intros p Hp. apply In_nth_error in Hp. destruct Hp as [i Hi].
  unfold chartPoints in Hi. apply mapi_from_nth in Hi.
  destruct Hi as [a [Ha ->]].
  rewrite Forall_forall in Hz.
  unfold chartPointOf. cbn [y]. rewrite (Hz a (nth_error_In _ _ Ha)).
  reflexivity.
Qed.

Lemma zero_scale_gives_NaN_witness :
  let timeline := buildTargetCumulativeTimeline noSin 3 0 flatConfig in
  timeline <> []
  /\ Forall (fun p => value p = ofZ 0) timeline
  /\ yScaleMaxOf noSin None (maxTimelineValueOf timeline) 5 = ofZ 0
  /\ forall p,
       In p (chartPoints timeline
               (yScaleMaxOf noSin None (maxTimelineValueOf timeline) 5)) ->
       y p = NaN.
Proof.
  intro timeline.
  assert (H1 : timeline <> []) by (vm_compute; discriminate).
  assert (H2 : Forall (fun p => value p = ofZ 0) timeline)
    by (vm_compute; repeat constructor).
  exact (conj H1 (conj H2 (zero_scale_gives_NaN noSin 5 timeline H1 H2))).
Defined.

(** ** Projection: the layout of the chart points *)

Lemma mapi_from_nth_some {A B : Type} (f : A -> Z -> B) (arr : list A) :
  forall k i a, nth_error arr i = Some a ->
    nth_error (mapi_from f k arr) i = Some (f a (k + Z.of_nat i)).
Proof.
  induction arr as [|a0 arr IH]; intros k i a H.
  - destruct i; discriminate.
  - destruct i as [|i]; simpl in H |- *.
    + injection H as <-. now rewrite Z.add_0_r.
    + rewrite (IH (k + 1) i a H). do 2 f_equal. lia.
Qed.

Lemma mapi_from_length {A B : Type} (f : A -> Z -> B) (arr : list A) :
  forall k, List.length (mapi_from f k arr) = List.length arr.
Proof.
  induction arr as [|a arr IH]; intro k; [reflexivity|].
  simpl. now rewrite IH.
Qed.

(** For at least two points the step is at least [minStep]. *)
Lemma step_at_least_minStep (timelineLength : Z) (s : Q) :
  2 <= timelineLength ->
  (inject_Z (timelineLength - 1) * s
   == inject_Z (chartPlotWidth timelineLength))%Q ->
  (inject_Z minStep <= s)%Q.
Proof.
  intros Hl Hs.
  pose proof (chartPlotWidth_lower timelineLength) as [_ W].
  assert (Pl : (0 < inject_Z (timelineLength - 1))%Q).
  { change 0%Q with (inject_Z 0). rewrite <- Zlt_Qlt. lia. }
  apply (Qmult_le_l _ _ (inject_Z (timelineLength - 1))); [exact Pl|].
  rewrite Hs, <- inject_Z_mult, <- Zle_Qle. unfold minStep. lia.
Qed.

(** X10: for a timeline of at least two points, the chart points are the
    points of the timeline in the same order, placed every [step] pixels
    from [chartPaddingLeft]; the step is at least [minStep] and
    [timelineLength - 1] steps span the width of the plot, so that the last
    point sits on its right edge. *)
Theorem chart_points_are_evenly_spaced (timeline : list Point)
    (yScaleMax : num) :
  2 <= JS.length timeline ->
  exists s,
    step (JS.length timeline) = Fin s
    /\ (inject_Z minStep <= s)%Q
    /\ (inject_Z chartPaddingLeft + inject_Z (JS.length timeline - 1) * s
        == inject_Z (chartSvgWidth (JS.length timeline) - chartPaddingRight))%Q
    /\ JS.length (chartPoints timeline yScaleMax) = JS.length timeline
    /\ forall i p,
         nth_error (chartPoints timeline yScaleMax) i = Some p ->
         nth_error timeline i = Some (point p)
         /\ exists xq,
              x p = Fin xq
              /\ (xq == inject_Z chartPaddingLeft + inject_Z (Z.of_nat i) * s)%Q.
Proof.
  intro Hl. set (n := JS.length timeline) in *.
  destruct (step_positive n ltac:(lia)) as [s [Es [Ps Hs]]].
  specialize (Hs Hl). exists s. split; [exact Es|].
  split; [now apply (step_at_least_minStep n)|]. split; [|split].
  - rewrite Hs, <- inject_Z_plus. apply inject_Z_injective.
    unfold chartPlotWidth. lia.
  - unfold chartPoints, JS.length. now rewrite mapi_from_length.
  - intros i p Hp. unfold chartPoints in Hp.
    destruct (mapi_from_nth _ _ _ _ _ Hp) as [a [Ha ->]].
    split; [exact Ha|]. unfold chartPointOf. cbn [x]. fold n.
    rewrite Es, Z.add_0_l. eexists. split; [reflexivity|reflexivity].
Qed.

Lemma chart_points_are_evenly_spaced_witness :
  let timeline := buildTargetCumulativeTimeline noSin 5 100 flatConfig in
  2 <= JS.length timeline
  /\ exists s,
       step (JS.length timeline) = Fin s
       /\ (inject_Z minStep <= s)%Q
       /\ (inject_Z chartPaddingLeft + inject_Z (JS.length timeline - 1) * s
           == inject_Z (chartSvgWidth (JS.length timeline)
                        - chartPaddingRight))%Q
       /\ JS.length (chartPoints timeline (ofZ 100)) = JS.length timeline
       /\ forall i p,
            nth_error (chartPoints timeline (ofZ 100)) i = Some p ->
            nth_error timeline i = Some (point p)
            /\ exists xq,
                 x p = Fin xq
                 /\ (xq == inject_Z chartPaddingLeft
                           + inject_Z (Z.of_nat i) * s)%Q.
Proof.
  intro timeline.
  assert (H1 : 2 <= JS.length timeline) by (vm_compute; discriminate).
  exact (conj H1 (chart_points_are_evenly_spaced timeline (ofZ 100) H1)).
Defined.

(** X11: for a positive finite ceiling and a value between 0 and the
    ceiling, the point is drawn between the top and the bottom of the plot:
    the value 0 on the bottom line and the ceiling on the top line. *)
Theorem chart_point_stays_in_plot (timelineLength : Z) (yScaleMax v : Q)
    (p : Point) (index : Z) :
  (0 < yScaleMax)%Q ->
  value p = Fin v ->
  (0 <= v <= yScaleMax)%Q ->
  exists yq,
    y (chartPointOf timelineLength (Fin yScaleMax) p index) = Fin yq
    /\ (inject_Z chartPaddingTop <= yq <= inject_Z chartBottom)%Q
    /\ ((v == 0)%Q -> (yq == inject_Z chartBottom)%Q)
    /\ ((v == yScaleMax)%Q -> (yq == inject_Z chartPaddingTop)%Q).
Proof.
  intros Pm Ev Hv. unfold chartPointOf. cbn [y]. rewrite Ev.
  rewrite div_Fin by lra. cbn [sub neg add mul ofZ].
  eexists. split; [reflexivity|].
  set (r := (v / yScaleMax)%Q).
  assert (Hr0 : (0 <= r)%Q).
  { unfold r. apply Qle_shift_div_l; [exact Pm|]. lra. }
  assert (Hr1 : (r <= 1)%Q).
  { unfold r. apply Qle_shift_div_r; [exact Pm|]. lra. }
  change (inject_Z chartPaddingTop) with 18%Q.
  change (inject_Z chartPlotHeight) with 172%Q.
  change (inject_Z chartBottom) with 190%Q.
  change (inject_Z 1) with 1%Q.
  split; [split; lra|]. split; intro E.
  - assert (Er : (r == 0)%Q) by (unfold r; rewrite E; field; lra).
    rewrite Er. reflexivity.
  - assert (Er : (r == 1)%Q) by (unfold r; rewrite E; field; lra).
    rewrite Er. reflexivity.
Qed.

Lemma chart_point_stays_in_plot_witness :
  (0 < 25000)%Q /\ value (mkPoint 4 (ofZ 73) false) = Fin 73
  /\ (0 <= 73 <= 25000)%Q
  /\ exists yq,
       y (chartPointOf 5 (Fin 25000) (mkPoint 4 (ofZ 73) false) 3) = Fin yq
       /\ (inject_Z chartPaddingTop <= yq <= inject_Z chartBottom)%Q
       /\ ((73 == 0)%Q -> (yq == inject_Z chartBottom)%Q)
       /\ ((73 == 25000)%Q -> (yq == inject_Z chartPaddingTop)%Q).
Proof.
  assert (H1 : (0 < 25000)%Q) by reflexivity.
  assert (H2 : value (mkPoint 4 (ofZ 73) false) = Fin 73) by reflexivity.
  assert (H3 : (0 <= 73 <= 25000)%Q) by (split; discriminate).
  exact (conj H1 (conj H2 (conj H3
    (chart_point_stays_in_plot 5 25000 73 (mkPoint 4 (ofZ 73) false) 3
       H1 H2 H3)))).
Defined.

(** ** Projection: from the pointer to the index *)

(** [Math.max(a, Math.min(b, x))] for [a <= b]: the result is [x], or the
    bound that [x] is beyond. *)
Lemma clamp_cases (a b x : Q) :
  (a <= b)%Q ->
  exists c, Math_max (Fin a) (Math_min (Fin b) (Fin x)) = Fin c
            /\ (a <= c <= b)%Q
            /\ ((c == x)%Q \/ ((c == a)%Q /\ (x <= a)%Q)
                \/ ((c == b)%Q /\ (b <= x)%Q)).
Proof.
  intro Hab. unfold Math_min, Math_max, le.
  destruct (Qle_bool b x) eqn:E1.
  - apply Qle_bool_iff in E1. rewrite (Qle_bool_true a b Hab).
    exists b. split; [reflexivity|]. split; [lra|].
    right. right. split; [reflexivity|exact E1].
  - assert (H1 : (x < b)%Q).
    { apply Qnot_le_lt. intro H. apply Qle_bool_iff in H. congruence. }
    destruct (Qle_bool a x) eqn:E2.
    + apply Qle_bool_iff in E2. exists x. split; [reflexivity|].
      split; [lra|]. left. reflexivity.
    + assert (H2 : (x < a)%Q).
      { apply Qnot_le_lt. intro H. apply Qle_bool_iff in H. congruence. }
      exists a. split; [reflexivity|]. split; [lra|].
      right. left. split; [reflexivity|lra].
Qed.

(** The index for a finite [relativeX] and a series that is not empty, with
    the clamped coordinate [c] it is derived from. *)
Lemma safeIndexAt_clamped (timelineLength : Z) (relativeX : Q) :
  1 <= timelineLength ->
  exists s c,
    step timelineLength = Fin s /\ (0 < s)%Q
    /\ (inject_Z (Z.max 1 (timelineLength - 1)) * s
        == inject_Z (chartPlotWidth timelineLength))%Q
    /\ (inject_Z chartPaddingLeft <= c
        <= inject_Z chartPaddingLeft
           + inject_Z (chartPlotWidth timelineLength))%Q
    /\ ((c == relativeX)%Q
        \/ ((c == inject_Z chartPaddingLeft)%Q
            /\ (relativeX <= inject_Z chartPaddingLeft)%Q)
        \/ ((c == inject_Z chartPaddingLeft
                  + inject_Z (chartPlotWidth timelineLength))%Q
            /\ (inject_Z chartPaddingLeft
                + inject_Z (chartPlotWidth timelineLength) <= relativeX)%Q))
    /\ safeIndexAt timelineLength (Fin relativeX)
       = ofZ (Z.max 0
                (Z.min (timelineLength - 1)
                   (roundQ ((c - inject_Z chartPaddingLeft) / s)))).
Proof.
  intro H. destruct (step_positive timelineLength H) as [s [Es [Ps Hs]]].
  pose proof (chartPlotWidth_lower timelineLength) as [W _].
  assert (Ew : (inject_Z (chartSvgWidth timelineLength - chartPaddingRight)
                == inject_Z chartPaddingLeft
                   + inject_Z (chartPlotWidth timelineLength))%Q).
  { rewrite <- inject_Z_plus. unfold chartPlotWidth.
    apply inject_Z_injective. lia. }
  destruct (clamp_cases (inject_Z chartPaddingLeft)
              (inject_Z (chartSvgWidth timelineLength - chartPaddingRight))
              relativeX) as [c [Ec [Hb Hc]]].
  { rewrite <- Zle_Qle. unfold chartPlotWidth in W. lia. }
  exists s, c. split; [exact Es|]. split; [exact Ps|]. split; [|split; [|split]].
  - destruct (Z.eq_dec timelineLength 1) as [->|Hne].
    + revert Es. unfold step. cbn [Z.gtb Z.compare]. intro Es.
      injection Es as <-. change (Z.max 1 (1 - 1)) with 1.
      change (inject_Z 1) with 1%Q. ring.
    + rewrite Z.max_r by lia. apply Hs. lia.
  - rewrite <- Ew. exact Hb.
  - rewrite <- Ew. exact Hc.
  - unfold safeIndexAt. rewrite Es. fold (ofZ chartPaddingLeft) in Ec.
    fold (ofZ (chartSvgWidth timelineLength - chartPaddingRight)) in Ec.
    rewrite Ec. unfold sub, neg, add. unfold ofZ at 3.
    rewrite div_Fin by lra. cbn [Math_round].
    now rewrite Math_min_ofZ, Math_max_ofZ.
Qed.

(** The handler is [safeIndexAt] at the coordinate it computes. *)
Lemma onMouseMove_relativeX (timelineLength : Z)
    (clientX boundsLeft boundsWidth : Q) (hoveredIndex : option num) :
  1 <= timelineLength ->
  (0 < boundsWidth)%Q ->
  onMouseMove timelineLength clientX boundsLeft boundsWidth hoveredIndex
  = Some (safeIndexAt timelineLength
            (Fin (relativeXOf timelineLength clientX boundsLeft boundsWidth))).
Proof.
  intros Hl Hw. unfold onMouseMove, relativeXOf.
  replace (timelineLength =? 0) with false
    by (symmetry; apply Z.eqb_neq; lia).
  unfold ofZ at 1. rewrite div_Fin by lra. reflexivity.
Qed.

(** Inside the plot range the index is that of the chart point nearest to
    [relativeX]. *)
Lemma safeIndexAt_nearest (timelineLength : Z) (relativeX : Q) :
  2 <= timelineLength ->
  (inject_Z chartPaddingLeft <= relativeX
   <= inject_Z (chartSvgWidth timelineLength - chartPaddingRight))%Q ->
  exists s k,
    step timelineLength = Fin s
    /\ safeIndexAt timelineLength (Fin relativeX) = ofZ k
    /\ 0 <= k <= timelineLength - 1
    /\ (- s <= 2 * (relativeX - (inject_Z chartPaddingLeft + inject_Z k * s)))%Q
    /\ (2 * (relativeX - (inject_Z chartPaddingLeft + inject_Z k * s)) < s)%Q.
Proof.
  intros Hl Hx.
  destruct (safeIndexAt_clamped timelineLength relativeX ltac:(lia))
    as [s [c [Es [Ps [Hs [Hb [Hc ->]]]]]]].
  rewrite Z.max_r in Hs by lia.
  assert (Ew : (inject_Z (chartSvgWidth timelineLength - chartPaddingRight)
                == inject_Z chartPaddingLeft
                   + inject_Z (chartPlotWidth timelineLength))%Q).
  { rewrite <- inject_Z_plus. unfold chartPlotWidth.
    apply inject_Z_injective. lia. }
  rewrite Ew in Hx.
  assert (Ec : (c == relativeX)%Q) by (destruct Hc as [E|[[E1 E2]|[E1 E2]]]; lra).
  set (q := ((c - inject_Z chartPaddingLeft) / s)%Q).
  assert (Eq : (q * s == relativeX - inject_Z chartPaddingLeft)%Q).
  { unfold q. rewrite <- Ec. field. lra. }
  pose proof (Qfloor_le (q + (1 # 2))) as F1.
  pose proof (Qlt_floor (q + (1 # 2))) as F2.
  fold (roundQ q) in F1, F2.
  rewrite inject_Z_plus in F2. change (inject_Z 1) with 1%Q in F2.
  assert (Hq0 : (0 <= q)%Q).
  { unfold q. apply Qle_shift_div_l; [exact Ps|]. lra. }
  assert (Hq1 : (q <= inject_Z (timelineLength - 1))%Q).
  { unfold q. apply Qle_shift_div_r; [exact Ps|]. rewrite Hs. lra. }
  assert (Hk0 : 0 <= roundQ q).
  { assert (L : (inject_Z (-1) < inject_Z (roundQ q))%Q).
    { change (inject_Z (-1)) with (-1)%Q.
      revert F2 Hq0. generalize (inject_Z (roundQ q)). intros u F2 Hq0. lra. }
    rewrite <- Zlt_Qlt in L. lia. }
  assert (Hk1 : roundQ q <= timelineLength - 1).
  { assert (L : (inject_Z (roundQ q) < inject_Z (timelineLength - 1 + 1))%Q).
    { rewrite inject_Z_plus. change (inject_Z 1) with 1%Q.
      revert F1 Hq1.
      generalize (inject_Z (roundQ q)) (inject_Z (timelineLength - 1)).
      intros u w F1 Hq1. lra. }
    rewrite <- Zlt_Qlt in L. lia. }
  exists s, (roundQ q). split; [exact Es|].
  split; [f_equal; lia|]. split; [lia|].
  apply (Qmult_le_compat_r _ _ s) in F1; [|lra].
  apply (Qmult_lt_compat_r _ _ s) in F2; [|exact Ps].
  revert F1 F2 Eq. generalize (inject_Z (roundQ q)). intros u F1 F2 Eq.
  assert (E1 : ((q + (1 # 2)) * s == q * s + (1 # 2) * s)%Q) by ring.
  assert (E2 : ((u + 1) * s == u * s + s)%Q) by ring.
  rewrite E1 in F1, F2. rewrite E2 in F2. rewrite Eq in F1, F2.
  split; lra.
Qed.

(** X12: in exact arithmetic, for a series of at least two points and an
    element of positive width, when the coordinate [relativeX] that the
    handler computes,
    [(clientX - bounds.left) * chartSvgWidth / bounds.width], lies in the
    plot range, the index set by the handler is that of the chart point
    nearest to [relativeX]: [relativeX] is less than half a step to the right
    of that point and at most half a step to its left.  The statement is
    about [relativeX], which is measured from the left edge of the element
    that carries the handler and rescaled by the width of that element; it
    is the abscissa of the pointer in the chart only when this element
    covers the whole width of the chart. *)
Theorem hover_picks_nearest_point (timelineLength : Z)
    (clientX boundsLeft boundsWidth : Q) (hoveredIndex : option num) :
  2 <= timelineLength ->
  (0 < boundsWidth)%Q ->
  (inject_Z chartPaddingLeft
   <= relativeXOf timelineLength clientX boundsLeft boundsWidth
   <= inject_Z (chartSvgWidth timelineLength - chartPaddingRight))%Q ->
  exists s k,
    step timelineLength = Fin s
    /\ onMouseMove timelineLength clientX boundsLeft boundsWidth hoveredIndex
       = Some (ofZ k)
    /\ 0 <= k <= timelineLength - 1
    /\ (- s <= 2 * (relativeXOf timelineLength clientX boundsLeft boundsWidth
                    - (inject_Z chartPaddingLeft + inject_Z k * s)))%Q
    /\ (2 * (relativeXOf timelineLength clientX boundsLeft boundsWidth
             - (inject_Z chartPaddingLeft + inject_Z k * s)) < s)%Q.
Proof.
  intros Hl Hw Hx.
  destruct (safeIndexAt_nearest timelineLength _ Hl Hx)
    as [s [k [Es [Ek [Hk [H1 H2]]]]]].
  exists s, k. split; [exact Es|]. split; [|split; [exact Hk|split; assumption]].
  rewrite onMouseMove_relativeX by (lia || exact Hw). now rewrite Ek.
Qed.

Lemma hover_picks_nearest_point_witness :
  2 <= 5 /\ (0 < 360)%Q
  /\ (inject_Z chartPaddingLeft <= relativeXOf 5 160 10 360
      <= inject_Z (chartSvgWidth 5 - chartPaddingRight))%Q
  /\ exists s k,
       step 5 = Fin s
       /\ onMouseMove 5 160 10 360 None = Some (ofZ k)
       /\ 0 <= k <= 5 - 1
       /\ (- s <= 2 * (relativeXOf 5 160 10 360
                       - (inject_Z chartPaddingLeft + inject_Z k * s)))%Q
       /\ (2 * (relativeXOf 5 160 10 360
                - (inject_Z chartPaddingLeft + inject_Z k * s)) < s)%Q.
Proof.
  assert (H1 : 2 <= 5) by lia.
  assert (H2 : (0 < 360)%Q) by reflexivity.
  assert (H3 : (inject_Z chartPaddingLeft <= relativeXOf 5 160 10 360
                <= inject_Z (chartSvgWidth 5 - chartPaddingRight))%Q)
    by (split; vm_compute; discriminate).
  exact (conj H1 (conj H2 (conj H3
    (hover_picks_nearest_point 5 160 10 360 None H1 H2 H3)))).
Defined.

(** X13: for a series that is not empty, a pointer at or left of the plot
    gives the index 0 and a pointer at or right of the plot gives the last
    index. *)
Theorem hover_outside_plot_picks_an_end (timelineLength : Z) (relativeX : Q) :
  1 <= timelineLength ->
  ((relativeX <= inject_Z chartPaddingLeft)%Q ->
   safeIndexAt timelineLength (Fin relativeX) = ofZ 0)
  /\ ((inject_Z (chartSvgWidth timelineLength - chartPaddingRight)
       <= relativeX)%Q ->
      safeIndexAt timelineLength (Fin relativeX) = ofZ (timelineLength - 1)).
Proof.
  intro Hl.
  destruct (safeIndexAt_clamped timelineLength relativeX Hl)
    as [s [c [Es [Ps [Hs [Hb [Hc ->]]]]]]].
  pose proof (chartPlotWidth_lower timelineLength) as [W _].
  assert (Pw : (0 < inject_Z (chartPlotWidth timelineLength))%Q).
  { change 0%Q with (inject_Z 0). rewrite <- Zlt_Qlt. lia. }
  assert (Ew : (inject_Z (chartSvgWidth timelineLength - chartPaddingRight)
                == inject_Z chartPaddingLeft
                   + inject_Z (chartPlotWidth timelineLength))%Q).
  { rewrite <- inject_Z_plus. unfold chartPlotWidth.
    apply inject_Z_injective. lia. }
  split; intro Hx.
  - assert (Ec : (c == inject_Z chartPaddingLeft)%Q)
      by (destruct Hc as [E|[[E1 E2]|[E1 E2]]]; lra).
    unfold roundQ. rewrite (Qfloor_half 0).
    + f_equal. lia.
    + rewrite Ec. change (inject_Z 0) with 0%Q. field. lra.
  - rewrite Ew in Hx.
    assert (Ec : (c == inject_Z chartPaddingLeft
                       + inject_Z (chartPlotWidth timelineLength))%Q)
      by (destruct Hc as [E|[[E1 E2]|[E1 E2]]]; lra).
    unfold roundQ. rewrite (Qfloor_half (Z.max 1 (timelineLength - 1))).
    + f_equal. lia.
    + rewrite Ec, <- Hs. field. lra.
Qed.

Lemma hover_outside_plot_picks_an_end_witness :
  1 <= 68
  /\ (-5 <= inject_Z chartPaddingLeft)%Q
  /\ safeIndexAt 68 (Fin (-5)) = ofZ 0
  /\ (inject_Z (chartSvgWidth 68 - chartPaddingRight) <= 5000)%Q
  /\ safeIndexAt 68 (Fin 5000) = ofZ (68 - 1).
Proof.
  assert (H1 : 1 <= 68) by lia.
  assert (H2 : (-5 <= inject_Z chartPaddingLeft)%Q) by discriminate.
  assert (H3 : (inject_Z (chartSvgWidth 68 - chartPaddingRight) <= 5000)%Q)
    by discriminate.
  exact (conj H1 (conj H2 (conj
           (proj1 (hover_outside_plot_picks_an_end 68 (-5) H1) H2)
           (conj H3
              (proj2 (hover_outside_plot_picks_an_end 68 5000 H1) H3))))).
Defined.

(** X14: for a series that is not empty, moving the pointer to the right
    never moves the index to the left. *)
Theorem hover_index_is_monotone (timelineLength : Z) (relativeX relativeX' : Q) :
  1 <= timelineLength ->
  (relativeX <= relativeX')%Q ->
  exists k k',
    safeIndexAt timelineLength (Fin relativeX) = ofZ k
    /\ safeIndexAt timelineLength (Fin relativeX') = ofZ k'
    /\ k <= k'.
Proof.
  intros Hl Hx.
  destruct (safeIndexAt_clamped timelineLength relativeX Hl)
    as [s [c [Es [Ps [_ [Hb [Hc ->]]]]]]].
  destruct (safeIndexAt_clamped timelineLength relativeX' Hl)
    as [s' [c' [Es' [_ [_ [Hb' [Hc' ->]]]]]]].
  rewrite Es in Es'. injection Es' as <-.
  eexists. eexists. split; [reflexivity|]. split; [reflexivity|].
  assert (Hcc : (c <= c')%Q).
  { destruct Hc as [E|[[E1 E2]|[E1 E2]]];
      destruct Hc' as [E'|[[E1' E2']|[E1' E2']]]; lra. }
  apply Z.max_le_compat_l, Z.min_le_compat_l, roundQ_mono.
  apply Qmult_le_compat_r; [lra|]. apply Qlt_le_weak, Qinv_lt_0_compat, Ps.
Qed.

Lemma hover_index_is_monotone_witness :
  1 <= 68 /\ (100 <= 700)%Q
  /\ exists k k',
       safeIndexAt 68 (Fin 100) = ofZ k
       /\ safeIndexAt 68 (Fin 700) = ofZ k'
       /\ k <= k'.
Proof.
  assert (H1 : 1 <= 68) by lia.
  assert (H2 : (100 <= 700)%Q) by discriminate.
  exact (conj H1 (conj H2 (hover_index_is_monotone 68 100 700 H1 H2))).
Defined.

(** ** The hovered point and its tooltip *)

Lemma chartSvgWidth_lower (timelineLength : Z) :
  720 <= chartSvgWidth timelineLength.
Proof. unfold chartSvgWidth, chartWidth. lia. Qed.

(** The bounds of the tooltip, for each coordinate that is finite. *)
Lemma tooltip_bounds (timelineLength : Z) (p : ChartPoint) :
  (forall xq, x p = Fin xq ->
     exists l,
       tooltipLeftOf timelineLength (Some p) = Fin l
       /\ (12 <= l)%Q
       /\ (l + inject_Z tooltipWidth
           <= inject_Z (chartSvgWidth timelineLength) - 12)%Q
       /\ ((102 <= xq <= inject_Z (chartSvgWidth timelineLength) - 102)%Q ->
           (l == xq - 90)%Q))
  /\ (forall yq, y p = Fin yq ->
        exists t, tooltipTopOf (Some p) = Fin t /\ (12 <= t)%Q).
Proof.
  pose proof (chartSvgWidth_lower timelineLength) as W.
  split.
  - intros xq Ex. unfold tooltipLeftOf. rewrite Ex.
    change (div (ofZ tooltipWidth) (ofZ 2)) with (Fin (180 / 2)).
    cbn [sub neg add]. unfold Math_max at 1. unfold le, ofZ.
    set (w := inject_Z (chartSvgWidth timelineLength - tooltipWidth - 12)).
    assert (Ew : (w == inject_Z (chartSvgWidth timelineLength) + -192)%Q).
    { unfold w. change (-192)%Q with (inject_Z (-192)).
      rewrite <- inject_Z_plus. apply inject_Z_injective.
      unfold tooltipWidth. lia. }
    assert (Pw : (528 <= w)%Q).
    { rewrite Ew.
      assert (L : (inject_Z 720 <= inject_Z (chartSvgWidth timelineLength))%Q)
        by (now rewrite <- Zle_Qle).
      change (inject_Z 720) with 720%Q in L. lra. }
    change (inject_Z tooltipWidth) with 180%Q.
    change (inject_Z 12) with 12%Q.
    destruct (Qle_bool (xq + - (180 / 2)) 12) eqn:E1.
    + apply Qle_bool_iff in E1. unfold Math_min, le.
      rewrite Qle_bool_true by lra.
      exists 12%Q. split; [reflexivity|]. split; [lra|]. split; [lra|].
      intro H. assert (E : (180 / 2 == 90)%Q) by reflexivity.
      rewrite E in E1. lra.
    + assert (H1 : (12 < xq + - (180 / 2))%Q).
      { apply Qnot_le_lt. intro H. apply Qle_bool_iff in H. congruence. }
      assert (E : (180 / 2 == 90)%Q) by reflexivity.
      unfold Math_min, le.
      destruct (Qle_bool (xq + - (180 / 2)) w) eqn:E2.
      * apply Qle_bool_iff in E2. eexists. split; [reflexivity|].
        rewrite E in *. split; [lra|]. split; [lra|]. intros _.
        assert (E' : (180 / 2 == 90)%Q) by reflexivity.
        first [ring | rewrite E'; ring].
      * assert (H2 : (w < xq + - (180 / 2))%Q).
        { apply Qnot_le_lt. intro H. apply Qle_bool_iff in H. congruence. }
        exists w. split; [reflexivity|]. split; [lra|]. split; [lra|].
        intro H. rewrite E in H2. lra.
  - intros yq Ey. unfold tooltipTopOf. rewrite Ey.
    unfold sub, neg, add, ofZ, Math_max, le.
    destruct (Qle_bool (yq + - inject_Z 80) (inject_Z 12)) eqn:E1.
    + exists (inject_Z 12). split; [reflexivity|]. discriminate.
    + eexists. split; [reflexivity|].
      apply Qlt_le_weak, Qnot_le_lt. intro H.
      apply Qle_bool_iff in H. change (inject_Z 12) with 12%Q in E1.
      congruence.
Qed.

(** X15: for a hovered point with finite coordinates, the tooltip of width
    180 starts at least 12 pixels from the left edge of the canvas and ends
    at least 12 pixels from its right edge, it is centred on the point when
    the point is at least 102 pixels from both edges, and its top is at
    least 12. *)
Theorem tooltip_stays_inside (timelineLength : Z) (p : ChartPoint)
    (xq yq : Q) :
  x p = Fin xq ->
  y p = Fin yq ->
  exists l t,
    tooltipLeftOf timelineLength (Some p) = Fin l
    /\ tooltipTopOf (Some p) = Fin t
    /\ (12 <= l)%Q
    /\ (l + inject_Z tooltipWidth
        <= inject_Z (chartSvgWidth timelineLength) - 12)%Q
    /\ ((102 <= xq <= inject_Z (chartSvgWidth timelineLength) - 102)%Q ->
        (l == xq - 90)%Q)
    /\ (12 <= t)%Q.
Proof.
  intros Ex Ey.
  destruct (tooltip_bounds timelineLength p) as [Hx Hy].
  destruct (Hx xq Ex) as [l [El [L1 [L2 L3]]]].
  destruct (Hy yq Ey) as [t [Et T1]].
  exists l, t. repeat split; assumption || (apply L3).
Qed.

Lemma tooltip_stays_inside_witness :
  let p := chartPointOf 5 (Fin 25000) (mkPoint 4 (ofZ 73) false) 3 in
  x p = Fin (inject_Z 70 + inject_Z 3 * (inject_Z 626 / inject_Z 4))
  /\ y p = Fin (inject_Z 18
               + (inject_Z 1 + - (inject_Z 73 / 25000)) * inject_Z 172)
  /\ exists l t,
       tooltipLeftOf 5 (Some p) = Fin l
       /\ tooltipTopOf (Some p) = Fin t
       /\ (12 <= l)%Q
       /\ (l + inject_Z tooltipWidth <= inject_Z (chartSvgWidth 5) - 12)%Q
       /\ ((102 <= inject_Z 70 + inject_Z 3 * (inject_Z 626 / inject_Z 4)
            <= inject_Z (chartSvgWidth 5) - 102)%Q ->
           (l == inject_Z 70 + inject_Z 3 * (inject_Z 626 / inject_Z 4)
                 - 90)%Q)
       /\ (12 <= t)%Q.
Proof.
  intro p.
  assert (H1 : x p
               = Fin (inject_Z 70 + inject_Z 3 * (inject_Z 626 / inject_Z 4)))
    by reflexivity.
  assert (H2 : y p
               = Fin (inject_Z 18
                      + (inject_Z 1 + - (inject_Z 73 / 25000)) * inject_Z 172))
    by reflexivity.
  exact (conj H1 (conj H2 (tooltip_stays_inside 5 p _ _ H1 H2))).
Defined.

(** X16: for a timeline that is not empty and an element of positive width,
    the index set by the handler names a chart point: the hovered point is
    never missing, it is the point of the timeline at that index and its [x]
    is finite. *)
Theorem hover_resolves_to_a_point (timeline : list Point) (yScaleMax : num)
    (clientX boundsLeft boundsWidth : Q) (hoveredIndex : option num) :
  1 <= JS.length timeline ->
  (0 < boundsWidth)%Q ->
  exists k p xq,
    onMouseMove (JS.length timeline) clientX boundsLeft boundsWidth
                hoveredIndex = Some (ofZ k)
    /\ hoveredPointOf (chartPoints timeline yScaleMax) (Some (ofZ k)) = Some p
    /\ nth_error timeline (Z.to_nat k) = Some (point p)
    /\ x p = Fin xq.
Proof.
  intros Hl Hw. set (n := JS.length timeline) in *.
  unfold onMouseMove.
  replace (n =? 0) with false by (symmetry; apply Z.eqb_neq; lia).
  unfold ofZ at 1. rewrite div_Fin by lra. cbn [sub neg add mul].
  destruct (safeIndexAt_finite n
              ((clientX + - boundsLeft)
               * (inject_Z (chartSvgWidth n) / boundsWidth))%Q Hl)
    as [s [c [Es [_ [_ ->]]]]].
  set (k := Z.max 0 (Z.min (n - 1) _)).
  assert (Hk : 0 <= k <= n - 1) by lia.
  destruct (nth_error timeline (Z.to_nat k)) as [a|] eqn:Ea.
  2:{ apply nth_error_None in Ea. unfold n, JS.length in Hk. lia. }
  exists k. eexists. eexists. split; [reflexivity|].
  unfold hoveredPointOf. rewrite get_ofZ by lia.
  unfold chartPoints. rewrite (mapi_from_nth_some _ _ 0 _ a Ea).
  split; [reflexivity|]. split; [rewrite Ea; reflexivity|].
  unfold chartPointOf. cbn [x]. fold n. rewrite Es. reflexivity.
Qed.

Lemma hover_resolves_to_a_point_witness :
  let timeline := buildTargetCumulativeTimeline noSin 5 100 flatConfig in
  1 <= JS.length timeline /\ (0 < 360)%Q
  /\ exists k p xq,
       onMouseMove (JS.length timeline) 3000 10 360 None = Some (ofZ k)
       /\ hoveredPointOf (chartPoints timeline (ofZ 100)) (Some (ofZ k))
          = Some p
       /\ nth_error timeline (Z.to_nat k) = Some (point p)
       /\ x p = Fin xq.
Proof.
  intro timeline.
  assert (H1 : 1 <= JS.length timeline) by (vm_compute; discriminate).
  assert (H2 : (0 < 360)%Q) by reflexivity.
  exact (conj H1 (conj H2
    (hover_resolves_to_a_point timeline (ofZ 100) 3000 10 360 None H1 H2))).
Defined.

(** X30: on the chart of the dashboard, 68 days long, the handler sits on the
    rectangle of the plot, whose box starts 70 units into the chart and is
    1206 units wide.  When the chart is drawn at any zoom and any offset and
    the pointer is exactly over chart point [i], at [70 + 18 * i], the
    handler measures from the left edge of that box and rescales by its
    width, and in exact arithmetic, for every [i] from 1 to 43, the index it
    sets is below [i]: the tooltip trails the pointer. *)
Theorem hover_trails_the_pointer (zoom left : Q) (i : Z)
    (hoveredIndex : option num) :
  (0 < zoom)%Q ->
  1 <= i <= 43 ->
  exists k,
    onMouseMove historyLength
      (left + zoom * (inject_Z chartPaddingLeft + inject_Z i * 18))
      (left + zoom * inject_Z chartPaddingLeft)
      (zoom * inject_Z (chartPlotWidth historyLength))
      hoveredIndex
    = Some (ofZ k)
    /\ 0 <= k < i.
Proof.
  intros Hz Hi.
  assert (Hw : (0 < zoom * inject_Z (chartPlotWidth historyLength))%Q).
  { change (inject_Z (chartPlotWidth historyLength)) with 1206%Q. lra. }
  rewrite onMouseMove_relativeX by (unfold historyLength; lia || exact Hw).
  set (r := relativeXOf _ _ _ _).
  assert (Er : (r * 1206 == inject_Z i * 18 * 1300)%Q).
  { unfold r, relativeXOf.
    change (inject_Z (chartSvgWidth historyLength)) with 1300%Q.
    change (inject_Z (chartPlotWidth historyLength)) with 1206%Q.
    change (inject_Z chartPaddingLeft) with 70%Q.
    field. lra. }
  destruct (safeIndexAt_clamped historyLength r ltac:(unfold historyLength; lia))
    as [s [c [Es [Ps [Hs [Hb [Hc ->]]]]]]].
  change (inject_Z (Z.max 1 (historyLength - 1))) with 67%Q in Hs.
  change (inject_Z (chartPlotWidth historyLength)) with 1206%Q in Hs, Hb, Hc.
  change (inject_Z chartPaddingLeft) with 70%Q in Hb, Hc |- *.
  assert (Hs18 : (s == 18)%Q) by lra.
  set (q := ((c - 70) / s)%Q).
  assert (Eq : (q * 18 == c - 70)%Q).
  { unfold q. rewrite Hs18. field. }
  pose proof (Qfloor_le (q + (1 # 2))) as F1.
  pose proof (Qlt_floor (q + (1 # 2))) as F2.
  fold (roundQ q) in F1, F2.
  rewrite inject_Z_plus in F2. change (inject_Z 1) with 1%Q in F2.
  assert (Qi : (1 <= inject_Z i <= 43)%Q).
  { change 1%Q with (inject_Z 1). change 43%Q with (inject_Z 43).
    rewrite <- !Zle_Qle. exact Hi. }
  assert (Hr : roundQ q < i).
  { rewrite Zlt_Qlt. revert F1 Er Qi.
    generalize (inject_Z (roundQ q)) (inject_Z i). intros u v F1 Er Qi.
    destruct Hc as [E|[[E1 E2]|[E1 E2]]]; lra. }
  exists (Z.max 0 (Z.min (historyLength - 1) (roundQ q))).
  split; [reflexivity|]. unfold historyLength. lia.
Qed.

Lemma hover_trails_the_pointer_witness :
  (0 < 1)%Q /\ 1 <= 10 <= 43
  /\ exists k,
       onMouseMove historyLength
         (0 + 1 * (inject_Z chartPaddingLeft + inject_Z 10 * 18))
         (0 + 1 * inject_Z chartPaddingLeft)
         (1 * inject_Z (chartPlotWidth historyLength))
         None
       = Some (ofZ k)
       /\ 0 <= k < 10.
Proof.
  assert (H1 : (0 < 1)%Q) by reflexivity.
  assert (H2 : 1 <= 10 <= 43) by lia.
  exact (conj H1 (conj H2 (hover_trails_the_pointer 1 0 10 None H1 H2))).
Defined.

(** ** The date ticks: order and range *)

Lemma tickOffsetsOf_value (fuel : nat) (tickInterval timelineLength : Z) :
  1 <= timelineLength ->
  1 <= tickInterval ->
  (Z.to_nat timelineLength < fuel)%nat ->
  tickOffsetsOf fuel tickInterval timelineLength
  = Some (multiplesBelow tickInterval timelineLength
          ++ (if last (multiplesBelow tickInterval timelineLength) 0
                 =? timelineLength - 1
              then [] else [timelineLength - 1])).
Proof.
  intros Hl Ht Hf. unfold tickOffsetsOf.
  rewrite (tickLoop_multiples fuel tickInterval timelineLength Hl Ht Hf).
  destruct (multiplesBelow_last tickInterval timelineLength Hl Ht) as [E _].
  cbv zeta in E. rewrite E.
  replace (timelineLength >? 0) with true by (symmetry; apply Z.gtb_lt; lia).
  cbn [andb strictNe].
  destruct (last (multiplesBelow tickInterval timelineLength) 0
            =? timelineLength - 1); cbn [negb]; [|reflexivity].
  now rewrite app_nil_r.
Qed.

Lemma multiplesBelow_nth (tickInterval timelineLength : Z) (i : nat) (a : Z) :
  nth_error (multiplesBelow tickInterval timelineLength) i = Some a ->
  a = Z.of_nat i * tickInterval.
Proof.
  unfold multiplesBelow. rewrite nth_error_map.
  destruct (nth_error (seq 0 _) i) as [k|] eqn:E; [|discriminate].
  intro H. injection H as <-.
  assert (Hi : (i < List.length
                      (seq 0 (Z.to_nat ((timelineLength - 1) / tickInterval
                                        + 1))))%nat).
  { apply nth_error_Some. rewrite E. discriminate. }
  rewrite length_seq in Hi.
  rewrite (nth_error_nth' _ 0%nat) in E by (now rewrite length_seq).
  rewrite seq_nth in E by exact Hi. injection E as <-. reflexivity.
Qed.

Lemma multiplesBelow_ascending (tickInterval timelineLength : Z) :
  1 <= tickInterval ->
  strictlyAscending (multiplesBelow tickInterval timelineLength).
Proof.
  intros Ht i j a b Hij Ha Hb.
  apply multiplesBelow_nth in Ha, Hb. subst a b. nia.
Qed.

Lemma strictlyAscending_snoc (l : list Z) (z : Z) :
  strictlyAscending l ->
  (forall a, In a l -> a < z) ->
  strictlyAscending (l ++ [z]).
Proof.
  intros Hl Hz i j a b Hij Ha Hb.
  assert (Hj : (j < List.length (l ++ [z]))%nat).
  { apply nth_error_Some. rewrite Hb. discriminate. }
  rewrite length_app in Hj. cbn [List.length] in Hj.
  rewrite nth_error_app1 in Ha by lia.
  destruct (Nat.eq_dec j (List.length l)) as [->|Hne].
  - rewrite nth_error_app2 in Hb by lia.
    rewrite Nat.sub_diag in Hb. injection Hb as <-.
    apply Hz. eapply nth_error_In. exact Ha.
  - rewrite nth_error_app1 in Hb by lia. exact (Hl i j a b Hij Ha Hb).
Qed.

(** The offsets for a series that is not empty: in ascending order, from 0
    to the last index. *)
Lemma tickOffsets_shape (fuel : nat) (tickInterval timelineLength : Z) :
  1 <= timelineLength ->
  1 <= tickInterval ->
  (Z.to_nat timelineLength < fuel)%nat ->
  exists tickOffsets,
    tickOffsetsOf fuel tickInterval timelineLength = Some tickOffsets
    /\ strictlyAscending tickOffsets
    /\ hd_error tickOffsets = Some 0
    /\ last tickOffsets 0 = timelineLength - 1
    /\ Forall (fun offset => 0 <= offset <= timelineLength - 1) tickOffsets.
Proof.
  intros Hl Ht Hf.
  rewrite (tickOffsetsOf_value fuel tickInterval timelineLength Hl Ht Hf).
  eexists. split; [reflexivity|].
  set (m := multiplesBelow tickInterval timelineLength).
  assert (Hm : Forall (fun offset => 0 <= offset <= timelineLength - 1) m).
  { apply Forall_forall. intros a Ha.
    apply (multiplesBelow_spec tickInterval timelineLength a Ht Hl) in Ha.
    exact (proj1 Ha). }
  assert (Hh : hd_error m = Some 0).
  { unfold m, multiplesBelow.
    assert (Q0 : 0 <= (timelineLength - 1) / tickInterval)
      by (apply Z.div_pos; lia).
    replace (Z.to_nat ((timelineLength - 1) / tickInterval + 1))
      with (S (Z.to_nat ((timelineLength - 1) / tickInterval))) by lia.
    reflexivity. }
  destruct (last m 0 =? timelineLength - 1) eqn:E.
  - apply Z.eqb_eq in E. rewrite app_nil_r.
    split; [now apply multiplesBelow_ascending|].
    split; [exact Hh|]. split; [exact E|exact Hm].
  - apply Z.eqb_neq in E.
    destruct (multiplesBelow_last tickInterval timelineLength Hl Ht)
      as [_ El]. cbv zeta in El. fold m in El.
    pose proof (Z.mul_div_le (timelineLength - 1) tickInterval ltac:(lia)) as M.
    split; [|split; [|split]].
    + apply strictlyAscending_snoc; [now apply multiplesBelow_ascending|].
      intros a Ha. fold m in Ha.
      apply In_nth_error in Ha. destruct Ha as [i Hi].
      assert (Hlen : (i < List.length m)%nat).
      { apply nth_error_Some. rewrite Hi. discriminate. }
      pose proof (multiplesBelow_nth _ _ _ _ Hi) as ->.
      unfold m, multiplesBelow in Hlen. rewrite length_map, length_seq in Hlen.
      assert (Q0 : 0 <= (timelineLength - 1) / tickInterval)
        by (apply Z.div_pos; lia).
      assert (Z.of_nat i <= (timelineLength - 1) / tickInterval) by lia.
      nia.
    + destruct m as [|a m']; [discriminate|exact Hh].
    + apply last_last.
    + apply Forall_app. split; [exact Hm|]. constructor; [lia|constructor].
Qed.

(** X17: for a series that is not empty and an interval of at least 1, with
    fuel for the loop, the offsets of the ticks are in strictly ascending
    order (no index is labelled twice), start at 0, end on the last index
    and all lie between 0 and [timelineLength - 1]. *)
Theorem tick_offsets_ascend_within_range (fuel : nat)
    (tickInterval timelineLength : Z) :
  1 <= timelineLength ->
  1 <= tickInterval ->
  (Z.to_nat timelineLength < fuel)%nat ->
  exists tickOffsets,
    tickOffsetsOf fuel tickInterval timelineLength = Some tickOffsets
    /\ strictlyAscending tickOffsets
    /\ hd_error tickOffsets = Some 0
    /\ last tickOffsets 0 = timelineLength - 1
    /\ Forall (fun offset => 0 <= offset <= timelineLength - 1) tickOffsets.
Proof. exact (tickOffsets_shape fuel tickInterval timelineLength). Qed.

Lemma tick_offsets_ascend_within_range_witness :
  1 <= 30 /\ 1 <= 7 /\ (Z.to_nat 30 < 40)%nat
  /\ exists tickOffsets,
       tickOffsetsOf 40 7 30 = Some tickOffsets
       /\ strictlyAscending tickOffsets
       /\ hd_error tickOffsets = Some 0
       /\ last tickOffsets 0 = 30 - 1
       /\ Forall (fun offset => 0 <= offset <= 30 - 1) tickOffsets.
Proof.
  assert (H1 : 1 <= 30) by lia.
  assert (H2 : 1 <= 7) by lia.
  assert (H3 : (Z.to_nat 30 < 40)%nat) by (vm_compute; lia).
  exact (conj H1 (conj H2 (conj H3
           (tick_offsets_ascend_within_range 40 7 30 H1 H2 H3)))).
Defined.

(** X18: for a timeline that is not empty, with fuel for the loop, every
    tick of the horizontal axis names a chart point, the one of the
    timeline point at its index: the lookup [chartPoints[tick.index]] is
    never [undefined]. *)
Theorem every_tick_names_a_chart_point (fuel : nat) (timeline : list Point)
    (yScaleMax : num) :
  1 <= JS.length timeline ->
  (Z.to_nat (JS.length timeline) < fuel)%nat ->
  exists ticks,
    xAxisTicks fuel (JS.length timeline) = Some ticks
    /\ forall tick, In tick ticks ->
         exists p,
           getZ (chartPoints timeline yScaleMax) (index tick) = Some p
           /\ nth_error timeline (Z.to_nat (index tick)) = Some (point p).
Proof.
  intros Hl Hf. set (n := JS.length timeline) in *.
  destruct (tickOffsets_shape fuel tickInterval n Hl
              ltac:(unfold tickInterval; lia) Hf)
    as [offs [E [_ [_ [_ Hr]]]]].
  unfold xAxisTicks. rewrite E. eexists. split; [reflexivity|].
  intros tick Ht. apply in_map_iff in Ht. destruct Ht as [o [<- Ho]].
  rewrite Forall_forall in Hr. specialize (Hr o Ho). cbn [tickOf index].
  destruct (nth_error timeline (Z.to_nat o)) as [a|] eqn:Ea.
  2:{ apply nth_error_None in Ea. unfold n, JS.length in Hr. lia. }
  unfold getZ. replace (o <? 0) with false by (symmetry; apply Z.ltb_ge; lia).
  unfold chartPoints. rewrite (mapi_from_nth_some _ _ 0 _ a Ea).
  eexists. split; reflexivity.
Qed.

Lemma every_tick_names_a_chart_point_witness :
  let timeline := buildTargetCumulativeTimeline noSin 9 100 flatConfig in
  1 <= JS.length timeline
  /\ (Z.to_nat (JS.length timeline) < 20)%nat
  /\ exists ticks,
       xAxisTicks 20 (JS.length timeline) = Some ticks
       /\ forall tick, In tick ticks ->
            exists p,
              getZ (chartPoints timeline (ofZ 100)) (index tick) = Some p
              /\ nth_error timeline (Z.to_nat (index tick)) = Some (point p).
Proof.
  intro timeline.
  assert (H1 : 1 <= JS.length timeline) by (vm_compute; discriminate).
  assert (H2 : (Z.to_nat (JS.length timeline) < 20)%nat)
    by (vm_compute; lia).
  exact (conj H1 (conj H2
           (every_tick_names_a_chart_point 20 timeline (ofZ 100) H1 H2))).
Defined.

(** ** The file tree of the editor *)

Module FileTreeFacts.

Import FileTree.

Lemma find_app {A : Type} (f : A -> bool) (l1 l2 : list A) :
  find f (l1 ++ l2)
  = match find f l1 with Some a => Some a | None => find f l2 end.
Proof.
  induction l1 as [|a l1 IH]; [reflexivity|].
  simpl. destruct (f a); [reflexivity|exact IH].
Qed.

(** The loop of [findIn] over the children is [findFile]: a turn of the loop
    returns the node when its id is the one looked for, and otherwise what
    the search in its children returns. *)
Lemma findIn_eq (node : FileNode) (sel : string) :
  findIn node sel
  = if String.eqb (id node) sel then Some node
    else match children node with
         | Some l => findFile l sel
         | None => None
         end.
Proof.
  destruct node as [i n t o c p ch]. cbn [findIn id children].
  destruct (String.eqb i sel); [reflexivity|].
  destruct ch as [l|]; [|reflexivity].
  induction l as [|a l IH]; [reflexivity|].
  cbn [findFile]. destruct (findIn a sel); [reflexivity|exact IH].
Qed.

Lemma findFile_flatten (sel : string) (nodes : list FileNode) :
  findFile nodes sel
  = find (fun n => String.eqb (id n) sel) (flatten nodes).
Proof.
  assert (N : forall node,
             findIn node sel
             = find (fun n => String.eqb (id n) sel) (flattenNode node)).
  { induction node as [i n t o c p|i n t o c p l IH] using FileNode_tree_ind;
      rewrite findIn_eq; cbn [id children flattenNode find].
    - now destruct (String.eqb i sel).
    - destruct (String.eqb i sel); [reflexivity|].
      induction IH as [|a l Ha _ IHl]; [reflexivity|].
      cbn [findFile flat_map]. rewrite find_app, <- Ha.
      destruct (findIn a sel); [reflexivity|exact IHl]. }
  unfold flatten. induction nodes as [|a nodes IH]; [reflexivity|].
  cbn [findFile flat_map]. rewrite find_app, <- N.
  destruct (findIn a sel); [reflexivity|exact IH].
Qed.

(** X19: [findFile] returns the first node, in the order of the document,
    whose id is the one looked for: the node it returns has this id and is
    in the tree, and it returns [null] exactly when no node of the tree has
    this id. *)
Theorem findFile_returns_first_match (nodes : list FileNode) (sel : string) :
  findFile nodes sel = find (fun n => String.eqb (id n) sel) (flatten nodes)
  /\ (forall found, findFile nodes sel = Some found ->
        id found = sel /\ In found (flatten nodes))
  /\ (findFile nodes sel = None
      <-> forall n, In n (flatten nodes) -> id n <> sel).
Proof.
  rewrite findFile_flatten. split; [reflexivity|]. split.
  - intros found H. apply find_some in H. destruct H as [H1 H2].
    split; [now apply String.eqb_eq|exact H1].
  - split.
    + intros H n Hn E. pose proof (find_none _ _ H n Hn) as F.
      cbv beta in F. apply String.eqb_neq in F. contradiction.
    + intro H. destruct (find _ (flatten nodes)) as [n|] eqn:E;
        [|reflexivity].
      apply find_some in E. destruct E as [E1 E2].
      apply String.eqb_eq in E2. exfalso. exact (H n E1 E2).
Qed.

Section Update.

Variables (change : FileNode -> FileNode) (sel : string).
Hypothesis change_id : forall n, id (change n) = id n.
Hypothesis change_children : forall n, children (change n) = children n.

Lemma updateNode_eq (node : FileNode) :
  updateNode change sel node
  = if String.eqb (id node) sel then change node
    else match children node with
         | Some l =>
             mkFileNode (id node) (name node) (type node) (isOpen node)
                        (content node) (publishConfig node)
                        (Some (updateNodes change sel l))
         | None => node
         end.
Proof. destruct node as [i n t o c p [l|]]; reflexivity. Qed.

(** After the update the search for the selected id returns the changed
    copy of what it returned before. *)
Lemma findFile_updateNodes (nodes : list FileNode) :
  findFile (updateNodes change sel nodes) sel
  = option_map change (findFile nodes sel).
Proof.
  assert (L : forall l,
             Forall (fun node =>
                       findIn (updateNode change sel node) sel
                       = option_map change (findIn node sel)) l ->
             findFile (updateNodes change sel l) sel
             = option_map change (findFile l sel)).
  { induction 1 as [|a l Ha _ IH]; [reflexivity|].
    cbn [updateNodes map findFile]. rewrite Ha.
    destruct (findIn a sel); [reflexivity|exact IH]. }
  apply L. apply Forall_forall. intros node _.
  induction node as [i n t o c p|i n t o c p l IH] using FileNode_tree_ind;
    rewrite updateNode_eq, (findIn_eq (mkFileNode _ _ _ _ _ _ _));
    cbn [id children name type isOpen content publishConfig];
    destruct (String.eqb i sel) eqn:E.
  - rewrite findIn_eq, change_id. cbn [id]. now rewrite E.
  - rewrite findIn_eq. cbn [id children]. now rewrite E.
  - rewrite findIn_eq, change_id. cbn [id]. now rewrite E.
  - rewrite findIn_eq. cbn [id children]. rewrite E. now apply L.
Qed.

(** The search for another id returns a node with the same fields. *)
Lemma findFile_updateNodes_other (sel' : string) (nodes : list FileNode) :
  sel' <> sel ->
  option_map ownFields (findFile (updateNodes change sel nodes) sel')
  = option_map ownFields (findFile nodes sel').
Proof.
  intro Hne.
  assert (L : forall l,
             Forall (fun node =>
                       option_map ownFields
                         (findIn (updateNode change sel node) sel')
                       = option_map ownFields (findIn node sel')) l ->
             option_map ownFields (findFile (updateNodes change sel l) sel')
             = option_map ownFields (findFile l sel')).
  { induction 1 as [|a l Ha _ IH]; [reflexivity|].
    cbn [updateNodes map findFile].
    destruct (findIn (updateNode change sel a) sel') as [f'|];
      destruct (findIn a sel') as [f|]; try discriminate Ha.
    - exact Ha.
    - exact IH. }
  apply L. apply Forall_forall. intros node _.
  induction node as [i n t o c p|i n t o c p l IH] using FileNode_tree_ind;
    rewrite updateNode_eq, (findIn_eq (mkFileNode _ _ _ _ _ _ _));
    cbn [id children name type isOpen content publishConfig];
    destruct (String.eqb i sel) eqn:E.
  - apply String.eqb_eq in E. subst i.
    rewrite findIn_eq, change_id, change_children. cbn [id children].
    now rewrite (proj2 (String.eqb_neq _ _) (not_eq_sym Hne)).
  - rewrite findIn_eq. reflexivity.
  - apply String.eqb_eq in E. subst i.
    rewrite findIn_eq, change_id, change_children. cbn [id children].
    now rewrite (proj2 (String.eqb_neq _ _) (not_eq_sym Hne)).
  - rewrite findIn_eq. cbn [id children].
    destruct (String.eqb i sel'); [reflexivity|]. now apply L.
Qed.

(** The ids of the tree, in the order of the document, are kept. *)
Lemma flatten_updateNodes_ids (nodes : list FileNode) :
  map id (flatten (updateNodes change sel nodes)) = map id (flatten nodes).
Proof.
  assert (L : forall l,
             Forall (fun node =>
                       map id (flattenNode (updateNode change sel node))
                       = map id (flattenNode node)) l ->
             map id (flatten (updateNodes change sel l))
             = map id (flatten l)).
  { induction 1 as [|a l Ha _ IH]; [reflexivity|].
    unfold flatten, updateNodes in *. cbn [map flat_map].
    now rewrite !map_app, Ha, IH. }
  apply L. apply Forall_forall. intros node _.
  induction node as [i n t o c p|i n t o c p l IH] using FileNode_tree_ind;
    rewrite updateNode_eq;
    cbn [id children name type isOpen content publishConfig];
    destruct (String.eqb i sel) eqn:E; try reflexivity.
  - pose proof (change_id (mkFileNode i n t o c p None)) as Hi.
    pose proof (change_children (mkFileNode i n t o c p None)) as Hc.
    destruct (change (mkFileNode i n t o c p None)) as [i' n' t' o' c' p' ch'].
    cbn [id children] in Hi, Hc. subst. reflexivity.
  - pose proof (change_id (mkFileNode i n t o c p (Some l))) as Hi.
    pose proof (change_children (mkFileNode i n t o c p (Some l))) as Hc.
    destruct (change (mkFileNode i n t o c p (Some l)))
      as [i' n' t' o' c' p' ch'].
    cbn [id children] in Hi, Hc. subst. reflexivity.
  - cbn [flattenNode map]. f_equal. exact (L l IH).
Qed.

End Update.

(** When no node has the selected id the update returns the tree as it
    is. *)
Lemma updateNodes_absent (change : FileNode -> FileNode) (sel : string)
    (nodes : list FileNode) :
  findFile nodes sel = None -> updateNodes change sel nodes = nodes.
Proof.
  assert (L : forall l,
             Forall (fun node =>
                       findIn node sel = None ->
                       updateNode change sel node = node) l ->
             findFile l sel = None -> updateNodes change sel l = l).
  { induction 1 as [|a l Ha _ IH]; [reflexivity|].
    cbn [findFile updateNodes map].
    destruct (findIn a sel) eqn:E; [discriminate|].
    intro H. rewrite (Ha eq_refl). f_equal. exact (IH H). }
  apply L. apply Forall_forall. intros node _.
  induction node as [i n t o c p|i n t o c p l IH] using FileNode_tree_ind;
    rewrite findIn_eq; cbn [id children updateNode];
    destruct (String.eqb i sel); try discriminate; try reflexivity.
  intro H. f_equal. f_equal. exact (L l IH H).
Qed.

Lemma withContent_id (c : string) (n : FileNode) : id (withContent c n) = id n.
Proof. reflexivity. Qed.

Lemma withContent_children (c : string) (n : FileNode) :
  children (withContent c n) = children n.
Proof. reflexivity. Qed.

Lemma withPublishConfig_id (c : PublishConfig) (n : FileNode) :
  id (withPublishConfig c n) = id n.
Proof. reflexivity. Qed.

Lemma withPublishConfig_children (c : PublishConfig) (n : FileNode) :
  children (withPublishConfig c n) = children n.
Proof. reflexivity. Qed.

(** X20: when the selected id is not empty and names a text file, and there
    is an editor, the search for this id in the saved tree returns the file
    it returned before with the content of the editor, its other fields and
    its children kept. *)
Theorem saved_content_is_found (files : list FileNode) (sel : string)
    (serializedContent : string) (selectedFile : FileNode) :
  truthyString sel = true ->
  findFile files sel = Some selectedFile ->
  type selectedFile = text ->
  findFile (handleSaveContent files (Some sel) (Some serializedContent)) sel
  = Some (withContent serializedContent selectedFile).
Proof.
  intros Ht Hf Hty. unfold handleSaveContent, selectedFileOf.
  rewrite Ht, Hf, Hty. cbn [isText].
  rewrite findFile_updateNodes by apply withContent_id.
  now rewrite Hf.
Qed.

Lemma saved_content_is_found_witness :
  truthyString "doc_1" = true
  /\ findFile sampleFiles "doc_1"
     = Some (mkFileNode "doc_1" "a.md" text None (Some "<p>a</p>"%string)
                        None None)
  /\ type (mkFileNode "doc_1" "a.md" text None (Some "<p>a</p>"%string)
                      None None) = text
  /\ findFile (handleSaveContent sampleFiles (Some "doc_1"%string)
                                 (Some "<h1>b</h1>"%string)) "doc_1"
     = Some (withContent "<h1>b</h1>"
               (mkFileNode "doc_1" "a.md" text None (Some "<p>a</p>"%string)
                           None None)).
Proof.
  assert (H1 : truthyString "doc_1" = true) by reflexivity.
  assert (H2 : findFile sampleFiles "doc_1"
               = Some (mkFileNode "doc_1" "a.md" text None
                                  (Some "<p>a</p>"%string) None None))
    by reflexivity.
  assert (H3 : type (mkFileNode "doc_1" "a.md" text None
                                (Some "<p>a</p>"%string) None None) = text)
    by reflexivity.
  exact (conj H1 (conj H2 (conj H3
           (saved_content_is_found sampleFiles "doc_1" "<h1>b</h1>" _
              H1 H2 H3)))).
Defined.

(** X21: when the selected id is not empty and names a file, the search for
    this id in the published tree returns the file it returned before with
    the edited settings, marked as published. *)
Theorem published_config_is_found (files : list FileNode) (sel : string)
    (tempPublishConfig : PublishConfig) (selectedFile : FileNode) :
  truthyString sel = true ->
  findFile files sel = Some selectedFile ->
  exists configToSave,
    findFile (handlePublish files (Some sel) tempPublishConfig) sel
    = Some (withPublishConfig configToSave selectedFile)
    /\ isPublished configToSave = true
    /\ textCost configToSave = textCost tempPublishConfig
    /\ audioCost configToSave = audioCost tempPublishConfig
    /\ permissions configToSave = permissions tempPublishConfig.
Proof.
  intros Ht Hf. unfold handlePublish. rewrite Ht. cbv zeta.
  eexists. split.
  - rewrite findFile_updateNodes by apply withPublishConfig_id.
    rewrite Hf. reflexivity.
  - repeat split.
Qed.

Lemma published_config_is_found_witness :
  truthyString "img_1" = true
  /\ findFile sampleFiles "img_1"
     = Some (mkFileNode "img_1" "b.png" image None
               (Some "https://picsum.photos/600/400"%string) None None)
  /\ exists configToSave,
       findFile (handlePublish sampleFiles (Some "img_1"%string)
                               getDefaultPublishConfig) "img_1"
       = Some (withPublishConfig configToSave
                 (mkFileNode "img_1" "b.png" image None
                    (Some "https://picsum.photos/600/400"%string) None None))
       /\ isPublished configToSave = true
       /\ textCost configToSave = textCost getDefaultPublishConfig
       /\ audioCost configToSave = audioCost getDefaultPublishConfig
       /\ permissions configToSave = permissions getDefaultPublishConfig.
Proof.
  assert (H1 : truthyString "img_1" = true) by reflexivity.
  assert (H2 : findFile sampleFiles "img_1"
               = Some (mkFileNode "img_1" "b.png" image None
                         (Some "https://picsum.photos/600/400"%string)
                         None None))
    by reflexivity.
  exact (conj H1 (conj H2
           (published_config_is_found sampleFiles "img_1"
              getDefaultPublishConfig _ H1 H2))).
Defined.

(** X22: saving and publishing keep the ids of the tree and their order,
    and for every id other than the selected one the search returns a node
    with the same fields as before. *)
Theorem handlers_keep_the_other_files (files : list FileNode)
    (selectedFileId : option string) (editor : option string)
    (tempPublishConfig : PublishConfig) (sel' : string) :
  selectedFileId <> Some sel' ->
  map id (flatten (handleSaveContent files selectedFileId editor))
  = map id (flatten files)
  /\ map id (flatten (handlePublish files selectedFileId tempPublishConfig))
     = map id (flatten files)
  /\ option_map ownFields
       (findFile (handleSaveContent files selectedFileId editor) sel')
     = option_map ownFields (findFile files sel')
  /\ option_map ownFields
       (findFile (handlePublish files selectedFileId tempPublishConfig) sel')
     = option_map ownFields (findFile files sel').
Proof.
  intro Hne. unfold handleSaveContent, handlePublish.
  destruct selectedFileId as [sel|]; [|repeat split].
  assert (Hs : sel' <> sel) by congruence.
  destruct (truthyString sel) eqn:Ht.
  2:{ destruct editor; repeat split. }
  cbv zeta. split; [|split; [|split]].
  - destruct editor as [html|]; [|reflexivity].
    destruct (selectedFileOf files (Some sel)) as [f|]; [|reflexivity].
    destruct (isText (type f)); [|reflexivity].
    apply flatten_updateNodes_ids;
      [apply withContent_id|apply withContent_children].
  - apply flatten_updateNodes_ids;
      [apply withPublishConfig_id|apply withPublishConfig_children].
  - destruct editor as [html|]; [|reflexivity].
    destruct (selectedFileOf files (Some sel)) as [f|]; [|reflexivity].
    destruct (isText (type f)); [|reflexivity].
    apply findFile_updateNodes_other;
      [apply withContent_id|apply withContent_children|exact Hs].
  - apply findFile_updateNodes_other;
      [apply withPublishConfig_id|apply withPublishConfig_children|exact Hs].
Qed.

Lemma handlers_keep_the_other_files_witness :
  Some "doc_1"%string <> Some "doc_2"%string
  /\ map id (flatten (handleSaveContent sampleFiles (Some "doc_1"%string)
                                        (Some "<h1>b</h1>"%string)))
     = map id (flatten sampleFiles)
  /\ map id (flatten (handlePublish sampleFiles (Some "doc_1"%string)
                                    getDefaultPublishConfig))
     = map id (flatten sampleFiles)
  /\ option_map ownFields
       (findFile (handleSaveContent sampleFiles (Some "doc_1"%string)
                                    (Some "<h1>b</h1>"%string)) "doc_2")
     = option_map ownFields (findFile sampleFiles "doc_2")
  /\ option_map ownFields
       (findFile (handlePublish sampleFiles (Some "doc_1"%string)
                                getDefaultPublishConfig) "doc_2")
     = option_map ownFields (findFile sampleFiles "doc_2").
Proof.
  assert (H1 : Some "doc_1"%string <> Some "doc_2"%string) by discriminate.
  exact (conj H1
           (handlers_keep_the_other_files sampleFiles (Some "doc_1"%string)
              (Some "<h1>b</h1>"%string) getDefaultPublishConfig "doc_2" H1)).
Defined.

(** X23: when no node of the tree has the selected id, publishing and
    saving return the tree as it is. *)
Theorem unknown_id_changes_nothing (files : list FileNode) (sel : string)
    (editor : option string) (tempPublishConfig : PublishConfig) :
  findFile files sel = None ->
  handlePublish files (Some sel) tempPublishConfig = files
  /\ handleSaveContent files (Some sel) editor = files.
Proof.
  intro H. unfold handlePublish, handleSaveContent, selectedFileOf.
  destruct (truthyString sel); [|destruct editor; split; reflexivity].
  cbv zeta. rewrite H. split.
  - now apply updateNodes_absent.
  - destruct editor; reflexivity.
Qed.

Lemma unknown_id_changes_nothing_witness :
  findFile sampleFiles "doc_9" = None
  /\ handlePublish sampleFiles (Some "doc_9"%string) getDefaultPublishConfig
     = sampleFiles
  /\ handleSaveContent sampleFiles (Some "doc_9"%string)
                       (Some "<p></p>"%string)
     = sampleFiles.
Proof.
  assert (H1 : findFile sampleFiles "doc_9" = None) by reflexivity.
  exact (conj H1
           (unknown_id_changes_nothing sampleFiles "doc_9"
              (Some "<p></p>"%string) getDefaultPublishConfig H1)).
Defined.

End FileTreeFacts.

(** ** Escaping of HTML *)

Ltac each_ascii a :=
  destruct a as [[|] [|] [|] [|] [|] [|] [|] [|]].

Lemma escapeHtml_cons (a : ascii) (rest : string) :
  escapeHtml (String a rest) = (escapeChar a ++ escapeHtml rest)%string.
Proof. each_ascii a; reflexivity. Qed.

Lemma escapeHtml_escapeEach (value : string) :
  escapeHtml value = escapeEach value.
Proof.
  induction value as [|a rest IH]; [reflexivity|].
  rewrite escapeHtml_cons, IH. reflexivity.
Qed.

Lemma escapeEach_app (s t : string) :
  escapeEach (s ++ t) = (escapeEach s ++ escapeEach t)%string.
Proof.
  induction s as [|a s IH]; [reflexivity|].
  cbn [String.append escapeEach]. rewrite IH.
  generalize (escapeChar a). intro e.
  induction e as [|b e IHe]; [reflexivity|].
  cbn [String.append]. now rewrite IHe.
Qed.

(** X24: the five replacements in a row amount to one pass that replaces
    each character by its own text, [&] by [&amp;] included: the [&] that an
    earlier replacement has written is not escaped again.  Hence the escaped
    form of two texts put together is the escaped forms put together. *)
Theorem escapeHtml_is_one_pass (value other : string) :
  escapeHtml value = escapeEach value
  /\ escapeHtml (value ++ other)
     = (escapeHtml value ++ escapeHtml other)%string.
Proof.
  split; [apply escapeHtml_escapeEach|].
  rewrite !escapeHtml_escapeEach. apply escapeEach_app.
Qed.

Lemma occurs_app (c : ascii) (s t : string) :
  occurs c (s ++ t) = occurs c s || occurs c t.
Proof.
  induction s as [|a s IH]; [reflexivity|].
  cbn [String.append occurs]. rewrite IH. now rewrite orb_assoc.
Qed.

Lemma escapeChar_clean (a : ascii) :
  occurs "<" (escapeChar a) = false
  /\ occurs ">" (escapeChar a) = false
  /\ occurs doubleQuote (escapeChar a) = false
  /\ occurs "'" (escapeChar a) = false.
Proof. each_ascii a; repeat split. Qed.

(** X25: an escaped text holds none of the characters [<], [>], the double
    quote and the single quote. *)
Theorem escapeHtml_leaves_no_markup (value : string) :
  occurs "<" (escapeHtml value) = false
  /\ occurs ">" (escapeHtml value) = false
  /\ occurs doubleQuote (escapeHtml value) = false
  /\ occurs "'" (escapeHtml value) = false.
Proof.
  rewrite escapeHtml_escapeEach.
  induction value as [|a rest [I1 [I2 [I3 I4]]]]; [repeat split|].
  cbn [escapeEach]. rewrite !occurs_app, I1, I2, I3, I4.
  destruct (escapeChar_clean a) as [-> [-> [-> ->]]]. repeat split.
Qed.

Lemma escapeChar_cases (a : ascii) :
  escapeChar a = "&amp;"%string
  \/ escapeChar a = "&lt;"%string
  \/ escapeChar a = "&gt;"%string
  \/ escapeChar a = "&quot;"%string
  \/ escapeChar a = "&#039;"%string
  \/ (escapeChar a = String a EmptyString /\ a <> "&"%char).
Proof.
  each_ascii a;
    first [ left; reflexivity
          | right; left; reflexivity
          | right; right; left; reflexivity
          | right; right; right; left; reflexivity
          | right; right; right; right; left; reflexivity
          | right; right; right; right; right; split;
            [reflexivity|discriminate] ].
Qed.

Lemma escapeChar_injective (a b : ascii) :
  escapeChar a = escapeChar b -> a = b.
Proof.
  intro H.
  assert (D : forall c : ascii,
             c = "&"%char \/ c = "<"%char \/ c = ">"%char
             \/ c = doubleQuote \/ c = "'"%char
             \/ escapeChar c = String c EmptyString).
  { intro c. each_ascii c; tauto. }
  destruct (D a) as [->|[->|[->|[->|[->|Ea]]]]];
    destruct (D b) as [->|[->|[->|[->|[->|Eb]]]]];
    try reflexivity; try discriminate H.
  - rewrite Eb in H. cbv in H. now injection H.
  - rewrite Eb in H. cbv in H. now injection H.
  - rewrite Eb in H. cbv in H. now injection H.
  - rewrite Eb in H. cbv in H. now injection H.
  - rewrite Eb in H. cbv in H. now injection H.
  - rewrite Ea in H. cbv in H. now injection H.
  - rewrite Ea in H. cbv in H. now injection H.
  - rewrite Ea in H. cbv in H. now injection H.
  - rewrite Ea in H. cbv in H. now injection H.
  - rewrite Ea in H. cbv in H. now injection H.
  - rewrite Ea, Eb in H. now injection H.
Qed.

Lemma escapeEach_injective (s : string) :
  forall t, escapeEach s = escapeEach t -> s = t.
Proof.
  induction s as [|a s IH]; intros [|b t] H.
  - reflexivity.
  - exfalso. cbn [escapeEach] in H.
    destruct (escapeChar_cases b) as [E|[E|[E|[E|[E|[E _]]]]]];
      rewrite E in H; discriminate H.
  - exfalso. cbn [escapeEach] in H.
    destruct (escapeChar_cases a) as [E|[E|[E|[E|[E|[E _]]]]]];
      rewrite E in H; discriminate H.
  - cbn [escapeEach] in H.
    assert (G : escapeChar a = escapeChar b /\ escapeEach s = escapeEach t).
    { destruct (escapeChar_cases a) as [Ea|[Ea|[Ea|[Ea|[Ea|[Ea Na]]]]]];
        destruct (escapeChar_cases b) as [Eb|[Eb|[Eb|[Eb|[Eb|[Eb Nb]]]]]];
        rewrite Ea, Eb in H |- *; cbn [String.append] in H;
        try discriminate H;
        try (injection H as H; split; [reflexivity|exact H]);
        try (injection H as H1 H2; congruence).
      injection H as H1 H2. subst b. split; [reflexivity|exact H2]. }
    destruct G as [G1 G2].
    apply escapeChar_injective in G1. apply IH in G2. now subst.
Qed.

(** X26: escaping loses nothing: two texts with the same escaped form are
    the same text. *)
Theorem escapeHtml_is_injective (s t : string) :
  escapeHtml s = escapeHtml t -> s = t.
Proof.
  rewrite !escapeHtml_escapeEach. apply escapeEach_injective.
Qed.

Lemma escapeHtml_is_injective_witness :
  escapeHtml "a<b & c" = escapeHtml "a<b & c"
  /\ "a<b & c"%string = "a<b & c"%string.
Proof.
  assert (H1 : escapeHtml "a<b & c" = escapeHtml "a<b & c") by reflexivity.
  exact (conj H1 (escapeHtml_is_injective "a<b & c" "a<b & c" H1)).
Defined.

(** ** The projects and their settings *)

Module ProjectsFacts.

Import Projects.

(** X27: saving the settings of a project keeps the number of projects,
    their ids and their order, and leaves every project with another id as
    it is. *)
Theorem saving_settings_keeps_the_other_projects (projects : list Project)
    (selectedProjectId : option string)
    (projectSettingsById : string -> option Settings.ProjectSettings)
    (i : nat) (p : Project) :
  nth_error projects i = Some p ->
  selectedProjectId <> Some (id p) ->
  map id (handleSaveProjectSettings projects selectedProjectId
                                    projectSettingsById)
  = map id projects
  /\ nth_error (handleSaveProjectSettings projects selectedProjectId
                                          projectSettingsById) i
     = Some p.
Proof.
  intros Hp Hne. unfold handleSaveProjectSettings.
  destruct selectedProjectId as [sel|]; [|split; [reflexivity|exact Hp]].
  destruct (activeProjectSettingsOf projectSettingsById (Some sel)) as [st|];
    [|split; [reflexivity|exact Hp]].
  destruct (FileTree.truthyString sel); [|split; [reflexivity|exact Hp]].
  split.
  - rewrite map_map. apply map_ext. intro q. unfold saveProject.
    now destruct (negb (String.eqb (id q) sel)).
  - rewrite nth_error_map, Hp. cbn [option_map]. f_equal.
    unfold saveProject.
    assert (E : String.eqb (id p) sel = false).
    { apply String.eqb_neq. congruence. }
    now rewrite E.
Qed.

Lemma saving_settings_keeps_the_other_projects_witness :
  nth_error sampleProjects 0
  = Some (mkProject "proj_1" "Renaissance" "A course" None "1d" published
            (mkProjectStats (ofZ 10) (ofZ 2)))
  /\ Some "proj_2"%string <> Some "proj_1"%string
  /\ map id (handleSaveProjectSettings sampleProjects (Some "proj_2"%string)
                                       sampleSettings)
     = map id sampleProjects
  /\ nth_error (handleSaveProjectSettings sampleProjects
                  (Some "proj_2"%string) sampleSettings) 0
     = Some (mkProject "proj_1" "Renaissance" "A course" None "1d" published
               (mkProjectStats (ofZ 10) (ofZ 2))).
Proof.
  assert (H1 : nth_error sampleProjects 0
               = Some (mkProject "proj_1" "Renaissance" "A course" None "1d"
                         published (mkProjectStats (ofZ 10) (ofZ 2))))
    by reflexivity.
  assert (H2 : Some "proj_2"%string <> Some "proj_1"%string) by discriminate.
  exact (conj H1 (conj H2
           (saving_settings_keeps_the_other_projects sampleProjects
              (Some "proj_2"%string) sampleSettings 0 _ H1 H2))).
Defined.

(** X28: saving the settings that [createProjectSettings] makes from a
    project, without an edit, gives the project back with the time of its
    last change set to now; an empty title or description comes back as the
    default text, and the cover is kept whether the project has one or
    not. *)
Theorem unedited_settings_give_the_project_back (projects : list Project)
    (projectSettingsById : string -> option Settings.ProjectSettings)
    (i : nat) (p : Project) :
  nth_error projects i = Some p ->
  FileTree.truthyString (id p) = true ->
  projectSettingsById (id p) = Some (createProjectSettings (Some p)) ->
  nth_error (handleSaveProjectSettings projects (Some (id p))
                                       projectSettingsById) i
  = Some (mkProject (id p)
            (orString (title p) defaultTitle)
            (orString (description p) defaultDescription)
            (coverImage p) justNow (status p) (stats p)).
Proof.
  intros Hp Ht Hs. unfold handleSaveProjectSettings, activeProjectSettingsOf.
  rewrite Ht, Hs. rewrite nth_error_map, Hp. cbn [option_map]. f_equal.
  unfold saveProject. rewrite String.eqb_refl. cbn [negb].
  unfold createProjectSettings.
  cbn [Settings.title Settings.description Settings.coverUrl Settings.status].
  f_equal.
  destruct (coverImage p) as [url|]; [|reflexivity].
  unfold orString, FileTree.truthyString.
  destruct (String.eqb url EmptyString) eqn:E.
  - apply String.eqb_eq in E. now subst url.
  - now rewrite E.
Qed.

Lemma unedited_settings_give_the_project_back_witness :
  let p := mkProject "proj_2" "" "Notes" (Some "cover.png"%string) "2d"
             draft (mkProjectStats (ofZ 0) (ofZ 0)) in
  nth_error sampleProjects 1 = Some p
  /\ FileTree.truthyString (id p) = true
  /\ sampleSettings (id p) = Some (createProjectSettings (Some p))
  /\ nth_error (handleSaveProjectSettings sampleProjects (Some (id p))
                                          sampleSettings) 1
     = Some (mkProject (id p)
               (orString (title p) defaultTitle)
               (orString (description p) defaultDescription)
               (coverImage p) justNow (status p) (stats p)).
Proof.
  intro p.
  assert (H1 : nth_error sampleProjects 1 = Some p) by reflexivity.
  assert (H2 : FileTree.truthyString (id p) = true) by reflexivity.
  assert (H3 : sampleSettings (id p) = Some (createProjectSettings (Some p)))
    by reflexivity.
  exact (conj H1 (conj H2 (conj H3
           (unedited_settings_give_the_project_back sampleProjects
              sampleSettings 1 p H1 H2 H3)))).
Defined.

End ProjectsFacts.

(** ** New files *)

Module NewFilesFacts.

Import FileTree NewFiles.

(** The search in a tree with one more node at the end of the top level. *)
Lemma findFile_snoc (files : list FileNode) (node : FileNode) (sel : string) :
  findFile (files ++ [node]) sel
  = match findFile files sel with
    | Some found => Some found
    | None => findIn node sel
    end.
Proof.
  induction files as [|a files IH].
  - cbn [app findFile]. now destruct (findIn node sel).
  - cbn [app findFile]. destruct (findIn a sel); [reflexivity|exact IH].
Qed.

(** X29: creating a folder, a document or an image never hides a file:
    every search that found a node still finds the same node.  The new node
    is found under its own id when no node had this id before; when a node
    already has it (two creations within the same millisecond), the search
    keeps returning the older node. *)
Theorem creation_keeps_files_findable (files : list FileNode)
    (now later : Z) (sel : string) :
  (forall found, findFile files sel = Some found ->
     findFile (handleCreateFolder files now) sel = Some found
     /\ findFile (handleCreateDoc files now) sel = Some found
     /\ findFile (handleUpload files now later) sel = Some found)
  /\ (findFile files (id (newFolder now)) = None ->
      findFile (handleCreateFolder files now) (id (newFolder now))
      = Some (newFolder now))
  /\ (findFile files (id (newDoc now)) = None ->
      findFile (handleCreateDoc files now) (id (newDoc now))
      = Some (newDoc now))
  /\ (findFile files (id (newImage now later)) = None ->
      findFile (handleUpload files now later) (id (newImage now later))
      = Some (newImage now later)).
Proof.
  unfold handleCreateFolder, handleCreateDoc, handleUpload.
  split; [|split; [|split]].
  - intros found H. rewrite !findFile_snoc, H. repeat split.
  - intro H. rewrite findFile_snoc, H, FileTreeFacts.findIn_eq.
    now rewrite String.eqb_refl.
  - intro H. rewrite findFile_snoc, H, FileTreeFacts.findIn_eq.
    now rewrite String.eqb_refl.
  - intro H. rewrite findFile_snoc, H, FileTreeFacts.findIn_eq.
    now rewrite String.eqb_refl.
Qed.

Lemma creation_keeps_files_findable_witness :
  findFile sampleFiles "doc_2"
  = Some (mkFileNode "doc_2" "c.md" text None (Some "<p>c</p>"%string)
                     None None)
  /\ findFile (handleCreateDoc sampleFiles 1700000000000) "doc_2"
     = Some (mkFileNode "doc_2" "c.md" text None (Some "<p>c</p>"%string)
                        None None)
  /\ findFile sampleFiles (id (newDoc 1700000000000)) = None
  /\ findFile (handleCreateDoc sampleFiles 1700000000000)
              (id (newDoc 1700000000000))
     = Some (newDoc 1700000000000).
Proof.
  assert (H1 : findFile sampleFiles "doc_2"
               = Some (mkFileNode "doc_2" "c.md" text None
                                  (Some "<p>c</p>"%string) None None))
    by reflexivity.
  assert (H2 : findFile sampleFiles (id (newDoc 1700000000000)) = None)
    by reflexivity.
  pose proof (creation_keeps_files_findable sampleFiles 1700000000000
                1700000000001 "doc_2") as [K1 _].
  pose proof (creation_keeps_files_findable sampleFiles 1700000000000
                1700000000001 "doc_2") as [_ [_ [K3 _]]].
  exact (conj H1 (conj (proj1 (proj2 (K1 _ H1))) (conj H2 (K3 H2)))).
Defined.

End NewFilesFacts.
